(** * Session establishment of the login module

    A shallow embedding of the login module: the region catalog, the
    normalisation of stored sessions and credentials, the option setter,
    the persisted token map, the checkpoint checks, the session handle and
    the promise chain of [loginHelper], followed by the properties of the
    written specification that were checked against them.

    The repository holds two copies of the module. The one modelled here
    validates a region by throwing and lets the handle's [setOptions]
    choose the region; the other one logs and returns [null] from
    [validateRegion] and chooses the region in [buildAPI]. The functions
    modelled below are otherwise the same in both, log lines apart.

    Modelling conventions.
    - A JavaScript string is a Rocq [string] of ASCII characters: case
      mapping and white space are the ASCII ones, and the model says
      nothing about text outside ASCII.
    - A JavaScript object used as a dictionary is a [gmap string _]; its
      keys are ordinary property names.
    - A value that may be thrown is an [exn]; a function that may throw
      returns [res A]. Log lines are not modelled.
    - Collaborators that live outside the file (the [utils] module, the
      DOM scraper, [JSON.parse], the network, the clock, the random
      source, the terminal) are the fields of the class [Env] or oracles
      of the [World]. *)

From stdpp Require Import gmap strings list fin_maps.
From Stdlib Require Import ZArith Ascii String Lia DecimalString.

Open Scope string_scope.

(** Concatenation of strings unfolds on a constructor, as for lists. *)
#[global] Arguments String.append !_ _ : simpl nomatch.

(* ===================================================================== *)
(** ** JavaScript strings *)
(* ===================================================================== *)

Module Js.

(** The double quote and the backslash, by character code. *)
Definition dq : ascii := "034"%char.
Definition bsl : ascii := "092"%char.
Definition DQ : string := String dq EmptyString.
Definition BSL : string := String bsl EmptyString.

(** [quoted s] is [s] between two double quotes. *)
Definition quoted (s : string) : string := DQ ++ s ++ DQ.

(** [s.startsWith(p)] *)
Fixpoint startsWith (p s : string) : bool :=
  match p, s with
  | EmptyString, _ => true
  | String _ _, EmptyString => false
  | String a p', String b s' => if Ascii.eqb a b then startsWith p' s' else false
  end.

(** [hay.includes(needle)] *)
Fixpoint includes (needle hay : string) : bool :=
  if startsWith needle hay then true
  else match hay with
       | EmptyString => false
       | String _ hay' => includes needle hay'
       end.

(** [s.substring(n)] for [n] within the string. *)
Fixpoint drop (n : nat) (s : string) : string :=
  match n, s with
  | O, _ => s
  | S _, EmptyString => EmptyString
  | S n', String _ s' => drop n' s'
  end.

(** [s.substring(0, n)] *)
Fixpoint take (n : nat) (s : string) : string :=
  match n, s with
  | O, _ => EmptyString
  | S _, EmptyString => EmptyString
  | S n', String c s' => String c (take n' s')
  end.

(** White space recognised by [trim], within ASCII. *)
Definition isSpace (c : ascii) : bool :=
  let n := nat_of_ascii c in
  (n =? 32)%nat || ((9 <=? n)%nat && (n <=? 13)%nat).

Fixpoint trimStart (s : string) : string :=
  match s with
  | EmptyString => EmptyString
  | String c s' => if isSpace c then trimStart s' else s
  end.

Fixpoint trimEnd (s : string) : string :=
  match s with
  | EmptyString => EmptyString
  | String c s' =>
      match trimEnd s' with
      | EmptyString => if isSpace c then EmptyString else String c EmptyString
      | t => String c t
      end
  end.

(** [s.trim()] *)
Definition trim (s : string) : string := trimEnd (trimStart s).

Definition upperChar (c : ascii) : ascii :=
  let n := nat_of_ascii c in
  if ((97 <=? n)%nat && (n <=? 122)%nat)%bool then ascii_of_nat (n - 32) else c.

Definition lowerChar (c : ascii) : ascii :=
  let n := nat_of_ascii c in
  if ((65 <=? n)%nat && (n <=? 90)%nat)%bool then ascii_of_nat (n + 32) else c.

Fixpoint mapChars (f : ascii -> ascii) (s : string) : string :=
  match s with
  | EmptyString => EmptyString
  | String c s' => String (f c) (mapChars f s')
  end.

(** [s.toUpperCase()] and [s.toLowerCase()] *)
Definition toUpperCase : string -> string := mapChars upperChar.
Definition toLowerCase : string -> string := mapChars lowerChar.

(** [s.charAt(0)] and [s.slice(1)] *)
Definition charAt0 (s : string) : string :=
  match s with
  | EmptyString => EmptyString
  | String c _ => String c EmptyString
  end.

Definition slice1 (s : string) : string := drop 1 s.

(** [s.replace(pat, rep)] with a string pattern: the first occurrence only.
    (No occurrence of the dollar sign in the replacements used here.) *)
Fixpoint replaceFirst (pat rep s : string) : string :=
  if startsWith pat s then rep ++ drop (String.length pat) s
  else match s with
       | EmptyString => EmptyString
       | String c s' => String c (replaceFirst pat rep s')
       end.

(** [s.split(sep)] for a non-empty separator: [skip] counts the characters
    of a separator that was recognised and is still being passed over; the
    head of the result is the piece under construction. *)
Fixpoint splitFrom (sep : string) (skip : nat) (s : string) : list string :=
  match s with
  | EmptyString => [EmptyString]
  | String c s' =>
      match skip with
      | S k => splitFrom sep k s'
      | O =>
          if startsWith sep s
          then EmptyString :: splitFrom sep (String.length sep - 1) s'
          else match splitFrom sep 0 s' with
               | p :: ps => String c p :: ps
               | [] => [String c EmptyString]
               end
      end
  end.

Definition split (sep s : string) : list string := splitFrom sep 0 s.

(** [l.join(sep)] *)
Fixpoint join (sep : string) (l : list string) : string :=
  match l with
  | [] => EmptyString
  | [x] => x
  | x :: l' => x ++ sep ++ join sep l'
  end.

Definition nonEmpty (s : string) : bool :=
  match s with
  | EmptyString => false
  | String _ _ => true
  end.

(** The text before and the text after the first occurrence of [lit]
    (where [indexOf] finds it). *)
Fixpoint firstAt (lit s : string) : option (string * string) :=
  if startsWith lit s then Some (EmptyString, drop (String.length lit) s)
  else match s with
       | EmptyString => None
       | String c s' =>
           match firstAt lit s' with
           | Some (before, after) => Some (String c before, after)
           | None => None
           end
       end.

Fixpoint allChars (p : ascii -> bool) (s : string) : bool :=
  match s with
  | EmptyString => true
  | String c s' => p c && allChars p s'
  end.

(** The last character, if any. *)
Fixpoint lastChar (s : string) : option ascii :=
  match s with
  | EmptyString => None
  | String c s' =>
      match lastChar s' with
      | Some c' => Some c'
      | None => Some c
      end
  end.

(** A string ends well when it is not empty and its last character is no
    white space. *)
Definition endsWell (s : string) : Prop :=
  exists c, lastChar s = Some c /\ isSpace c = false.

End Js.

(* ===================================================================== *)
(** ** Regular expressions of the module *)
(* ===================================================================== *)

(** The patterns of the file are sequences of literals, character classes
    and (lazy or greedy) repetitions of a class, with capturing groups that
    do not nest. The matcher is a backtracking one, alternatives tried in
    the order of the JavaScript engine, so the captures are those of
    [String.prototype.match] and [RegExp.prototype.exec]. *)
Module Re.

Inductive regex : Type :=
| Lit (s : string)
| Class (cls : ascii -> bool)
| Star (greedy : bool) (cls : ascii -> bool)
| Seq (r1 r2 : regex)
| Group (r : regex).

(** The class of the dot: anything but a line terminator. *)
Definition dot (c : ascii) : bool :=
  negb (Ascii.eqb c "010"%char || Ascii.eqb c "013"%char).

Definition notChar (x c : ascii) : bool := negb (Ascii.eqb c x).

(** Text on one line and without double quote. *)
Definition plain (s : string) : bool :=
  Js.allChars (fun c => dot c && notChar Js.dq c) s.

(** [(.*?)] and [cls+] *)
Definition lazyDots : regex := Star false dot.
Definition plus (cls : ascii -> bool) : regex := Seq (Class cls) (Star true cls).

Fixpoint star {A} (greedy : bool) (cls : ascii -> bool) (s : string)
    (k : string -> option A) : option A :=
  let more :=
    match s with
    | String c s' => if cls c then star greedy cls s' k else None
    | EmptyString => None
    end in
  if greedy
  then match more with Some r => Some r | None => k s end
  else match k s with Some r => Some r | None => more end.

(** [matchAt r s caps k]: match [r] at the start of [s], then continue with
    [k] on the rest; [caps] are the groups closed so far. *)
Fixpoint matchAt {A} (r : regex) (s : string) (caps : list string)
    (k : string -> list string -> option A) : option A :=
  match r with
  | Lit l => if Js.startsWith l s then k (Js.drop (String.length l) s) caps else None
  | Class cls =>
      match s with
      | String c s' => if cls c then k s' caps else None
      | EmptyString => None
      end
  | Star g cls => star g cls s (fun rest => k rest caps)
  | Seq r1 r2 => matchAt r1 s caps (fun s1 caps1 => matchAt r2 s1 caps1 k)
  | Group r1 =>
      matchAt r1 s caps (fun s1 caps1 =>
        k s1 (caps1 ++ [Js.take (String.length s - String.length s1) s])%list)
  end.

(** [exec r s]: the leftmost match; element 0 is the matched text, element
    [i] the text of group [i]. *)
Fixpoint exec (r : regex) (s : string) : option (list string) :=
  match matchAt r s [] (fun rest caps =>
          Some (Js.take (String.length s - String.length rest) s :: caps)) with
  | Some m => Some m
  | None =>
      match s with
      | EmptyString => None
      | String _ s' => exec r s'
      end
  end.

(** [r.test(s)] *)
Definition test (r : regex) (s : string) : bool :=
  match exec r s with Some _ => true | None => false end.

(** [m?.[i]] as a string that is empty when the match or the group is
    missing (the callers only test it for truth and copy it). *)
Definition group (i : nat) (m : option (list string)) : string :=
  match m with
  | Some l => nth i l EmptyString
  | None => EmptyString
  end.

End Re.

(* ===================================================================== *)
(** ** Values, thrown values, results *)
(* ===================================================================== *)

(** Primitive JavaScript values, as option values and cookie fields carry
    them (numbers are the integral ones). *)
Inductive JsVal : Type :=
| JUndefined
| JNull
| JBool (b : bool)
| JNum (n : Z)
| JStr (s : string).

#[global] Instance JsVal_eq_dec : EqDecision JsVal.
Proof. solve_decision. Defined.

(** Truthiness: [Boolean(v)] *)
Definition truthy (v : JsVal) : bool :=
  match v with
  | JUndefined | JNull => false
  | JBool b => b
  | JNum n => negb (n =? 0)%Z
  | JStr s => Js.nonEmpty s
  end.

Definition Z_to_string (n : Z) : string := NilEmpty.string_of_int (Z.to_int n).

(** [String(v)], also the conversion of a template literal. *)
Definition toString (v : JsVal) : string :=
  match v with
  | JUndefined => "undefined"
  | JNull => "null"
  | JBool true => "true"
  | JBool false => "false"
  | JNum n => Z_to_string n
  | JStr s => s
  end.

(** [a || b] *)
Definition orElse (a b : JsVal) : JsVal := if truthy a then a else b.

(** Details of a lock or a suspension, as the checks return them. *)
Record LockedReasons := { reason : option string }.
Record SuspendReasons := {
  durationInfo : option string;
  longReason : option string;
  shortReason : option string
}.

(** What the module throws or passes to the callback as an error. *)
Inductive exn : Type :=
| Error (message : string)
| TypeError
| Locked (lockedReasons : LockedReasons)
| Suspended (suspendReasons : SuspendReasons)
| External (message : string).

Definition res (A : Type) : Type := exn + A.
Definition Ok {A} (a : A) : res A := inr a.
Definition Throw {A} (e : exn) : res A := inl e.

(** [e.message]; a thrown plain object has none. *)
Definition messageOf (e : exn) : JsVal :=
  match e with
  | Error m | External m => JStr m
  | TypeError => JStr "TypeError"
  | Locked _ | Suspended _ => JUndefined
  end.

Definition bindRes {A B} (m : res A) (f : A -> res B) : res B :=
  match m with
  | inl e => inl e
  | inr a => f a
  end.

(** [l.map(f)] where [f] may throw and receives the index. *)
Fixpoint mapRes {A B} (f : nat -> A -> res B) (i : nat) (l : list A) : res (list B) :=
  match l with
  | [] => Ok []
  | x :: l' =>
      bindRes (f i x) (fun y =>
      bindRes (mapRes f (S i) l') (fun ys => Ok (y :: ys)))
  end.

(* ===================================================================== *)
(** ** Region catalog *)
(* ===================================================================== *)

Record Region := { code : string; name : string; location : string }.

#[global] Instance Region_eq_dec : EqDecision Region.
Proof. solve_decision. Defined.

(** [config.defaultRegions] *)
Definition defaultRegions : list Region := [
  {| code := "PRN"; name := "Pacific Northwest Region"; location := "Pacific Northwest" |};
  {| code := "VLL"; name := "Valley Region"; location := "Valley" |};
  {| code := "ASH"; name := "Ashburn Region"; location := "Ashburn" |};
  {| code := "DFW"; name := "Dallas/Fort Worth Region"; location := "Dallas/Fort Worth" |};
  {| code := "LLA"; name := "Los Angeles Region"; location := "Los Angeles" |};
  {| code := "FRA"; name := "Frankfurt"; location := "Frankfurt" |};
  {| code := "SIN"; name := "Singapore"; location := "Singapore" |};
  {| code := "NRT"; name := "Tokyo"; location := "Japan" |};
  {| code := "HKG"; name := "Hong Kong"; location := "Hong Kong" |};
  {| code := "SYD"; name := "Sydney"; location := "Sydney" |};
  {| code := "PNB"; name := "Pacific Northwest - Beta"; location := "Pacific Northwest" |}
].

(** [config.defaultRegions.map((r) => r.code).join(", ")] *)
Definition supportedRegions : string := Js.join ", " (map code defaultRegions).

(** [validateRegion(regionCode)] *)
Definition validateRegion (regionCode : JsVal) : res Region :=
  match regionCode with
  | JStr s =>
      if negb (Js.nonEmpty s) || negb (Js.nonEmpty (Js.trim s))
      then Throw (Error ("Region code must be a non-empty string. Supported regions: "
                         ++ supportedRegions))
      else
        let code' := Js.toUpperCase (Js.trim s) in
        match find (fun r => String.eqb (Js.toUpperCase (code r)) code') defaultRegions with
        | Some region => Ok region
        | None => Throw (Error ("Invalid region code: " ++ s ++ ". Supported regions: "
                                ++ supportedRegions))
        end
  | _ => Throw (Error ("Region code must be a non-empty string. Supported regions: "
                       ++ supportedRegions))
  end.

(** [getRandomRegion()]: [randomIndex] is
    [Math.floor(Math.random() * config.defaultRegions.length)], drawn by
    the caller's random source; the array access is [None] out of range. *)
Definition getRandomRegion (randomIndex : nat) : option Region :=
  defaultRegions !! randomIndex.

(* ===================================================================== *)
(** ** Stored sessions and credentials *)
(* ===================================================================== *)

(** A cookie object as a caller or the jar hands it over: every property
    may be missing ([JUndefined]) or of any primitive type. *)
Record RawCookie := {
  rkey : JsVal; rname : JsVal; rvalue : JsVal;
  rdomain : JsVal; rpath : JsVal; rexpires : JsVal
}.

(** A normalised cookie. *)
Record Cookie := {
  key : string; value : string;
  domain : JsVal; path : JsVal; expires : JsVal
}.

(** The [appState] argument: a primitive (a string among them), an array
    of cookie objects, or another object, of which only the [cookies]
    property is read. *)
Inductive AppStateIn : Type :=
| ASPrim (v : JsVal)
| ASArray (cs : list RawCookie)
| ASObject (cookies : AppStateIn).

Definition asTruthy (a : AppStateIn) : bool :=
  match a with
  | ASPrim v => truthy v
  | ASArray _ | ASObject _ => true
  end.

(** [1000 * 60 * 60 * 24 * 365] *)
Definition oneYear : Z := 1000 * 60 * 60 * 24 * 365.

(** [x.trim()] on a truthy value: a [TypeError] unless it is a string. *)
Definition trimVal (v : JsVal) : res string :=
  match v with
  | JStr s => Ok (Js.trim s)
  | _ => Throw TypeError
  end.

(** The callback of [map] in the string branch; [now i] is the reading of
    the clock while entry [i] is built. *)
Definition cookieOfPair (now : nat -> Z) (i : nat) (c : string) : res Cookie :=
  match Js.split "=" c with
  | key :: value :: _ =>
      if negb (Js.nonEmpty key) || negb (Js.nonEmpty value)
      then Throw (Error "Invalid cookie string format")
      else Ok {| key := Js.trim key; value := Js.trim value;
                 domain := JStr ".facebook.com"; path := JStr "/";
                 expires := JNum (now i + oneYear) |}
  | _ => Throw (Error "Invalid cookie string format")
  end.

(** The callback of [map] in the array branch. *)
Definition cookieOfObject (now : nat -> Z) (i : nat) (c : RawCookie) : res Cookie :=
  let key := orElse (rkey c) (rname c) in
  if negb (truthy key) || negb (truthy (rvalue c))
  then Throw (Error "Invalid cookie object in array")
  else
    bindRes (trimVal key) (fun k =>
    bindRes (trimVal (rvalue c)) (fun v =>
    Ok {| key := k; value := v;
          domain := orElse (rdomain c) (JStr ".facebook.com");
          path := orElse (rpath c) (JStr "/");
          expires := orElse (rexpires c) (JNum (now i + oneYear)) |})).

(** [normalizeAppState(appState)] *)
Fixpoint normalizeAppState (now : nat -> Z) (appState : AppStateIn) : res (list Cookie) :=
  match appState with
  | ASPrim v =>
      if negb (truthy v) then Ok []
      else
        match v with
        | JStr s =>
            match mapRes (cookieOfPair now) 0
                    (List.filter (fun c => Js.nonEmpty (Js.trim c)) (Js.split ";" s)) with
            | inr l => Ok l
            | inl e => Throw (Error ("Failed to parse appState string: "
                                     ++ toString (messageOf e)))
            end
        | _ => Throw (Error "Unsupported appState format")
        end
  | ASArray cs => mapRes (cookieOfObject now) 0 cs
  | ASObject cookies =>
      if asTruthy cookies then normalizeAppState now cookies
      else Throw (Error "Unsupported appState format")
  end.

(** The [loginData] argument: a primitive or an object, of which the three
    properties [appState], [email] and [password] are read. *)
Inductive LoginData : Type :=
| LDPrim (v : JsVal)
| LDObject (appState : AppStateIn) (email password : JsVal).

(** Normalised credentials: the object [{ appState }] or [{ email, password }]. *)
Record Credentials := {
  credAppState : option (list Cookie);
  credEmail : option string;
  credPassword : option string
}.

(** [normalizeLoginCredentials(loginData)] *)
Definition normalizeLoginCredentials (now : nat -> Z) (loginData : LoginData)
    : res Credentials :=
  match loginData with
  | LDPrim _ => Throw (Error "Invalid loginData: must be an object")
  | LDObject appState email password =>
      if asTruthy appState then
        bindRes (normalizeAppState now appState) (fun l =>
        Ok {| credAppState := Some l; credEmail := None; credPassword := None |})
      else if truthy email && truthy password then
        match email, password with
        | JStr e, JStr p =>
            Ok {| credAppState := None; credEmail := Some (Js.trim e);
                  credPassword := Some p |}
        | _, _ => Throw (Error "Invalid email or password: must be strings")
        end
      else Throw (Error "Invalid credentials: provide appState, email/password")
  end.

(* ===================================================================== *)
(** ** Collaborators outside the file *)
(* ===================================================================== *)

(** An HTTP response, as far as the module reads it: [res.body],
    [res.request.uri.href], [res.headers.location] and the first
    [set-cookie] header. *)
Record Response := {
  body : option string;
  href : option string;
  headerLocation : option string;
  headerSetCookie0 : option string
}.

(** A form sent with a POST. *)
Abbreviation Form := (gmap string JsVal).

(** The [utils] module, the cookie jar it wraps, the DOM scraper and
    [JSON.parse] are not part of the file: the model is parametric in
    them. *)
Class Env := {
  Jar : Type;
  (** [utils.getJar()] *)
  getJar : Jar;
  (** [jar.setCookie(str, url)] *)
  setCookie : Jar -> string -> string -> res Jar;
  (** [jar.getCookies(url)] *)
  getCookies : Jar -> string -> list RawCookie;
  (** [utils.saveCookies(jar)(res)] *)
  saveCookies : Jar -> Response -> Jar;
  (** [utils.getAppState(jar)] *)
  getAppState : Jar -> list RawCookie;
  (** [utils.getFrom(str, startToken, endToken)] *)
  getFrom : string -> string -> string -> res string;
  (** [utils.generateUserAgent()] *)
  generateUserAgent : string;
  (** [utils.arrToForm] of the non-empty inputs that the scraper finds
      under a selector in a page *)
  scrapeForm : string -> string -> Form;
  (** [utils.formatCookie(JSON.parse(text), "facebook")] *)
  formatJsCookie : string -> res string
}.

(* ===================================================================== *)
(** ** Process-wide options *)
(* ===================================================================== *)

(** Reading a property of an options object. *)
Definition getOpt (g : gmap string JsVal) (k : string) : JsVal :=
  default JUndefined (g !! k).

(** The keys whose case of the [switch] stores [Boolean(value)]. *)
Definition booleanOptions : list string :=
  ["refresh_dtsg"; "online"; "selfListen"; "listenEvents"; "updatePresence";
   "forceLogin"; "autoMarkDelivery"; "autoMarkRead"; "listenTyping";
   "autoReconnect"; "emitReady"].

(** One turn of the loop of [setOptions]: the [switch] on the key. The
    call of [utils.setProxy] acts on the HTTP layer only. *)
Definition setOption `{Env} (g : gmap string JsVal) (kv : string * JsVal)
    : gmap string JsVal :=
  let '(k, v) := kv in
  if existsb (String.eqb k) booleanOptions then <[k := JBool (truthy v)]> g
  else if String.eqb k "selfListenEvent" then <[k := v]> g
  else if String.eqb k "pageID" then <[k := JStr (toString v)]> g
  else if String.eqb k "userAgent" then <[k := v]> g
  else if String.eqb k "proxy" then
    match v with
    | JStr _ => <[k := v]> g
    | _ => delete k g
    end
  else if String.eqb k "randomUserAgent" then
    let g' := <[k := JBool (truthy v)]> g in
    if truthy v then <["userAgent" := JStr generateUserAgent]> g' else g'
  else if String.eqb k "bypassRegion" then
    if truthy v then
      match validateRegion v with
      | inr region => <[k := JStr (code region)]> g
      | inl _ => delete k g
      end
    else delete k g
  else g.

(** [setOptions(options)] on [state.globalOptions]; [options] lists
    [Object.entries(options)]. *)
Definition setOptions `{Env} (options : list (string * JsVal))
    (g : gmap string JsVal) : gmap string JsVal :=
  fold_left setOption options g.

(** The options that [login] installs before applying the caller's. *)
Definition defaultOptions : gmap string JsVal :=
  list_to_map [
    ("selfListen", JBool false); ("selfListenEvent", JBool false);
    ("listenEvents", JBool true); ("listenTyping", JBool false);
    ("updatePresence", JBool false); ("forceLogin", JBool false);
    ("autoMarkDelivery", JBool false); ("autoMarkRead", JBool true);
    ("autoReconnect", JBool true); ("online", JBool true);
    ("emitReady", JBool false); ("randomUserAgent", JBool false);
    ("refresh_dtsg", JBool true)].

(* ===================================================================== *)
(** ** The world of a login attempt *)
(* ===================================================================== *)

(** An entry of [fb_dtsg_data.json]. *)
Record TokenPair := { fb_dtsg : string; jazoest : string }.

(** The file [fb_dtsg_data.json]: absent, a JSON object from user id to
    token pair, or something [JSON.parse] rejects. *)
Inductive TokenFile : Type :=
| FileMissing
| FileJson (data : gmap string TokenPair)
| FileCorrupt.

Inductive Request : Type :=
| Get (url : string) (noRef : bool)
| Post (url : string) (form : Form).

(** What the network answers to the next request. *)
Inductive NetReply : Type :=
| Reply (r : Response)
| Fail (message : string).

(** Everything a login attempt reads or changes: the jar, the module
    state ([state.globalOptions], [state.behaviorDetected]), the token
    file, the answers the network will give (in order), the requests sent
    so far (latest first), the lines the terminal will deliver and the
    clock in milliseconds. *)
Record World `{Env} := {
  jar : Jar;
  globalOptions : gmap string JsVal;
  behaviorDetected : bool;
  tokenFile : TokenFile;
  diskWritable : bool;
  network : list NetReply;
  requests : list Request;
  stdin : list string;
  clockMs : Z
}.

Section WorldUpdates.
Context `{Env}.

Definition withJar (j : Jar) (w : World) : World :=
  {| jar := j; globalOptions := globalOptions w;
     behaviorDetected := behaviorDetected w; tokenFile := tokenFile w;
     diskWritable := diskWritable w; network := network w;
     requests := requests w; stdin := stdin w; clockMs := clockMs w |}.

Definition withBehaviorDetected (b : bool) (w : World) : World :=
  {| jar := jar w; globalOptions := globalOptions w;
     behaviorDetected := b; tokenFile := tokenFile w;
     diskWritable := diskWritable w; network := network w;
     requests := requests w; stdin := stdin w; clockMs := clockMs w |}.

Definition withTokenFile (f : TokenFile) (w : World) : World :=
  {| jar := jar w; globalOptions := globalOptions w;
     behaviorDetected := behaviorDetected w; tokenFile := f;
     diskWritable := diskWritable w; network := network w;
     requests := requests w; stdin := stdin w; clockMs := clockMs w |}.

Definition withNetwork (n : list NetReply) (q : list Request) (w : World) : World :=
  {| jar := jar w; globalOptions := globalOptions w;
     behaviorDetected := behaviorDetected w; tokenFile := tokenFile w;
     diskWritable := diskWritable w; network := n;
     requests := q; stdin := stdin w; clockMs := clockMs w |}.

Definition withStdin (l : list string) (w : World) : World :=
  {| jar := jar w; globalOptions := globalOptions w;
     behaviorDetected := behaviorDetected w; tokenFile := tokenFile w;
     diskWritable := diskWritable w; network := network w;
     requests := requests w; stdin := l; clockMs := clockMs w |}.

(** Computations of the promise chain: a rejection is an [inl]. *)
Definition M (A : Type) : Type := World -> res A * World.

Definition ret {A} (a : A) : M A := fun w => (Ok a, w).
Definition reject {A} (e : exn) : M A := fun w => (Throw e, w).

(** [p.then(f)] *)
Definition bind {A B} (m : M A) (f : A -> M B) : M B :=
  fun w =>
    match m w with
    | (inl e, w') => (inl e, w')
    | (inr a, w') => f a w'
    end.

(** A request: it is recorded, and settled by the next answer of the
    network; a network without answer rejects. *)
Definition send (q : Request) : M Response :=
  fun w =>
    match network w with
    | Reply r :: rest => (Ok r, withNetwork rest (q :: requests w) w)
    | Fail m :: rest => (Throw (External m), withNetwork rest (q :: requests w) w)
    | [] => (Throw (External "no response"), withNetwork [] (q :: requests w) w)
    end.

(** [utils.get(url, jar, null, state.globalOptions, { noRef })] and
    [utils.post(url, jar, form, state.globalOptions)] *)
Definition get (url : string) (noRef : bool) : M Response := send (Get url noRef).
Definition post (url : string) (form : Form) : M Response := send (Post url form).

(** [.then(utils.saveCookies(jar))] *)
Definition thenSaveCookies (r : Response) : M Response :=
  fun w => (Ok r, withJar (saveCookies (jar w) r) w).

End WorldUpdates.

Notation "x <- m ;; k" := (bind m (fun x => k))
  (at level 100, m at next level, right associativity).

(* ===================================================================== *)
(** ** Token persistence and checkpoint checks *)
(* ===================================================================== *)

Section Checks.
Context `{Env}.

Definition isUserKey (k : JsVal) : bool :=
  bool_decide (k = JStr "i_user") || bool_decide (k = JStr "c_user").

(** The user id that each of the four functions below resolves first: the
    argument [ID] if truthy, else the value of the first [i_user] or
    [c_user] entry of the stored session, else that of the jar. *)
Definition resolveUID (j : Jar) (appstate : list Cookie) (ID : JsVal) : JsVal :=
  if truthy ID then ID
  else
    match List.find (fun i => isUserKey (JStr (key i))) appstate with
    | Some appstateCUser => JStr (value appstateCUser)
    | None =>
        match List.find (fun c => isUserKey (rkey c))
                (getCookies j "https://www.facebook.com") with
        | Some userCookie => rvalue userCookie
        | None => JUndefined
        end
    end.

(** [utils.getFrom] applied to a body that may be undefined. *)
Definition getFromBody (b : option string) (startToken endToken : string) : res string :=
  match b with
  | Some s => getFrom s startToken endToken
  | None => Throw TypeError
  end.

Definition dtsgStart : string :=
  "[" ++ Js.quoted "DTSGInitData" ++ ",[],{" ++ Js.quoted "token" ++ ":" ++ Js.DQ.
Definition dtsgEnd : string := Js.DQ ++ "," ++ Js.DQ.
Definition jazoestStart : string := "jazoest=".
Definition jazoestEnd : string := Js.DQ ++ ",".
Definition lsdStart : string :=
  "[" ++ Js.quoted "LSD" ++ ",[],{" ++ Js.quoted "token" ++ ":" ++ Js.DQ.

(** [existingData[UID] = { fb_dtsg, jazoest }] on the object that
    [JSON.parse] returned (or on the literal [{}]), as far as
    [JSON.stringify] shows it afterwards. The property key is the string of
    [UID]. The assignment creates or replaces an own property, except for
    the key [__proto__] on an object without an own property of that name:
    there it reaches the setter that the object inherits from
    [Object.prototype], which makes the pair the prototype of the object
    and leaves its own properties as they were. An own [__proto__]
    property, which [JSON.parse] creates when the file has that key, is
    assigned like any other. *)
Definition putTokens (UID : JsVal) (t : TokenPair) (data : gmap string TokenPair)
    : gmap string TokenPair :=
  let k := toString UID in
  if String.eqb k "__proto__" then
    match data !! k with
    | Some _ => <[k := t]> data
    | None => data
    end
  else <[k := t]> data.

(** The [try] block of [updateDTSG]. *)
Definition updateDTSG_try (res0 : option Response) (appstate : list Cookie) (ID : JsVal)
    : M (option Response) :=
  fun w =>
    let UID := resolveUID (jar w) appstate ID in
    match res0 ≫= body with
    | None => (Throw (Error "Invalid response: Response body is missing."), w)
    | Some b =>
        if negb (Js.nonEmpty b)
        then (Throw (Error "Invalid response: Response body is missing."), w)
        else
          match getFrom b dtsgStart dtsgEnd with
          | inl e => (Throw e, w)
          | inr tok =>
              match getFrom b jazoestStart jazoestEnd with
              | inl e => (Throw e, w)
              | inr jaz =>
                  if Js.nonEmpty tok && Js.nonEmpty jaz then
                    let entry := {| fb_dtsg := tok; jazoest := jaz |} in
                    match tokenFile w with
                    | FileCorrupt => (Throw (External "SyntaxError"), w)
                    | existing =>
                        let existingData :=
                          match existing with FileJson d => d | _ => ∅ end in
                        if diskWritable w
                        then (Ok res0,
                              withTokenFile (FileJson (putTokens UID entry existingData)) w)
                        else (Throw (External "write failed"), w)
                    end
                  else (Ok res0, w)
              end
          end
    end.

(** [updateDTSG(res, appstate, jar, ID)]. The [catch] block builds its log
    line from [UID], which is declared by [let] inside the [try] block and
    is out of scope there: evaluating it throws a [ReferenceError], which
    leaves the function. *)
Definition updateDTSG (res0 : option Response) (appstate : list Cookie) (ID : JsVal)
    : M (option Response) :=
  fun w =>
    match updateDTSG_try res0 appstate ID w with
    | (inr r, w') => (Ok r, w')
    | (inl _, w') => (Throw (External "ReferenceError: UID is not defined"), w')
    end.

Definition hrefIncludes (resp : Response) (needle : string) : bool :=
  match href resp with
  | Some h => Js.includes needle h
  | None => false
  end.

Definition checkpointPath : string := "https://www.facebook.com/checkpoint/".

(** [bypassAutoBehavior(resp, jar, appstate, ID)]: an exception raised
    while the form is built is caught (the result is [undefined]); the
    POST is returned without being awaited, so its rejection is the
    rejection of the call. *)
Definition bypassAutoBehavior (resp : Response) (appstate : list Cookie) (ID : JsVal)
    : M (option Response) :=
  fun w =>
    let UID := resolveUID (jar w) appstate ID in
    if hrefIncludes resp checkpointPath && hrefIncludes resp "601051028565049" then
      match getFromBody (body resp) dtsgStart dtsgEnd,
            getFromBody (body resp) jazoestStart jazoestEnd,
            getFromBody (body resp) lsdStart (Js.DQ ++ "}") with
      | inr tok, inr jaz, inr lsd =>
          let formBypass : Form :=
            list_to_map [
              ("av", UID);
              ("fb_api_caller_class", JStr "RelayModern");
              ("fb_api_req_friendly_name", JStr "FBScrapingWarningMutation");
              ("variables", JStr "{}");
              ("server_timestamps", JBool true);
              ("doc_id", JStr "6339492849481770");
              ("fb_dtsg", JStr tok);
              ("jazoest", JStr jaz);
              ("lsd", JStr lsd)] in
          (r <- post "https://www.facebook.com/api/graphql/" formBypass ;;
           r' <- thenSaveCookies r ;;
           ret (Some r')) (withBehaviorDetected true w)
      | _, _, _ => (Ok None, w)
      end
    else (Ok (Some resp), w).

(** The patterns of the suspension and lock notices. *)
Definition daysToDisableRe : Re.regex :=
  Re.Seq (Re.Lit (Js.quoted "log_out_uri" ++ ":" ++ Js.DQ))
 (Re.Seq (Re.Group Re.lazyDots)
 (Re.Seq (Re.Lit (Js.DQ ++ "," ++ Js.quoted "title" ++ ":" ++ Js.DQ))
 (Re.Seq (Re.Group Re.lazyDots) (Re.Lit Js.DQ)))).

Definition reasonDescriptionRe : Re.regex :=
  Re.Seq (Re.Lit (Js.quoted "reason_section_body" ++ ":" ++ Js.DQ))
 (Re.Seq (Re.Group Re.lazyDots) (Re.Lit Js.DQ)).

Definition lockDescRe : Re.regex :=
  Re.Seq (Re.Lit (Js.quoted "is_unvetted_flow" ++ ":true," ++ Js.quoted "title" ++ ":" ++ Js.DQ))
 (Re.Seq (Re.Group Re.lazyDots) (Re.Lit Js.DQ)).

Definition boilerplate : string :=
  "your account, or activity on it, doesn't follow our community standards on ".

(** [reasonReplace?.charAt(0).toUpperCase() + reasonReplace?.slice(1)]
    after lower-casing and removing the boilerplate. *)
Definition shortReasonOf (longReason : string) : string :=
  let reasonReplace :=
    Js.replaceFirst boilerplate EmptyString (Js.toLowerCase longReason) in
  Js.toUpperCase (Js.charAt0 reasonReplace) ++ Js.slice1 reasonReplace.

Definition truthyGroup (i : nat) (m : option (list string)) : option string :=
  let g := Re.group i m in
  if Js.nonEmpty g then Some g else None.

(** [checkIfSuspended(resp, appstate, jar, ID)]: [None] is [undefined].
    The user id that the function resolves from its other arguments only
    goes into the log lines, as in [checkIfLocked]. *)
Definition checkIfSuspended (resp : Response) : option SuspendReasons :=
  if hrefIncludes resp checkpointPath && hrefIncludes resp "1501092823525282" then
    let daystoDisable := body resp ≫= Re.exec daysToDisableRe in
    let reasonDescription := body resp ≫= Re.exec reasonDescriptionRe in
    Some {| durationInfo := truthyGroup 2 daystoDisable;
            longReason := truthyGroup 1 reasonDescription;
            shortReason := shortReasonOf <$> truthyGroup 1 reasonDescription |}
  else None.

(** [checkIfLocked(resp, appstate, jar, ID)]: a response without body
    makes [resp.body.match] throw, which the [catch] block turns into
    [undefined]. *)
Definition checkIfLocked (resp : Response) : option LockedReasons :=
  if hrefIncludes resp checkpointPath && hrefIncludes resp "828281030927956" then
    match body resp with
    | None => None
    | Some b => Some {| reason := truthyGroup 1 (Re.exec lockDescRe b) |}
    end
  else None.

End Checks.

(* ===================================================================== *)
(** ** The session handle *)
(* ===================================================================== *)

(** The properties of [ctx] that the functions below read or write; the
    jar and the options object it points to are those of the [World].
    [refreshScheduled] records whether [buildAPI] registered the daily
    refresh with the scheduler. *)
Record APIContext := {
  userID : JsVal;
  loggedIn : bool;
  region : JsVal;
  mqttEndpoint : JsVal;
  ctx_fb_dtsg : JsVal;
  refreshScheduled : bool
}.

Section Handle.
Context `{Env}.

Definition initialDataRe : Re.regex :=
  Re.Seq (Re.Lit "DTSGInitialData")
 (Re.Seq (Re.Star false Re.dot)
 (Re.Seq (Re.Lit ("token" ++ Js.DQ ++ ":" ++ Js.DQ))
 (Re.Seq (Re.Group Re.lazyDots) (Re.Lit Js.DQ)))).

(** [c?.value?.toString()] *)
Definition valueToString (c : option RawCookie) : JsVal :=
  match c with
  | None => JUndefined
  | Some c' =>
      match rvalue c' with
      | JUndefined => JUndefined
      | JNull => JUndefined
      | v => JStr (toString v)
      end
  end.

(** [buildAPI(html, jar)], up to the construction of [ctx]; [html] is the
    body of the response, and a missing body makes [html.match] throw.
    The feature modules loaded from the [src] directory are outside the
    model. *)
Definition buildAPI (html : option string) (j : Jar) (g : gmap string JsVal)
    : res APIContext :=
  match html with
  | None => Throw TypeError
  | Some html =>
      let dtsg :=
        match Re.exec initialDataRe html with
        | Some m => JStr (nth 1 m EmptyString)
        | None => JUndefined
        end in
      let cookies := getCookies j "https://www.facebook.com" in
      let primary_profile :=
        List.find (fun c => bool_decide (rkey c = JStr "c_user")) cookies in
      let secondary_profile :=
        List.find (fun c => bool_decide (rkey c = JStr "i_user")) cookies in
      match primary_profile, secondary_profile with
      | None, None =>
          Throw (Error "Error retrieving userID. Try logging in with a browser to verify.")
      | _, _ =>
          if Js.includes "/checkpoint/block/?next" html
          then Throw (Error "Checkpoint detected.")
          else
            Ok {| userID := orElse (valueToString secondary_profile)
                                   (valueToString primary_profile);
                  loggedIn := true;
                  region := JUndefined;
                  mqttEndpoint := JUndefined;
                  ctx_fb_dtsg := dtsg;
                  refreshScheduled := truthy (getOpt g "refresh_dtsg") |}
      end
  end.

(** [options.k] for an object given by its entries. *)
Definition optionsGet (options : list (string * JsVal)) (k : string) : JsVal :=
  match List.find (fun kv => String.eqb (fst kv) k) options with
  | Some kv => snd kv
  | None => JUndefined
  end.

Definition endpointOf (region userID : JsVal) : string :=
  "wss://edge-chat.facebook.com/chat?region=" ++ toString region
  ++ "&sid=" ++ toString userID.

(** [fallbackRegion.code] of a random draw; reading [code] of [undefined]
    throws. *)
Definition randomCode (randomIndex : nat) : res JsVal :=
  match getRandomRegion randomIndex with
  | Some fallbackRegion => Ok (JStr (code fallbackRegion))
  | None => Throw TypeError
  end.

(** [api.setOptions(options)]: the process-wide setter, then the region
    and the endpoint of the context. [randomIndex] is the index that
    [getRandomRegion] draws if it is called. *)
Definition apiSetOptions (options : list (string * JsVal)) (randomIndex : nat)
    (ctx : APIContext) (g : gmap string JsVal)
    : res (APIContext * gmap string JsVal) :=
  let g' := setOptions options g in
  let bypassRegion := optionsGet options "bypassRegion" in
  bindRes
    (if truthy bypassRegion && negb (bool_decide (bypassRegion = region ctx)) then
       match validateRegion bypassRegion with
       | inr regionObj => Ok (JStr (code regionObj))
       | inl _ => randomCode randomIndex
       end
     else randomCode randomIndex)
    (fun region' =>
       Ok ({| userID := userID ctx; loggedIn := loggedIn ctx;
              region := region';
              mqttEndpoint := JStr (endpointOf region' (userID ctx));
              ctx_fb_dtsg := ctx_fb_dtsg ctx;
              refreshScheduled := refreshScheduled ctx |}, g')).

(** The allow-list of [getCookie]. *)
Definition importantKeys : list string :=
  ["datr"; "sb"; "ps_l"; "ps_n"; "m_pixel_ratio"; "c_user"; "fr"; "xs";
   "i_user"; "locale"; "fbl_st"; "vpd"; "wl_cbv"].

Definition isImportant (k : string) : bool := existsb (String.eqb k) importantKeys.

(** The template literal [key=value] of a cookie. *)
Definition render (c : Cookie) : string := key c ++ "=" ++ value c.

(** [cookie.split("=")[0]] *)
Definition nameOf (cookie : string) : string :=
  hd EmptyString (Js.split "=" cookie).

(** [api.getCookie()] on the jar [j]; [now] is the clock of
    [normalizeAppState]. *)
Definition getCookie (now : nat -> Z) (j : Jar) : res string :=
  bindRes (normalizeAppState now (ASArray (getAppState j))) (fun appState =>
    match appState with
    | [] => Ok EmptyString
    | _ => Ok (Js.join "; "
                 (List.filter (fun cookie => isImportant (nameOf cookie))
                    (map render appState)))
    end).

End Handle.

(* ===================================================================== *)
(** ** The login flow *)
(* ===================================================================== *)

(** What the callback of [loginHelper] receives: [callback(error)] or
    [callback(null, api)]. *)
Inductive Outcome : Type :=
| CallbackError (error : exn)
| CallbackApi (api : APIContext).

(** [~~x] on an integer: reduction to a signed 32-bit integer. *)
Definition toInt32 (z : Z) : Z := ((z + 2 ^ 31) mod 2 ^ 32 - 2 ^ 31)%Z.

Definition hexDigit (n : nat) : ascii :=
  if (n <? 10)%nat then ascii_of_nat (48 + n) else ascii_of_nat (87 + n).

(** The escape of one character by [JSON.stringify]. *)
Definition jsonEscape (c : ascii) : string :=
  let n := nat_of_ascii c in
  if Ascii.eqb c Js.dq then Js.BSL ++ Js.DQ
  else if Ascii.eqb c Js.bsl then Js.BSL ++ Js.BSL
  else if (n =? 8)%nat then Js.BSL ++ "b"
  else if (n =? 9)%nat then Js.BSL ++ "t"
  else if (n =? 10)%nat then Js.BSL ++ "n"
  else if (n =? 12)%nat then Js.BSL ++ "f"
  else if (n =? 13)%nat then Js.BSL ++ "r"
  else if (n <? 32)%nat
       then Js.BSL ++ "u00" ++ String (hexDigit (n / 16)) (String (hexDigit (n mod 16)) EmptyString)
       else String c EmptyString.

Fixpoint jsonEscapeAll (s : string) : string :=
  match s with
  | EmptyString => EmptyString
  | String c s' => jsonEscape c ++ jsonEscapeAll s'
  end.

(** [JSON.stringify(s)] of a string. *)
Definition jsonStringify (s : string) : string := Js.quoted (jsonEscapeAll s).

Section Flow.
Context `{Env}.

Definition rootURL : string := "https://www.facebook.com/".

(** The body as a pattern sees it: [undefined] is converted to text. *)
Definition bodyText (r : Response) : string := default "undefined" (body r).

Definition lift {A} (r : res A) : M A := fun w => (r, w).

(** [promptFor2FACode()]: the next line of the terminal. *)
Definition promptFor2FACode : M string :=
  fun w =>
    match stdin w with
    | code2fa :: rest => (Ok code2fa, withStdin rest w)
    | [] => (Throw (External "input closed"), w)
    end.

Definition nextURL : string :=
  "https://www.facebook.com/checkpoint/?next=https%3A%2F%2Fwww.facebook.com%2Fhome.php".

(** [submit2FACode(code, form, jar, nextURL)] *)
Definition submit2FACode (code2fa : string) (form : Form) : M Response :=
  let form1 : Form :=
    <["submit[Continue]" := JStr "Continue"]> (<["approvals_code" := JStr code2fa]> form) in
  r <- post nextURL form1 ;;
  _ <- thenSaveCookies r ;;
  let form2 : Form :=
    <["name_action_selected" := JStr "save_device"]>
      (delete "approvals_code" (delete "no_fido" form1)) in
  r2 <- post nextURL form2 ;;
  secondRes <- thenSaveCookies r2 ;;
  if negb (from_option Js.nonEmpty false (headerLocation secondRes))
     && from_option (Js.includes "checkpoint") false (headerSetCookie0 secondRes)
  then reject (Error "Failed to verify 2FA code.")
  else
    r3 <- get rootURL false ;;
    thenSaveCookies r3.

(** [handle2FA(headers, jar, form)]; [location] is [headers.location]. *)
Definition handle2FA (location : string) (form : Form) : M Response :=
  r <- get location false ;;
  res0 <- thenSaveCookies r ;;
  match body res0 with
  | None => reject TypeError
  | Some html =>
      let form' : Form := scrapeForm "form input" html ∪ form in
      if Js.includes "checkpoint/?next" html then
        code2fa <- promptFor2FACode ;;
        submit2FACode code2fa form'
      else ret res0
  end.

(** The cookies that the page announces in its script fragments, set one
    by one. *)
Fixpoint setJsCookies (vals : list string) : M unit :=
  match vals with
  | [] => ret tt
  | val :: rest =>
      inner <- lift (getFrom val EmptyString "]") ;;
      str <- lift (formatJsCookie ("[" ++ Js.DQ ++ inner ++ "]")) ;;
      _ <- (fun w =>
              match setCookie (jar w) str "https://www.facebook.com" with
              | inr j => (Ok tt, withJar j w)
              | inl e => (Throw e, w)
              end) ;;
      setJsCookies rest
  end.

Definition loginURL : string :=
  "https://www.facebook.com/login/device-based/regular/login/?login_attempt=1".

(** What [makeLogin] does with the answer to the submission (the last
    [then] of its chain). *)
Definition afterSubmit (form : Form) (resData : Response) : M Response :=
  match headerLocation resData with
  | None => reject (Error "Invalid credentials.")
  | Some location =>
      if negb (Js.nonEmpty location) then reject (Error "Invalid credentials.")
      else if Js.includes checkpointPath location then handle2FA location form
      else
        r <- get rootURL false ;;
        thenSaveCookies r
  end.

(** [makeLogin(jar, { email, password })(res)] up to the answer to the
    submission: the form that was posted and the response, cookies saved. *)
Definition submitLogin (email password : string) (res0 : Response)
    : M (Form * Response) :=
  match body res0 with
  | None => reject TypeError
  | Some html =>
      lsd <- lift (getFrom html lsdStart (Js.DQ ++ "]")) ;;
      now <- (fun w => (Ok (clockMs w), w)) ;;
      let form0 : Form := scrapeForm "#login_form input" html in
      let form1 : Form :=
        <["lgndim" := JStr "eyJ3IjoxNDQwLCJoIjo5MDAsImF3IjoxNDQwLCJhaCI6ODM0LCJjIjoyNH0="]>
          (<["lsd" := JStr lsd]> form0) in
      let form2 : Form := if Js.nonEmpty email then <["email" := JStr email]> form1 else form1 in
      let form3 : Form := if Js.nonEmpty password then <["pass" := JStr password]> form2 else form2 in
      let form : Form :=
        <["lgnjs" := JNum (toInt32 (now ÷ 1000))]>
          (<["timezone" := JStr "0"]>
             (<["locale" := JStr "en_US"]>
                (<["default_persistent" := JStr (if Js.nonEmpty email then "1" else "0")]> form3))) in
      _ <- setJsCookies (tl (Js.split (Js.DQ ++ "_js_") html)) ;;
      r <- post loginURL form ;;
      resData <- thenSaveCookies r ;;
      ret (form, resData)
  end.

(** [makeLogin(jar, { email, password })(res)] *)
Definition makeLogin (email password : string) (res0 : Response) : M Response :=
  fr <- submitLogin email password res0 ;;
  afterSubmit (fst fr) (snd fr).

Definition metaRefreshRe : Re.regex :=
  Re.Seq (Re.Lit ("<meta http-equiv=" ++ Js.quoted "refresh" ++ " content=" ++ Js.DQ ++ "0;url="))
 (Re.Seq (Re.Group (Re.plus (Re.notChar Js.dq)))
 (Re.Seq (Re.plus (Re.notChar ">"%char)) (Re.Lit ">"))).

(** [redirect(res, fastSwitch)] *)
Definition redirect (res0 : Response) (fastSwitch : bool) : M Response :=
  if fastSwitch then ret res0
  else
    match truthyGroup 1 (Re.exec metaRefreshRe (bodyText res0)) with
    | Some url => get url false
    | None => ret res0
    end.

(** [checkAndFixErr(res, fastSwitch)] *)
Definition checkAndFixErr (res0 : Response) (fastSwitch : bool) : M Response :=
  if fastSwitch then ret res0
  else if Re.test (Re.Lit "7431627028261359627") (bodyText res0) then
    let data := jsonStringify (bodyText res0) in
    match Js.split "2Fhome.php&gfid=" data with
    | _ :: dtCheck :: _ =>
        if negb (Js.nonEmpty dtCheck) then ret res0
        else
          let fid := hd EmptyString (Js.split Js.BSL dtCheck) in
          if negb (Js.nonEmpty fid) then ret res0
          else
            r <- get ("https://m.facebook.com/a/preferences.php?basic_site_devices=m_basic&uri="
                      ++ "https%3A%2F%2Fm.facebook.com%2Fhome.php" ++ "&gfid=" ++ fid) false ;;
            thenSaveCookies r
    | _ => ret res0
    end
  else ret res0.

(** The cookie string and the URL that [loginHelper] passes to
    [jar.setCookie] for a stored cookie. *)
Definition cookieString (c : Cookie) : string :=
  key c ++ "=" ++ value c ++ "; expires=" ++ toString (expires c)
  ++ "; domain=" ++ toString (domain c) ++ "; path=" ++ toString (path c) ++ ";".

Fixpoint injectCookies (appState : list Cookie) (j : Jar) : res Jar :=
  match appState with
  | [] => Ok j
  | c :: rest =>
      bindRes (setCookie j (cookieString c) ("http://" ++ toString (domain c)))
              (injectCookies rest)
  end.

(** The first promise of [loginHelper], by kind of credentials; the
    [inl] is an exception thrown before any promise exists. *)
Definition firstStep (credentials : Credentials) : M Response :=
  match credAppState credentials with
  | Some (c :: cs) =>
      _ <- (fun w =>
              match injectCookies (c :: cs) (jar w) with
              | inr j => (Ok tt, withJar j w)
              | inl e => (Throw e, w)
              end) ;;
      r <- get rootURL true ;;
      thenSaveCookies r
  | _ =>
      match credEmail credentials, credPassword credentials with
      | Some email, Some password =>
          if Js.nonEmpty email && Js.nonEmpty password then
            r <- get rootURL false ;;
            r' <- thenSaveCookies r ;;
            makeLogin email password r'
          else reject (Error "Unsupported credential type")
      | _, _ => reject (Error "Unsupported credential type")
      end
  end.

Definition optionSet (k : string) : M bool :=
  fun w => (Ok (truthy (getOpt (globalOptions w) k)), w).

(** The chain from the first response to the construction of the handle:
    the response it resolves to is the one of the last navigation. *)
Definition mainChain (credentials : Credentials) : M (Response * APIContext) :=
  let appstate := default [] (credAppState credentials) in
  res0 <- firstStep credentials ;;
  res1 <- redirect res0 false ;;
  res2 <- checkAndFixErr res1 false ;;
  auto1 <- optionSet "OnAutoLoginProcess" ;;
  res3 <- (if auto1 then ret res2
           else if negb (Re.test (Re.Lit "MPageLoadClientMetrics") (bodyText res2))
                then get rootURL true
                else ret res2) ;;
  res4 <- bypassAutoBehavior res3 appstate JUndefined ;;
  _ <- updateDTSG res4 appstate JUndefined ;;
  res6 <- get "https://www.facebook.com/home.php" false ;;
  auto2 <- optionSet "OnAutoLoginProcess" ;;
  res7 <- redirect res6 auto2 ;;
  auto3 <- optionSet "OnAutoLoginProcess" ;;
  res8 <- checkAndFixErr res7 auto3 ;;
  api <- (fun w => (buildAPI (body res8) (jar w) (globalOptions w), w)) ;;
  ret (res8, api).

Definition pageStart : string :=
  "window.location.replace(" ++ Js.DQ ++ "https:" ++ Js.BSL ++ "/" ++ Js.BSL
  ++ "/www.facebook.com" ++ Js.BSL.

(** The two further navigations when a page id is configured. *)
Definition pageChain (pageID : JsVal) : M Response :=
  resData <- get ("https://www.facebook.com/" ++ toString pageID
                  ++ "/messages/?section=messages&subsection=inbox") false ;;
  found <- lift (getFromBody (body resData) pageStart (Js.DQ ++ ");")) ;;
  let url := Js.join EmptyString (Js.split Js.BSL found) in
  get ("https://www.facebook.com" ++ Js.take (String.length url - 1) url) false.

(** The last [then] of [loginHelper]: the lock, then the suspension, then
    the callback with the handle. *)
Definition finalCheck (res0 : Response) (api : APIContext) : Outcome :=
  match checkIfLocked res0 with
  | Some detectLocked => CallbackError (Locked detectLocked)
  | None =>
      match checkIfSuspended res0 with
      | Some detectSuspension => CallbackError (Suspended detectSuspension)
      | None => CallbackApi api
      end
  end.

(** The promise that [loginHelper] ends on, before the final [then]: it
    resolves to the last response and the handle built on the way. The
    test of [pageID] is made once, when the chain is assembled. *)
Definition mainPromise (credentials : Credentials) : M (Response * APIContext) :=
  fun w =>
    let pageID := getOpt (globalOptions w) "pageID" in
    (ra <- mainChain credentials ;;
     if truthy pageID then
       pid <- (fun w' => (Ok (getOpt (globalOptions w') "pageID"), w')) ;;
       r <- pageChain pid ;;
       ret (r, snd ra)
     else ret ra) w.

(** [loginHelper(credentials, callback)] on a fresh jar: what the callback
    is called with, and the world left behind. *)
Definition loginHelper (credentials : Credentials) (w : World) : Outcome * World :=
  match mainPromise credentials (withJar getJar w) with
  | (inr (res0, api), w') => (finalCheck res0 api, w')
  | (inl error, w') => (CallbackError error, w')
  end.

(** [login(loginData, options)] without callback: the options are reset
    and set, the credentials normalised, and the promise settles on what
    [loginHelper] passes to its callback. *)
Definition login (now : nat -> Z) (loginData : LoginData)
    (options : list (string * JsVal)) (w : World) : Outcome * World :=
  let w1 :=
    {| jar := jar w; globalOptions := setOptions options defaultOptions;
       behaviorDetected := behaviorDetected w; tokenFile := tokenFile w;
       diskWritable := diskWritable w; network := network w;
       requests := requests w; stdin := stdin w; clockMs := clockMs w |} in
  match normalizeLoginCredentials now loginData with
  | inl error => (CallbackError error, w1)
  | inr credentials => loginHelper credentials w1
  end.

End Flow.

(* ===================================================================== *)
(** ** The words of the specification, for comparison *)
(* ===================================================================== *)

Module Spec.

(** A string is in the catalog, letter case ignored. *)
Definition inCatalog (s : string) : bool :=
  existsb (fun r => String.eqb (Js.toUpperCase (code r)) (Js.toUpperCase s)) defaultRegions.

(** Keys are unique per domain. *)
Fixpoint uniqueKeys (l : list Cookie) : bool :=
  match l with
  | [] => true
  | c :: l' =>
      negb (existsb (fun c' => String.eqb (key c') (key c)
                               && bool_decide (domain c' = domain c)) l')
      && uniqueKeys l'
  end.

(** The short reason: the long reason with the fixed prefix stripped and
    the first character capitalised. *)
Definition shortReason (long : string) : string :=
  let stripped :=
    if Js.startsWith boilerplate long
    then Js.drop (String.length boilerplate) long
    else long in
  Js.toUpperCase (Js.charAt0 stripped) ++ Js.slice1 stripped.

End Spec.

(* ===================================================================== *)
(** ** A small environment to run the model *)
(* ===================================================================== *)

Module Example.

Fixpoint cutAfter (tok s : string) : option string :=
  if Js.startsWith tok s then Some (Js.drop (String.length tok) s)
  else match s with
       | EmptyString => None
       | String _ s' => cutAfter tok s'
       end.

Fixpoint cutBefore (tok s : string) : option string :=
  if Js.startsWith tok s then Some EmptyString
  else match s with
       | EmptyString => None
       | String c s' => String c <$> cutBefore tok s'
       end.

(** Text between two tokens: empty without the first, an exception
    without the second. *)
Definition textBetween (str startToken endToken : string) : res string :=
  match cutAfter startToken str with
  | None => Ok EmptyString
  | Some lastHalf =>
      match cutBefore endToken lastHalf with
      | Some t => Ok t
      | None => Throw (Error "Could not find the end token")
      end
  end.

(** A jar that is a list of cookies, one per key. *)
Definition store (j : list RawCookie) (str url : string) : res (list RawCookie) :=
  match Js.split "=" (hd EmptyString (Js.split ";" str)) with
  | k :: v :: _ =>
      Ok (List.filter (fun c => negb (bool_decide (rkey c = JStr k))) j
          ++ [{| rkey := JStr k; rname := JUndefined; rvalue := JStr v;
                 rdomain := JStr ".facebook.com"; rpath := JStr "/";
                 rexpires := JUndefined |}])%list
  | _ => Throw (Error "Cookie failed to parse")
  end.

Definition env : Env := {|
  Jar := list RawCookie;
  getJar := [];
  setCookie := store;
  getCookies := fun j _ => j;
  saveCookies := fun j _ => j;
  getAppState := fun j => j;
  getFrom := textBetween;
  generateUserAgent := "Mozilla/5.0";
  scrapeForm := fun _ _ => ∅;
  formatJsCookie := fun s => Ok s
|}.

Definition world (net : list NetReply) : @World env :=
  {| jar := @getJar env; globalOptions := defaultOptions; behaviorDetected := false;
     tokenFile := FileMissing; diskWritable := true; network := net;
     requests := []; stdin := []; clockMs := 1700000000000 |}.

Definition page (url text : string) : Response :=
  {| body := Some text; href := Some url; headerLocation := None;
     headerSetCookie0 := None |}.

Definition cookie (k v : string) : Cookie :=
  {| key := k; value := v; domain := JStr ".facebook.com"; path := JStr "/";
     expires := JNum 1800000000000 |}.

Definition rawCookie (k v : string) : RawCookie :=
  {| rkey := JStr k; rname := JUndefined; rvalue := JStr v;
     rdomain := JUndefined; rpath := JUndefined; rexpires := JUndefined |}.

(** A stored session of two cookies. *)
Definition session : Credentials :=
  {| credAppState := Some [cookie "c_user" "100001"; cookie "xs" "abc"];
     credEmail := None; credPassword := None |}.

Definition passwordLogin : Credentials :=
  {| credAppState := None; credEmail := Some "user@example.com";
     credPassword := Some "secret" |}.

Definition homePage : Response :=
  page "https://www.facebook.com/" "<html>MPageLoadClientMetrics</html>".

(** The notice of a locked account. *)
Definition lockedPage : Response :=
  page "https://www.facebook.com/checkpoint/828281030927956/?next"
       ("{" ++ Js.quoted "is_unvetted_flow" ++ ":true," ++ Js.quoted "title" ++ ":"
        ++ Js.quoted "Your account has been locked" ++ "}").

(** The notice of a suspended account. *)
Definition suspendedBody (long : string) : string :=
  "{" ++ Js.quoted "log_out_uri" ++ ":" ++ Js.quoted "/logout" ++ ","
  ++ Js.quoted "title" ++ ":" ++ Js.quoted "30 days left" ++ ","
  ++ Js.quoted "reason_section_body" ++ ":" ++ Js.quoted long ++ "}".

Definition suspendedPage (long : string) : Response :=
  page "https://www.facebook.com/checkpoint/1501092823525282/?next" (suspendedBody long).

Definition longReasonText : string :=
  "your account, or activity on it, doesn't follow our community standards on Account Integrity.".

(** A page that carries the two tokens. *)
Definition tokenPage : Response :=
  page "https://www.facebook.com/"
       ("[" ++ Js.quoted "DTSGInitData" ++ ",[],{" ++ Js.quoted "token" ++ ":"
        ++ Js.quoted "TOKEN" ++ "," ++ Js.quoted "async_get_token" ++ ":"
        ++ Js.quoted "x" ++ "}] jazoest=25512" ++ Js.DQ ++ ",").

(** The context of a handle whose region is [PRN]. *)
Definition ctxPRN : APIContext :=
  {| userID := JStr "100001"; loggedIn := true; region := JStr "PRN";
     mqttEndpoint := JStr (endpointOf (JStr "PRN") (JStr "100001"));
     ctx_fb_dtsg := JStr "TOKEN"; refreshScheduled := true |}.

(** A stored session of two entries, the second named by [name] and with
    an expiry of its own, and its normal form when the clock reads the
    index of the entry. *)
Definition twoEntries : list RawCookie :=
  [rawCookie "c_user" " 100001 ";
   {| rkey := JUndefined; rname := JStr "xs"; rvalue := JStr "abc";
      rdomain := JUndefined; rpath := JUndefined; rexpires := JNum 7 |}].

Definition twoCookies : list Cookie :=
  [{| key := "c_user"; value := "100001"; domain := JStr ".facebook.com";
      path := JStr "/"; expires := JNum 31536000000 |};
   {| key := "xs"; value := "abc"; domain := JStr ".facebook.com";
      path := JStr "/"; expires := JNum 7 |}].

End Example.

(* ===================================================================== *)
(** ** The stored session read back from the handle *)
(* ===================================================================== *)

(** [l.findIndex(p)]: [None] is the result [-1]. *)
Fixpoint findIndex {A} (p : A -> bool) (l : list A) : option nat :=
  match l with
  | [] => None
  | x :: l' => if p x then Some 0%nat else S <$> findIndex p l'
  end.

(** [l.filter((item, index) => p(item, index))] from index [i] on. *)
Fixpoint filterIndexed {A} (p : A -> nat -> bool) (i : nat) (l : list A) : list A :=
  match l with
  | [] => []
  | x :: l' =>
      if p x i then x :: filterIndexed p (S i) l' else filterIndexed p (S i) l'
  end.

(** The entries whose key occurs for the first time. *)
Definition uniqueByKey (appState : list Cookie) : list Cookie :=
  filterIndexed
    (fun item index =>
       bool_decide (findIndex (fun t => String.eqb (key t) (key item)) appState
                    = Some index))
    0 appState.

Section HandleAppState.
Context `{Env}.

(** [api.getAppState()] on the jar [j]. *)
Definition apiGetAppState (now : nat -> Z) (j : Jar) : res (list Cookie) :=
  bindRes (normalizeAppState now (ASArray (getAppState j))) (fun appState =>
    let uniqueAppState := uniqueByKey appState in
    let fallbackState :=
      match uniqueAppState with
      | [] => appState
      | _ => uniqueAppState
      end in
    let secondaryProfile :=
      List.find (fun val => String.eqb (key val) "i_user") fallbackState in
    Ok (List.filter
          (fun val =>
             match secondaryProfile with
             | Some _ => negb (String.eqb (key val) "c_user")
             | None => negb (String.eqb (key val) "i_user")
             end)
          fallbackState)).

End HandleAppState.

(* ===================================================================== *)
(** ** The other copy of the module *)
(* ===================================================================== *)

(** What the other copy does differently: [validateRegion] returns
    [null], the [bypassRegion] case of [setOptions] falls back on a random
    region, and [buildAPI] chooses the region and the endpoint. *)
Module Other.

(** [validateRegion(regionCode)]: [None] is [null]. *)
Definition validateRegion (regionCode : JsVal) : option Region :=
  match regionCode with
  | JStr s =>
      if negb (Js.nonEmpty s) then None
      else List.find (fun r => String.eqb (code r) (Js.toUpperCase (Js.trim s)))
                     defaultRegions
  | _ => None
  end.

(** One turn of the loop of [setOptions]; [randomIndex] is the index that
    [getRandomRegion] draws if it is called. *)
Definition setOption `{Env} (randomIndex : nat) (g : gmap string JsVal)
    (kv : string * JsVal) : res (gmap string JsVal) :=
  let '(k, v) := kv in
  if String.eqb k "bypassRegion" then
    match validateRegion v with
    | Some region => Ok (<[k := JStr (code region)]> g)
    | None =>
        bindRes (randomCode randomIndex) (fun c => Ok (<[k := c]> g))
    end
  else Ok (setOption g (k, v)).

(** [setOptions(options)] *)
Fixpoint setOptions `{Env} (randomIndex : nat) (options : list (string * JsVal))
    (g : gmap string JsVal) : res (gmap string JsVal) :=
  match options with
  | [] => Ok g
  | kv :: rest =>
      bindRes (setOption randomIndex g kv) (setOptions randomIndex rest)
  end.

(** The region that [buildAPI] selects. *)
Definition selectRegion (g : gmap string JsVal) (randomIndex : nat) : res JsVal :=
  let regionObj :=
    if truthy (getOpt g "bypassRegion")
    then validateRegion (getOpt g "bypassRegion")
    else None in
  match regionObj with
  | Some r => Ok (JStr (code r))
  | None => randomCode randomIndex
  end.

(** [buildAPI(html, jar)]: as in the copy modelled above up to the user
    id, then the region, the endpoint and the schedule of the refresh. *)
Definition buildAPI `{Env} (html : option string) (j : Jar) (g : gmap string JsVal)
    (randomIndex : nat) : res APIContext :=
  bindRes (buildAPI html j g) (fun ctx =>
  bindRes (selectRegion g randomIndex) (fun region' =>
    Ok {| userID := userID ctx; loggedIn := true;
          region := region';
          mqttEndpoint := JStr (endpointOf region' (userID ctx));
          ctx_fb_dtsg := ctx_fb_dtsg ctx;
          refreshScheduled :=
            negb (bool_decide (getOpt g "refresh_dtsg" = JBool false)) |})).

End Other.

(* ===================================================================== *)
(** ** What a computation leaves alone *)
(* ===================================================================== *)

Section Frames.
Context `{Env}.

(** [keeps f m]: the computation [m] leaves the component [f] of the
    world as it was, however it ends. *)
Definition keeps {A B} (f : World -> B) (m : M A) : Prop :=
  forall w r w', m w = (r, w') -> f w' = f w.

(** The map of a token file that can be read: the empty map when the file
    does not exist. *)
Definition dataOf (t : TokenFile) : gmap string TokenPair :=
  match t with
  | FileJson d => d
  | _ => ∅
  end.

(** [wroteAtMostOne before after]: the token file is as it was; or it
    could be read and is now its map with one entry put; or it could be
    read, had no [__proto__] entry, and now holds the map that was read
    (the empty one in a new file when there was none). *)
Definition wroteAtMostOne (before after : TokenFile) : Prop :=
  after = before \/
  (before <> FileCorrupt /\
   ((exists U t, after = FileJson (<[U := t]> (dataOf before))) \/
    (dataOf before !! "__proto__" = None /\ after = FileJson (dataOf before)))).

Definition writesAtMostOne {A} (m : M A) : Prop :=
  forall w r w', m w = (r, w') -> wroteAtMostOne (tokenFile w) (tokenFile w').

(** [sendsAtMost n m]: the computation [m] adds at most [n] requests to
    the log, and removes none. *)
Definition sendsAtMost {A} (n : nat) (m : M A) : Prop :=
  forall w r w', m w = (r, w') ->
    exists new, requests w' = (new ++ requests w)%list /\ (List.length new <= n)%nat.

End Frames.

(* ===================================================================== *)
(** ** The cookie string read back *)
(* ===================================================================== *)

(** A text that [trimStart] leaves alone: empty, or starting otherwise
    than with white space. *)
Definition headOk (s : string) : bool :=
  match s with
  | EmptyString => true
  | String c _ => negb (Js.isSpace c)
  end.

(** The cookie that the string branch of [normalizeAppState] builds from
    the text [key=value] of the cookie [c], as entry [i]. *)
Definition reparsed (now : nat -> Z) (i : nat) (c : Cookie) : Cookie :=
  {| key := key c; value := value c; domain := JStr ".facebook.com";
     path := JStr "/"; expires := JNum (now i + oneYear) |}.

(** What the texts of a cookie must be for its rendering to be read back:
    a key and a value that are trimmed, not empty, and free of the two
    separators. *)
Definition readable (c : Cookie) : Prop :=
  (Js.nonEmpty (key c) = true /\ Js.includes ";" (key c) = false /\
   Js.includes "=" (key c) = false /\ Js.trim (key c) = key c) /\
  (Js.nonEmpty (value c) = true /\ Js.includes ";" (value c) = false /\
   Js.includes "=" (value c) = false /\ Js.trim (value c) = value c).

(* ===================================================================== *)
(** ** The test that ends the second factor *)
(* ===================================================================== *)

(** The condition under which [submit2FACode] gives up: the second answer
    has no [location] header and its first [set-cookie] header mentions
    the checkpoint. *)
Definition stillAtCheckpoint (r : Response) : bool :=
  negb (from_option Js.nonEmpty false (headerLocation r))
  && from_option (Js.includes "checkpoint") false (headerSetCookie0 r).

(* ===================================================================== *)
(** ** [src/getInfo.js]: the profile of a user *)
(* ===================================================================== *)

Module GetInfo.

(** What the function reads of an answer of [axios.get]:
    [response.status], [response.request.res.statusCode] ([None] when
    [response.request.res] is missing) and [response.data] ([None] when it
    is no string, so that it has no [match]). *)
Record AxiosResponse := {
  status : Z;
  resStatusCode : option Z;
  data : option string
}.

(** The promise of [axios.get] resolves to a response or rejects with an
    error, of which the message is read. *)
Inductive AxiosReply : Type :=
| Resolves (response : AxiosResponse)
| Rejects (message : string).













End GetInfo.

(* ===================================================================== *)
(** ** [src/getAccess.js]: the access token of a session *)
(* ===================================================================== *)

Module GetAccess.

(** The class [\w]. *)
Definition word (c : ascii) : bool :=
  let n := nat_of_ascii c in
  ((48 <=? n)%nat && (n <=? 57)%nat) || ((65 <=? n)%nat && (n <=? 90)%nat)
  || ((97 <=? n)%nat && (n <=? 122)%nat) || (n =? 95)%nat.

(** [/(EAAG\w+)/] *)
Definition tokenRe : Re.regex := Re.Group (Re.Seq (Re.Lit "EAAG") (Re.plus word)).

(** A text that does not go on with a character of the class. *)
Definition stops (cls : ascii -> bool) (s : string) : bool :=
  match s with
  | EmptyString => true
  | String c _ => negb (cls c)
  end.

(** The request of the function: the address and the [Cookie] header. *)
Record Request := { url : string; cookieHeader : JsVal }.

(** How a call ends: the callback called with an error or with [null]
    and the token, or, without callback, the value that the promise
    resolves to ([None] is [undefined]). *)
Inductive Settled : Type :=
| CalledBack (result : res string)
| Returned (accessToken : option string).

(** The [try] block up to the token: what it throws or finds, and the
    requests sent. [reply] is the answer of the network to the request. *)
Definition findToken (cookie : JsVal) (reply : GetInfo.AxiosReply)
    : res string * list Request :=
  if negb (truthy cookie) then (Throw (Error "Cookie is required"), [])
  else
    let sent := [{| url := "https://business.facebook.com/business_locations";
                    cookieHeader := cookie |}] in
    match reply with
    | GetInfo.Rejects message => (Throw (External message), sent)
    | GetInfo.Resolves response =>
        match GetInfo.data response with
        | None => (Throw TypeError, sent)
        | Some html =>
            match Re.exec tokenRe html with
            | None => (Throw (Error "Access token not found"), sent)
            | Some tokenMatch => (Ok (nth 1 tokenMatch EmptyString), sent)
            end
        end
    end.

(** [getAccess(cookie, callback)]: [hasCallback] is
    [typeof callback === 'function'], [access_token] the property of the
    context before the call; the result has the property after it. *)
Definition getAccess (cookie : JsVal) (hasCallback : bool)
    (reply : GetInfo.AxiosReply) (access_token : JsVal)
    : Settled * JsVal * list Request :=
  match findToken cookie reply with
  | (inr accessToken, sent) =>
      (if hasCallback then CalledBack (Ok accessToken) else Returned (Some accessToken),
       JStr accessToken, sent)
  | (inl error, sent) =>
      (if hasCallback then CalledBack (Throw error) else Returned None,
       access_token, sent)
  end.

End GetAccess.

(* ===================================================================== *)
(** ** More inputs to run the model *)
(* ===================================================================== *)

Module Example2.

(** A page of the automation checkpoint that carries the three tokens. *)
Definition automationPage : Response :=
  Example.page "https://www.facebook.com/checkpoint/601051028565049/?next"
    ("[" ++ Js.quoted "DTSGInitData" ++ ",[],{" ++ Js.quoted "token" ++ ":"
     ++ Js.quoted "TOKEN" ++ "," ++ Js.quoted "async_get_token" ++ ":"
     ++ Js.quoted "x" ++ "}] jazoest=25512" ++ Js.DQ ++ ", ["
     ++ Js.quoted "LSD" ++ ",[],{" ++ Js.quoted "token" ++ ":" ++ Js.quoted "LSD1" ++ "}]").

(** The page of the checkpoint that asks for a code, and the answers to
    the two forms of the second factor. *)
Definition codePage : Response :=
  Example.page "https://www.facebook.com/checkpoint/?next"
    "<form action=/checkpoint/?next><input name=approvals_code></form>".

Definition cleared : Response :=
  {| body := Some EmptyString; href := Some "https://www.facebook.com/checkpoint/";
     headerLocation := Some "https://www.facebook.com/";
     headerSetCookie0 := Some "c_user=100001" |}.

Definition notCleared : Response :=
  {| body := Some EmptyString; href := Some "https://www.facebook.com/checkpoint/";
     headerLocation := None;
     headerSetCookie0 := Some "checkpoint=deleted" |}.

(** The answer to a submission that redirects to the checkpoint. *)
Definition toCheckpoint : Response :=
  {| body := Some EmptyString; href := Some "https://www.facebook.com/login/";
     headerLocation := Some "https://www.facebook.com/checkpoint/?next";
     headerSetCookie0 := None |}.

End Example2.

(* ===================================================================== *)
(** * Properties *)
(* ===================================================================== *)

(** ** Strings *)

Lemma append_assoc (a b c : string) : (a ++ b) ++ c = a ++ b ++ c.
Proof. induction a as [|x a IH]; simpl; [reflexivity | now rewrite IH]. Qed.

Lemma append_empty_r (a : string) : a ++ EmptyString = a.
Proof. induction a as [|x a IH]; simpl; [reflexivity | now rewrite IH]. Qed.

Lemma nonEmpty_false (s : string) : Js.nonEmpty s = false -> s = EmptyString.
Proof. destruct s; [reflexivity | discriminate]. Qed.

Lemma nonEmpty_true (s : string) : Js.nonEmpty s = true -> s <> EmptyString.
Proof. destruct s; [discriminate | intros _ E; discriminate E]. Qed.

Lemma eqb_true (a b : string) : String.eqb a b = true -> a = b.
Proof. apply String.eqb_eq. Qed.

(** ** Region validation *)

Lemma codes_are_upper (r : Region) :
  In r defaultRegions -> Js.toUpperCase (code r) = code r.
Proof.
  unfold defaultRegions; simpl.
  intros Hr; repeat destruct Hr as [<- | Hr]; try reflexivity; contradiction.
Qed.

Lemma find_code (r : Region) :
  In r defaultRegions ->
  List.find (fun r' => String.eqb (Js.toUpperCase (code r')) (code r)) defaultRegions
  = Some r.
Proof.
  unfold defaultRegions; simpl.
  intros Hr; repeat destruct Hr as [<- | Hr]; try reflexivity; contradiction.
Qed.

Lemma validateRegion_in (v : JsVal) (r : Region) :
  validateRegion v = Ok r -> In r defaultRegions.
Proof.
  unfold validateRegion, Ok, Throw.
  destruct v as [| |b|n|s]; try discriminate.
  destruct (negb (Js.nonEmpty s) || negb (Js.nonEmpty (Js.trim s))); [discriminate|].
  destruct (List.find _ defaultRegions) as [r'|] eqn:Hf; [|discriminate].
  intros [= <-]. now apply find_some in Hf.
Qed.

Lemma validateRegion_match (r : Region) (s : string) :
  In r defaultRegions ->
  Js.toUpperCase (Js.trim s) = Js.toUpperCase (code r) ->
  validateRegion (JStr s) = Ok r.
Proof.
  intros Hr Hs. rewrite (codes_are_upper r Hr) in Hs.
  assert (Hne : code r <> EmptyString).
  { revert Hr. unfold defaultRegions; simpl.
    intros Hr; repeat destruct Hr as [<- | Hr]; try discriminate; contradiction. }
  unfold validateRegion.
  destruct s as [|c s];
    [change (Js.toUpperCase (Js.trim EmptyString)) with EmptyString in Hs; congruence|].
  destruct (Js.trim (String c s)) as [|c' t] eqn:Ht;
    [change (Js.toUpperCase EmptyString) with EmptyString in Hs; congruence|].
  cbn [Js.nonEmpty negb orb]. rewrite Hs, (find_code r Hr). reflexivity.
Qed.

Lemma validateRegion_miss (v : JsVal) :
  (forall s r, v = JStr s -> In r defaultRegions ->
     Js.toUpperCase (Js.trim s) <> Js.toUpperCase (code r)) ->
  exists msg, validateRegion v = Throw (Error (msg ++ "Supported regions: " ++ supportedRegions)).
Proof.
  intros Hmiss.
  assert (Hfirst : exists msg,
    @Throw Region (Error ("Region code must be a non-empty string. Supported regions: "
                   ++ supportedRegions))
    = Throw (Error (msg ++ "Supported regions: " ++ supportedRegions))).
  { exists "Region code must be a non-empty string. ". reflexivity. }
  unfold validateRegion.
  destruct v as [| |b|n|s]; try exact Hfirst.
  destruct (negb (Js.nonEmpty s) || negb (Js.nonEmpty (Js.trim s))); [exact Hfirst|].
  destruct (List.find _ defaultRegions) as [r|] eqn:Hf.
  - apply find_some in Hf as [Hin Heq]. apply eqb_true in Heq.
    exfalso. apply (Hmiss s r eq_refl Hin). now rewrite Heq.
  - exists ("Invalid region code: " ++ s ++ ". ").
    rewrite !append_assoc. reflexivity.
Qed.

(** C6, the claim as written fails: the string [" prn "] is not in the
    catalog, even with letter case ignored, and validation accepts it. *)
Lemma validateRegion_accepts_padded_code :
  Spec.inCatalog " prn " = false /\
  validateRegion (JStr " prn ")
  = Ok {| code := "PRN"; name := "Pacific Northwest Region";
          location := "Pacific Northwest" |}.
Proof. split; reflexivity. Qed.

(** C6, amended: the catalog has eleven codes; a string that equals a
    catalog code once trimmed, letter case ignored, validates to that
    region; validating the code of a returned region returns the same
    region; every other value fails with an error whose message ends with
    the list of the catalog's codes. *)
Theorem validateRegion_catalog :
  List.length defaultRegions = 11 /\
  (forall r s, In r defaultRegions ->
     Js.toUpperCase (Js.trim s) = Js.toUpperCase (code r) ->
     validateRegion (JStr s) = Ok r) /\
  (forall v r, validateRegion v = Ok r -> validateRegion (JStr (code r)) = Ok r) /\
  (forall v,
     (forall s r, v = JStr s -> In r defaultRegions ->
        Js.toUpperCase (Js.trim s) <> Js.toUpperCase (code r)) ->
     exists msg,
       validateRegion v
       = Throw (Error (msg ++ "Supported regions: "
                       ++ "PRN, VLL, ASH, DFW, LLA, FRA, SIN, NRT, HKG, SYD, PNB"))).
Proof.
  split; [reflexivity|]. split; [exact validateRegion_match|]. split.
  - intros v r Hv. apply validateRegion_in in Hv.
    apply validateRegion_match; [exact Hv|].
    revert Hv. unfold defaultRegions; simpl.
    intros Hr; repeat destruct Hr as [<- | Hr]; try reflexivity; contradiction.
  - exact validateRegion_miss.
Qed.

(** The amended statement at work: a lower-case code, the code of the
    result, and a string that is no code. *)
Lemma validateRegion_catalog_witness :
  validateRegion (JStr "sin") = Ok {| code := "SIN"; name := "Singapore"; location := "Singapore" |}
  /\ validateRegion (JStr "SIN") = Ok {| code := "SIN"; name := "Singapore"; location := "Singapore" |}
  /\ exists msg, validateRegion (JStr "XYZ")
       = Throw (Error (msg ++ "Supported regions: "
                       ++ "PRN, VLL, ASH, DFW, LLA, FRA, SIN, NRT, HKG, SYD, PNB")).
Proof.
  pose proof validateRegion_catalog as (_ & Hmatch & Hidem & Hmiss).
  split; [|split].
  - apply Hmatch; [simpl; tauto | reflexivity].
  - apply (Hidem (JStr "sin")
             {| code := "SIN"; name := "Singapore"; location := "Singapore" |}).
    reflexivity.
  - apply Hmiss. intros s r [= <-] Hr. revert Hr. unfold defaultRegions; simpl.
    intros Hr; repeat destruct Hr as [<- | Hr]; try discriminate; contradiction.
Defined.

(** ** Normalisation of a stored session *)

Lemma mapRes_length {A B} (f : nat -> A -> res B) (l : list A) :
  forall i l', mapRes f i l = Ok l' -> List.length l' = List.length l.
Proof.
  induction l as [|x l IH]; intros i l'; simpl.
  - intros [= <-]. reflexivity.
  - destruct (f i x) as [e|y]; [discriminate|]. simpl.
    destruct (mapRes f (S i) l) as [e|ys] eqn:Hl; [discriminate|].
    intros [= <-]. simpl. f_equal. eapply IH, Hl.
Qed.

Lemma mapRes_lookup {A B} (f : nat -> A -> res B) (l : list A) :
  forall i l', mapRes f i l = Ok l' ->
  forall n y, l' !! n = Some y ->
  exists x, l !! n = Some x /\ f (i + n) x = Ok y.
Proof.
  induction l as [|x l IH]; intros i l'; simpl.
  - intros [= <-] n y Hn. discriminate Hn.
  - destruct (f i x) as [e|y0] eqn:Hx; [discriminate|]. simpl.
    destruct (mapRes f (S i) l) as [e|ys] eqn:Hl; [discriminate|].
    intros [= <-] [|n] y Hn; simpl in Hn.
    + injection Hn as <-. exists x. split; [reflexivity|].
      now rewrite Nat.add_0_r.
    + destruct (IH _ _ Hl n y Hn) as (x' & Hx' & Hf).
      exists x'. split; [exact Hx'|]. now rewrite Nat.add_succ_r.
Qed.

Lemma cookieOfObject_ok (now : nat -> Z) (i : nat) (c : RawCookie) (c' : Cookie) :
  cookieOfObject now i c = Ok c' ->
  trimVal (orElse (rkey c) (rname c)) = Ok (key c') /\
  trimVal (rvalue c) = Ok (value c') /\
  domain c' = orElse (rdomain c) (JStr ".facebook.com") /\
  path c' = orElse (rpath c) (JStr "/") /\
  expires c' = orElse (rexpires c) (JNum (now i + oneYear)).
Proof.
  unfold cookieOfObject.
  destruct (negb (truthy (orElse (rkey c) (rname c))) || negb (truthy (rvalue c)));
    [discriminate|].
  destruct (trimVal (orElse (rkey c) (rname c))) as [e|k]; [discriminate|].
  destruct (trimVal (rvalue c)) as [e|v]; [discriminate|].
  simpl. intros [= <-]. simpl. repeat split; reflexivity.
Qed.

Lemma cookieOfPair_ok (now : nat -> Z) (i : nat) (p : string) (c' : Cookie) :
  cookieOfPair now i p = Ok c' ->
  key c' = Js.trim (nth 0 (Js.split "=" p) EmptyString) /\
  value c' = Js.trim (nth 1 (Js.split "=" p) EmptyString) /\
  domain c' = JStr ".facebook.com" /\ path c' = JStr "/" /\
  expires c' = JNum (now i + oneYear).
Proof.
  unfold cookieOfPair.
  destruct (Js.split "=" p) as [|k [|v rest]]; try discriminate.
  destruct (negb (Js.nonEmpty k) || negb (Js.nonEmpty v)); [discriminate|].
  intros [= <-]. simpl. repeat split; reflexivity.
Qed.

(** C5, the claim as written fails: a stored session that lists the key
    [xs] twice is normalised to an array that still has both entries, for
    the same domain. *)
Lemma normalizeAppState_keeps_duplicate_keys :
  exists l,
    normalizeAppState (fun _ => 0%Z)
      (ASArray [Example.rawCookie "xs" "old"; Example.rawCookie "xs" "new"]) = Ok l /\
    map value l = ["old"; "new"] /\
    map domain l = [JStr ".facebook.com"; JStr ".facebook.com"] /\
    Spec.uniqueKeys l = false.
Proof. eexists. split; [reflexivity|]. repeat split. Qed.

(** C5, amended: normalisation keeps one cookie per entry, in the order
    of the input, duplicate keys included. For an array, entry [i] gives
    cookie [i], with key and value trimmed, and an expiry that is the
    entry's own when it has one and else the reading of the clock plus one
    year (365 days, in milliseconds). For a string, cookie [i] comes from
    the [i]-th non-blank piece between semicolons and always gets the
    default expiry. A wrapped object is normalised as its [cookies]
    property is. *)
Theorem normalizeAppState_entries (now : nat -> Z) :
  oneYear = (365 * 24 * 60 * 60 * 1000)%Z /\
  (forall cs l, normalizeAppState now (ASArray cs) = Ok l ->
     List.length l = List.length cs /\
     forall i c', l !! i = Some c' ->
       exists c, cs !! i = Some c /\
         trimVal (orElse (rkey c) (rname c)) = Ok (key c') /\
         trimVal (rvalue c) = Ok (value c') /\
         (truthy (rexpires c) = true -> expires c' = rexpires c) /\
         (truthy (rexpires c) = false -> expires c' = JNum (now i + oneYear))) /\
  (forall s l, normalizeAppState now (ASPrim (JStr s)) = Ok l ->
     let pieces := List.filter (fun c => Js.nonEmpty (Js.trim c)) (Js.split ";" s) in
     List.length l = List.length pieces /\
     forall i c', l !! i = Some c' ->
       exists p, pieces !! i = Some p /\
         key c' = Js.trim (nth 0 (Js.split "=" p) EmptyString) /\
         value c' = Js.trim (nth 1 (Js.split "=" p) EmptyString) /\
         expires c' = JNum (now i + oneYear)) /\
  (forall a, asTruthy a = true ->
     normalizeAppState now (ASObject a) = normalizeAppState now a).
Proof.
  split; [reflexivity|]. split; [|split].
  - intros cs l Hl. simpl in Hl. split; [eapply mapRes_length, Hl|].
    intros i c' Hi.
    destruct (mapRes_lookup _ _ _ _ Hl i c' Hi) as (c & Hc & Hf).
    exists c. split; [exact Hc|].
    apply cookieOfObject_ok in Hf as (Hk & Hv & _ & _ & He).
    repeat split; try assumption.
    + intros Ht. rewrite He. unfold orElse. now rewrite Ht.
    + intros Ht. rewrite He. unfold orElse. now rewrite Ht.
  - intros s l Hl pieces. simpl in Hl.
    destruct s as [|ch s]; simpl in Hl.
    + injection Hl as <-. split; [reflexivity|]. intros i c' Hi. discriminate Hi.
    + fold pieces in Hl.
      destruct (mapRes (cookieOfPair now) 0 pieces) as [e|l0] eqn:Hm; [discriminate|].
      injection Hl as <-. split; [eapply mapRes_length, Hm|].
      intros i c' Hi.
      destruct (mapRes_lookup _ _ _ _ Hm i c' Hi) as (p & Hp & Hf).
      exists p. split; [exact Hp|].
      apply cookieOfPair_ok in Hf as (Hk & Hv & _ & _ & He).
      repeat split; assumption.
  - intros a Ha. simpl. now rewrite Ha.
Qed.

(** The amended statement at work on a wrapped array of two entries, the
    second of which brings its own expiry. *)
Lemma normalizeAppState_entries_witness :
  normalizeAppState (fun i => Z.of_nat i) (ASObject (ASArray Example.twoEntries))
  = Ok Example.twoCookies /\
  List.length Example.twoCookies = List.length Example.twoEntries.
Proof.
  pose proof (normalizeAppState_entries (fun i => Z.of_nat i)) as (_ & Harr & _ & Hwrap).
  split.
  - rewrite Hwrap; reflexivity.
  - exact (proj1 (Harr Example.twoEntries Example.twoCookies eq_refl)).
Defined.

(** ** The cookie string of the handle *)

Lemma lastChar_none (s : string) : Js.lastChar s = None -> s = EmptyString.
Proof.
  destruct s as [|c s]; [reflexivity|]. simpl.
  destruct (Js.lastChar s); discriminate.
Qed.

Lemma lastChar_app (a b : string) :
  Js.lastChar (a ++ b)
  = match Js.lastChar b with Some c => Some c | None => Js.lastChar a end.
Proof.
  induction a as [|x a IH]; simpl.
  - destruct (Js.lastChar b); reflexivity.
  - rewrite IH. destruct (Js.lastChar b); reflexivity.
Qed.

Lemma lastChar_trimEnd (s : string) (c : ascii) :
  Js.lastChar (Js.trimEnd s) = Some c -> Js.isSpace c = false.
Proof.
  induction s as [|x s IH]; simpl; [discriminate|].
  destruct (Js.trimEnd s) as [|y t] eqn:Ht.
  - destruct (Js.isSpace x) eqn:Hx; simpl; [discriminate|].
    intros [= <-]. exact Hx.
  - intros Hl. apply IH. simpl in Hl |- *.
    destruct (Js.lastChar t); exact Hl.
Qed.

Lemma render_endsWell (k v : string) : Js.endsWell (k ++ "=" ++ Js.trim v).
Proof.
  unfold Js.endsWell. rewrite lastChar_app. simpl.
  destruct (Js.lastChar (Js.trim v)) as [c|] eqn:Hl.
  - exists c. split; [reflexivity|]. exact (lastChar_trimEnd _ _ Hl).
  - exists "="%char. split; reflexivity.
Qed.

Lemma join_endsWell (sep : string) (l : list string) :
  l <> [] -> Forall Js.endsWell l -> Js.endsWell (Js.join sep l).
Proof.
  induction l as [|x l IH]; [congruence|]. intros _ Hall.
  inversion Hall as [|? ? Hx Hl]; subst.
  destruct l as [|y l]; [exact Hx|].
  change (Js.join sep (x :: y :: l)) with (x ++ sep ++ Js.join sep (y :: l)).
  destruct (IH ltac:(discriminate) Hl) as (c & Hc & Hs).
  exists c. split; [|exact Hs].
  rewrite !lastChar_app, Hc. reflexivity.
Qed.

Lemma filter_map_comm {A B} (f : A -> B) (p : B -> bool) (l : list A) :
  List.filter p (map f l) = map f (List.filter (fun x => p (f x)) l).
Proof.
  induction l as [|x l IH]; simpl; [reflexivity|].
  destruct (p (f x)); simpl; now rewrite IH.
Qed.

Lemma filter_Forall {A} (p : A -> bool) (l : list A) :
  Forall (fun x => p x = true) (List.filter p l).
Proof.
  induction l as [|x l IH]; simpl; [constructor|].
  destruct (p x) eqn:Hp; [constructor; assumption | assumption].
Qed.

Lemma filter_keeps_Forall {A} (P : A -> Prop) (p : A -> bool) (l : list A) :
  Forall P l -> Forall P (List.filter p l).
Proof.
  induction 1 as [|x l Hx Hl IH]; simpl; [constructor|].
  destruct (p x); [constructor; assumption | assumption].
Qed.

Lemma isImportant_In (k : string) : isImportant k = true -> In k importantKeys.
Proof.
  unfold isImportant. intros Hk. apply existsb_exists in Hk as (k' & Hin & Heq).
  apply eqb_true in Heq. now subst.
Qed.

Lemma nameOf_key (k rest : string) :
  Js.includes "=" k = false -> nameOf (k ++ String "="%char rest) = k.
Proof.
  unfold nameOf, Js.split.
  induction k as [|c k IH]; intros Hk.
  - reflexivity.
  - cbn [Js.includes Js.startsWith] in Hk.
    destruct (Ascii.eqb "=" c) eqn:Hc; [discriminate|].
    cbn [String.append Js.splitFrom Js.startsWith]. rewrite Hc.
    specialize (IH Hk).
    destruct (Js.splitFrom "=" 0 (k ++ String "="%char rest)) as [|p ps];
      cbn [hd] in *; now rewrite <- IH.
Qed.

Lemma mapRes_Forall {A B} (f : nat -> A -> res B) (P : B -> Prop) (l : list A) :
  (forall i x y, f i x = Ok y -> P y) ->
  forall i l', mapRes f i l = Ok l' -> Forall P l'.
Proof.
  intros Hf. induction l as [|x l IH]; intros i l'; simpl.
  - intros [= <-]. constructor.
  - destruct (f i x) as [e|y] eqn:Hx; [discriminate|]. simpl.
    destruct (mapRes f (S i) l) as [e|ys] eqn:Hl; [discriminate|].
    intros [= <-]. constructor; [eapply Hf, Hx | eapply IH, Hl].
Qed.

Lemma cookieOfObject_endsWell (now : nat -> Z) (i : nat) (c : RawCookie) (c' : Cookie) :
  cookieOfObject now i c = Ok c' -> Js.endsWell (render c').
Proof.
  intros Hc. apply cookieOfObject_ok in Hc as (_ & Hv & _).
  unfold trimVal in Hv. destruct (rvalue c) as [| |b|n|v]; try discriminate.
  injection Hv as Hv. unfold render. rewrite <- Hv. apply render_endsWell.
Qed.

Section CookieString.
Context `{Env}.

(** C7: the string that [getCookie] returns is the [key=value] texts of
    the cookies that pass the filter, joined by a semicolon and a space;
    the name of every text (what stands before its first equals sign, the
    key itself when it holds none) is on the allow-list; the string does
    not end with the separator; and it is empty when the jar has no
    cookie. *)
Theorem getCookie_allowlist (now : nat -> Z) (j : Jar) (s : string) :
  getCookie now j = Ok s ->
  (getAppState j = [] -> s = EmptyString) /\
  (exists appState kept,
     normalizeAppState now (ASArray (getAppState j)) = Ok appState /\
     kept = List.filter (fun c => isImportant (nameOf (render c))) appState /\
     s = Js.join "; " (map render kept) /\
     Forall (fun c => In (nameOf (render c)) importantKeys) kept /\
     Forall (fun c => Js.includes "=" (key c) = false -> In (key c) importantKeys) kept) /\
  (forall t, s <> t ++ "; ").
Proof.
  unfold getCookie. intros Hs.
  destruct (normalizeAppState now (ASArray (getAppState j))) as [e|appState] eqn:Hn;
    [discriminate|].
  simpl in Hs.
  set (kept := List.filter (fun c => isImportant (nameOf (render c))) appState).
  assert (Hjoin : s = Js.join "; " (map render kept)).
  { unfold kept.
    rewrite <- (filter_map_comm render (fun cookie => isImportant (nameOf cookie))).
    destruct appState; injection Hs as <-; reflexivity. }
  assert (Hnames : Forall (fun c => In (nameOf (render c)) importantKeys) kept).
  { eapply Forall_impl; [apply filter_Forall|].
    intros c Hc. simpl in Hc. now apply isImportant_In. }
  split; [|split].
  - intros Hempty. rewrite Hempty in Hn. injection Hn as <-.
    injection Hs as <-. reflexivity.
  - exists appState, kept. repeat split; try assumption.
    eapply Forall_impl; [exact Hnames|].
    intros c Hc Hk. simpl in Hc.
    change (render c) with (key c ++ String "="%char (value c)) in Hc.
    now rewrite (nameOf_key _ _ Hk) in Hc.
  - intros t Ht.
    assert (Hspace : Js.lastChar s = Some " "%char).
    { rewrite Ht, lastChar_app. reflexivity. }
    destruct kept as [|c0 kept0] eqn:Hkept.
    + rewrite Hjoin in Hspace. discriminate Hspace.
    + assert (Hwell : Js.endsWell s).
      { rewrite Hjoin. apply join_endsWell; [discriminate|].
        apply Forall_map. rewrite <- Hkept. unfold kept.
        apply filter_keeps_Forall.
        eapply mapRes_Forall; [|exact Hn].
        intros i x y. apply cookieOfObject_endsWell. }
      destruct Hwell as (c & Hc & Hsp). rewrite Hspace in Hc.
      injection Hc as <-. discriminate Hsp.
Qed.

End CookieString.

(** The statement at work on a jar of three cookies, one of which is not
    on the allow-list. *)
Lemma getCookie_allowlist_witness :
  @getCookie Example.env (fun _ => 0%Z)
    [Example.rawCookie "c_user" "1"; Example.rawCookie "foo" "2";
     Example.rawCookie "xs" "3 "] = Ok "c_user=1; xs=3" /\
  forall t, "c_user=1; xs=3" <> t ++ "; ".
Proof.
  split; [reflexivity|].
  exact (proj2 (proj2 (@getCookie_allowlist Example.env (fun _ => 0%Z)
    [Example.rawCookie "c_user" "1"; Example.rawCookie "foo" "2";
     Example.rawCookie "xs" "3 "] "c_user=1; xs=3" eq_refl))).
Defined.

(** ** Patterns on plain text *)

Lemma startsWith_app (p s : string) : Js.startsWith p (p ++ s) = true.
Proof.
  induction p as [|c p IH]; simpl; [reflexivity|].
  now rewrite Ascii.eqb_refl.
Qed.

Lemma drop_app (p s : string) : Js.drop (String.length p) (p ++ s) = s.
Proof. induction p as [|c p IH]; simpl; [reflexivity | exact IH]. Qed.

Lemma length_app (a b : string) :
  String.length (a ++ b) = (String.length a + String.length b)%nat.
Proof. induction a as [|c a IH]; simpl; [reflexivity | now rewrite IH]. Qed.

Lemma take_app (u x : string) :
  Js.take (String.length (u ++ x) - String.length x) (u ++ x) = u.
Proof.
  rewrite length_app.
  replace (String.length u + String.length x - String.length x)%nat
    with (String.length u) by lia.
  induction u as [|c u IH]; simpl; [reflexivity | now rewrite IH].
Qed.

(** A lazy repetition of the dot over plain text stops at the first place
    where the rest of the pattern succeeds, when that rest can only start
    on a double quote. *)
Lemma star_lazy_plain {A} (u x : string) (k : string -> option A) (r : A) :
  Re.plain u = true ->
  (forall c s, Ascii.eqb c Js.dq = false -> k (String c s) = None) ->
  k x = Some r ->
  Re.star false Re.dot (u ++ x) k = Some r.
Proof.
  intros Hu Hk Hx. induction u as [|c u IH].
  - simpl. destruct x; simpl; now rewrite Hx.
  - unfold Re.plain in Hu. cbn [Js.allChars] in Hu.
    apply andb_prop in Hu as [Hc Hu]. apply andb_prop in Hc as [Hdot Hq].
    unfold Re.notChar in Hq. apply negb_true_iff in Hq.
    cbn [String.append Re.star]. rewrite (Hk c _ Hq), Hdot.
    apply IH. exact Hu.
Qed.

Lemma matchAt_group_lazy {A} (R : Re.regex) (u x : string) (caps : list string)
    (K : string -> list string -> option A) (r : A) :
  Re.plain u = true ->
  (forall c s caps', Ascii.eqb c Js.dq = false ->
     Re.matchAt R (String c s) caps' K = None) ->
  Re.matchAt R x (caps ++ [u])%list K = Some r ->
  Re.matchAt (Re.Seq (Re.Group Re.lazyDots) R) (u ++ x) caps K = Some r.
Proof.
  intros Hu HR Hx. cbn [Re.matchAt Re.lazyDots].
  apply star_lazy_plain; [exact Hu| |].
  - intros c s Hc. apply HR. exact Hc.
  - rewrite take_app. exact Hx.
Qed.

Lemma lit_needs_quote {A} (l : string) (c : ascii) (s : string)
    (caps : list string) (K : string -> list string -> option A) :
  Ascii.eqb c Js.dq = false ->
  Re.matchAt (Re.Lit (String Js.dq l)) (String c s) caps K = None.
Proof.
  intros Hc. cbn [Re.matchAt Js.startsWith].
  now rewrite Ascii.eqb_sym, Hc.
Qed.

Lemma seq_lit_needs_quote {A} (l : string) (R : Re.regex) (c : ascii) (s : string)
    (caps : list string) (K : string -> list string -> option A) :
  Ascii.eqb c Js.dq = false ->
  Re.matchAt (Re.Seq (Re.Lit (String Js.dq l)) R) (String c s) caps K = None.
Proof.
  intros Hc. cbn [Re.matchAt Js.startsWith].
  now rewrite Ascii.eqb_sym, Hc.
Qed.

Lemma matchAt_lit {A} (l y : string) (caps : list string)
    (K : string -> list string -> option A) :
  Re.matchAt (Re.Lit l) (l ++ y) caps K = K y caps.
Proof. cbn [Re.matchAt]. now rewrite startsWith_app, drop_app. Qed.

Lemma matchAt_seq_lit {A} (l y : string) (R : Re.regex) (caps : list string)
    (K : string -> list string -> option A) :
  Re.matchAt (Re.Seq (Re.Lit l) R) (l ++ y) caps K = Re.matchAt R y caps K.
Proof. cbn [Re.matchAt]. now rewrite startsWith_app, drop_app. Qed.

(** The first occurrence of the leading literal decides the match when
    the rest of the pattern succeeds there. *)
Lemma exec_first (lit : string) (R : Re.regex) (b pre x rest : string)
    (caps : list string) :
  Js.firstAt lit b = Some (pre, x) ->
  (forall (K : string -> list string -> option (list string)) r,
     K rest caps = Some r -> Re.matchAt R x [] K = Some r) ->
  exists whole, Re.exec (Re.Seq (Re.Lit lit) R) b = Some (whole :: caps).
Proof.
  revert pre. induction b as [|c b IH]; intros pre Hf HR.
  - cbn [Js.firstAt] in Hf.
    destruct (Js.startsWith lit EmptyString) eqn:Hs; [|discriminate].
    injection Hf as <- <-.
    cbn [Re.exec Re.matchAt]. rewrite Hs.
    erewrite HR; [eexists; reflexivity | reflexivity].
  - cbn [Js.firstAt] in Hf.
    destruct (Js.startsWith lit (String c b)) eqn:Hs.
    + injection Hf as <- <-.
      cbn [Re.exec Re.matchAt]. rewrite Hs.
      erewrite HR; [eexists; reflexivity | reflexivity].
    + destruct (Js.firstAt lit b) as [[before after]|] eqn:Hb; [|discriminate].
      injection Hf as <- <-.
      cbn [Re.exec Re.matchAt]. rewrite Hs.
      eapply IH; [reflexivity | exact HR].
Qed.

(** A pattern that is a literal, a lazy group and the closing quote. *)
Lemma exec_one_group (lit b pre v rest : string) :
  Js.firstAt lit b = Some (pre, v ++ Js.DQ ++ rest) ->
  Re.plain v = true ->
  exists whole,
    Re.exec (Re.Seq (Re.Lit lit) (Re.Seq (Re.Group Re.lazyDots) (Re.Lit Js.DQ))) b
    = Some [whole; v].
Proof.
  intros Hf Hv. eapply (exec_first _ _ _ _ _ rest); [exact Hf|].
  intros K r HK.
  apply matchAt_group_lazy; [exact Hv| |].
  - intros c s caps' Hc.
    apply (lit_needs_quote EmptyString). exact Hc.
  - rewrite matchAt_lit. exact HK.
Qed.

(** The pattern of the duration: two lazy groups around a literal. *)
Lemma exec_days (b pre u t rest : string) :
  Js.firstAt (Js.quoted "log_out_uri" ++ ":" ++ Js.DQ) b
  = Some (pre, u ++ (Js.DQ ++ "," ++ Js.quoted "title" ++ ":" ++ Js.DQ)
               ++ t ++ Js.DQ ++ rest) ->
  Re.plain u = true -> Re.plain t = true ->
  exists whole, Re.exec daysToDisableRe b = Some [whole; u; t].
Proof.
  intros Hf Hu Ht. unfold daysToDisableRe.
  eapply (exec_first _ _ _ _ _ rest); [exact Hf|].
  intros K r HK.
  apply matchAt_group_lazy; [exact Hu| |].
  - intros c s caps' Hc.
    apply (seq_lit_needs_quote ("," ++ Js.quoted "title" ++ ":" ++ Js.DQ)). exact Hc.
  - rewrite matchAt_seq_lit.
    apply matchAt_group_lazy; [exact Ht| |].
    + intros c s caps' Hc.
      apply (lit_needs_quote EmptyString). exact Hc.
    + rewrite matchAt_lit. exact HK.
Qed.

(** ** Checkpoint checks *)

Lemma replaceFirst_prefix (p t : string) :
  Js.replaceFirst p EmptyString (p ++ t) = t.
Proof.
  assert (Hun : forall s, Js.replaceFirst p EmptyString s
    = if Js.startsWith p s then EmptyString ++ Js.drop (String.length p) s
      else match s with
           | EmptyString => EmptyString
           | String c s' => String c (Js.replaceFirst p EmptyString s')
           end) by (intros []; reflexivity).
  rewrite Hun, startsWith_app, drop_app. reflexivity.
Qed.

(** C2, the claim as written fails: the short reason is computed from the
    lower-cased long reason, so capitals after the first character are
    lost; stripping the prefix and capitalising the first character of the
    long reason itself would give another text. *)
Lemma checkIfSuspended_lowers_reason :
  checkIfSuspended (Example.suspendedPage Example.longReasonText)
  = Some {| durationInfo := Some "30 days left";
            longReason := Some Example.longReasonText;
            shortReason := Some "Account integrity." |}
  /\ Spec.shortReason Example.longReasonText = "Account Integrity.".
Proof. split; reflexivity. Qed.

(** C2, amended: if the URL of the response contains the checkpoint path
    and the identifier of the suspension flow, and the body shows, at the
    first occurrence of each marker, a non-empty title and a non-empty
    reason in plain text (one line, no double quote), then the check
    returns the suspension with the title as [durationInfo], the reason as
    [longReason], and as [shortReason] the lower-cased reason with the
    first occurrence of the boilerplate removed and its first character
    capitalised; when the lower-cased reason starts with the boilerplate,
    that is the capitalised remainder. *)
Theorem checkIfSuspended_markers (resp : Response)
    (b pre u title rest pre' long rest' : string) :
  hrefIncludes resp checkpointPath = true ->
  hrefIncludes resp "1501092823525282" = true ->
  body resp = Some b ->
  Js.firstAt (Js.quoted "log_out_uri" ++ ":" ++ Js.DQ) b
  = Some (pre, u ++ (Js.DQ ++ "," ++ Js.quoted "title" ++ ":" ++ Js.DQ)
               ++ title ++ Js.DQ ++ rest) ->
  Js.firstAt (Js.quoted "reason_section_body" ++ ":" ++ Js.DQ) b
  = Some (pre', long ++ Js.DQ ++ rest') ->
  Re.plain u = true -> Re.plain title = true -> Re.plain long = true ->
  title <> EmptyString -> long <> EmptyString ->
  let lowered := Js.replaceFirst boilerplate EmptyString (Js.toLowerCase long) in
  checkIfSuspended resp
  = Some {| durationInfo := Some title;
            longReason := Some long;
            shortReason := Some (Js.toUpperCase (Js.charAt0 lowered) ++ Js.slice1 lowered) |}
  /\ (forall tail, Js.toLowerCase long = boilerplate ++ tail -> lowered = tail).
Proof.
  intros Hpath Hid Hb Hdays Hreason Hu Ht Hl Htne Hlne lowered.
  split.
  - unfold checkIfSuspended. rewrite Hpath, Hid, Hb. cbn [andb mbind option_bind].
    destruct (exec_days _ _ _ _ _ Hdays Hu Ht) as (w1 & ->).
    destruct (exec_one_group _ _ _ _ _ Hreason Hl) as (w2 & E2).
    fold reasonDescriptionRe in E2. rewrite E2.
    unfold truthyGroup, Re.group. cbn [nth].
    destruct title; [congruence|]. destruct long; [congruence|].
    reflexivity.
  - intros tail Htail. unfold lowered. rewrite Htail. apply replaceFirst_prefix.
Qed.

(** The amended statement at work on the notice of a suspension. *)
Lemma checkIfSuspended_markers_witness :
  checkIfSuspended (Example.suspendedPage Example.longReasonText)
  = Some {| durationInfo := Some "30 days left";
            longReason := Some Example.longReasonText;
            shortReason := Some "Account integrity." |}.
Proof.
  refine (proj1 (checkIfSuspended_markers
    (Example.suspendedPage Example.longReasonText)
    (Example.suspendedBody Example.longReasonText)
    "{" "/logout" "30 days left"
    ("," ++ Js.quoted "reason_section_body" ++ ":" ++ Js.quoted Example.longReasonText ++ "}")
    ("{" ++ Js.quoted "log_out_uri" ++ ":" ++ Js.quoted "/logout" ++ ","
     ++ Js.quoted "title" ++ ":" ++ Js.quoted "30 days left" ++ ",")
    Example.longReasonText "}"
    eq_refl eq_refl eq_refl eq_refl eq_refl eq_refl eq_refl eq_refl _ _));
    discriminate.
Defined.

Section NoCheckpoint.
Context `{Env}.

(** C3: when the URL of the response does not contain the checkpoint
    path (or the response has no URL), the suspension check and the lock
    check return nothing, and the bypass returns the response as it is,
    sends no request and leaves the module state alone, whatever the
    body. *)
Theorem no_checkpoint_path_no_finding (resp : Response) (appstate : list Cookie)
    (ID : JsVal) (w : World) :
  (forall url, href resp = Some url -> Js.includes checkpointPath url = false) ->
  checkIfSuspended resp = None /\
  checkIfLocked resp = None /\
  bypassAutoBehavior resp appstate ID w = (Ok (Some resp), w).
Proof.
  intros Hurl.
  assert (Hno : hrefIncludes resp checkpointPath = false).
  { unfold hrefIncludes. destruct (href resp) as [url|]; [|reflexivity].
    apply Hurl. reflexivity. }
  unfold checkIfSuspended, checkIfLocked, bypassAutoBehavior.
  rewrite Hno. repeat split; reflexivity.
Qed.

End NoCheckpoint.

(** The statement at work on a page that is not a checkpoint but whose
    body is the notice of a suspension. *)
Lemma no_checkpoint_path_no_finding_witness :
  let resp := Example.page "https://www.facebook.com/home.php"
                (Example.suspendedBody Example.longReasonText) in
  checkIfSuspended resp = None /\
  checkIfLocked resp = None /\
  @bypassAutoBehavior Example.env resp [] JUndefined (Example.world [])
  = (Ok (Some resp), Example.world []).
Proof.
  intros resp.
  apply (@no_checkpoint_path_no_finding Example.env resp [] JUndefined (Example.world [])).
  intros url [= <-]. reflexivity.
Defined.

(** ** The persisted token map *)

Section TokenMap.
Context `{Env}.

Lemma putTokens_cases (UID : JsVal) (t : TokenPair) (data : gmap string TokenPair) :
  putTokens UID t data = <[toString UID := t]> data \/
  (toString UID = "__proto__" /\ data !! "__proto__" = None /\ putTokens UID t data = data).
Proof.
  unfold putTokens. cbv zeta.
  destruct (String.eqb (toString UID) "__proto__") eqn:E; [|now left].
  apply eqb_true in E. rewrite E.
  destruct (data !! "__proto__") eqn:Hd; [now left|].
  right. repeat split; assumption.
Qed.

(** C8: when a page yields both tokens and the file can be written,
    [updateDTSG] returns the response and leaves a file that can be read;
    in the map read back, every entry under another id than the user id
    [U] (the resolved id, which is the argument [ID] when one is given) is
    as it was. The entry under [U] is exactly the written pair when [U] is
    not [__proto__], and also when the map on disk already had an entry
    under [U]. When [U] is [__proto__] and the map on disk had no entry of
    that name, the map is written back as it was read: reading it back
    yields no pair under [U]. *)
Theorem updateDTSG_round_trip (res0 : Response) (b : string)
    (appstate : list Cookie) (ID : JsVal) (w : World) (tok jaz : string)
    (data : gmap string TokenPair) :
  body res0 = Some b -> b <> EmptyString ->
  getFrom b dtsgStart dtsgEnd = Ok tok ->
  getFrom b jazoestStart jazoestEnd = Ok jaz ->
  tok <> EmptyString -> jaz <> EmptyString ->
  diskWritable w = true ->
  tokenFile w = FileJson data \/ (tokenFile w = FileMissing /\ data = ∅) ->
  let U := toString (resolveUID (jar w) appstate ID) in
  let written := {| fb_dtsg := tok; jazoest := jaz |} in
  (forall U0, ID = JStr U0 -> U0 <> EmptyString -> U = U0) /\
  fst (updateDTSG (Some res0) appstate ID w) = Ok (Some res0) /\
  exists data' : gmap string TokenPair,
    tokenFile (snd (updateDTSG (Some res0) appstate ID w)) = FileJson data' /\
    (forall U', U' <> U -> data' !! U' = data !! U') /\
    (U <> "__proto__" -> data' !! U = Some written) /\
    (forall old, data !! U = Some old -> data' !! U = Some written) /\
    (U = "__proto__" -> data !! U = None -> data' = data /\ data' !! U = None).
Proof.
  intros Hb Hbne Htok Hjaz Htne Hjne Hdisk Hfile U written.
  split.
  { intros U0 -> HU0. unfold U, resolveUID. simpl.
    destruct U0; [congruence | reflexivity]. }
  assert (Hrun : updateDTSG (Some res0) appstate ID w
                 = (Ok (Some res0),
                    withTokenFile
                      (FileJson (putTokens (resolveUID (jar w) appstate ID) written data)) w)).
  { unfold updateDTSG, updateDTSG_try. cbn [mbind option_bind]. rewrite Hb.
    destruct b as [|c b']; [congruence|]. cbn [Js.nonEmpty negb].
    rewrite Htok, Hjaz. unfold Ok, written.
    destruct tok as [|c1 tok']; [congruence|].
    destruct jaz as [|c2 jaz']; [congruence|].
    cbn [Js.nonEmpty andb]. rewrite Hdisk.
    destruct Hfile as [-> | [-> ->]]; reflexivity. }
  rewrite Hrun. cbn [fst snd tokenFile withTokenFile].
  split; [reflexivity|].
  exists (putTokens (resolveUID (jar w) appstate ID) written data).
  split; [reflexivity|].
  unfold putTokens. cbv zeta. subst U.
  remember (toString (resolveUID (jar w) appstate ID)) as U eqn:HU.
  clear HU Hrun.
  destruct (String.eqb U "__proto__") eqn:E.
  - apply eqb_true in E. destruct (data !! U) as [old|] eqn:Hd.
    + split; [intros U' HU'; apply lookup_insert_ne; congruence|].
      split; [intros _; apply lookup_insert_eq|].
      split; [intros old' _; apply lookup_insert_eq|].
      intros _ Hnone. discriminate Hnone.
    + split; [reflexivity|].
      split; [intros Hne; contradiction|].
      split; [intros old' Hold; discriminate Hold|].
      intros _ _. split; [reflexivity | exact Hd].
  - assert (Hne : U <> "__proto__").
    { intros ->. discriminate E. }
    split; [intros U' HU'; apply lookup_insert_ne; congruence|].
    split; [intros _; apply lookup_insert_eq|].
    split; [intros old' _; apply lookup_insert_eq|].
    intros HU. contradiction.
Qed.

End TokenMap.

(** The statement at work where the round trip fails: a page with both
    tokens, a stored session whose user id is [__proto__], and no file on
    disk. The call returns the response and creates the file, which holds
    the empty map: reading it back yields no pair under the user id. *)
Lemma updateDTSG_round_trip_witness :
  let w := Example.world [] in
  let run := @updateDTSG Example.env (Some Example.tokenPage)
               [Example.cookie "c_user" "__proto__"] JUndefined w in
  @tokenFile Example.env w = FileMissing /\
  fst run = Ok (Some Example.tokenPage) /\
  @tokenFile Example.env (snd run) = FileJson ∅ /\
  (∅ : gmap string TokenPair) !! "__proto__" = None.
Proof.
  intros w run.
  destruct (@updateDTSG_round_trip Example.env Example.tokenPage _
              [Example.cookie "c_user" "__proto__"] JUndefined w "TOKEN" "25512" ∅
              eq_refl ltac:(discriminate) eq_refl eq_refl
              ltac:(discriminate) ltac:(discriminate) eq_refl
              (or_intror (conj eq_refl eq_refl)))
    as (_ & Hret & data' & Hfile & _ & _ & _ & Hproto).
  destruct (Hproto eq_refl eq_refl) as [Hsame Hnone].
  split; [reflexivity|]. split; [exact Hret|].
  split; [rewrite <- Hsame; exact Hfile | reflexivity].
Defined.

(** ** The option setter of the handle *)

(** C9, the claim as written fails: a call that only sets [online], on a
    handle whose region is [PRN], leaves the handle with the region that
    the random source draws (here the second of the catalog) and with the
    endpoint of that region. *)
Lemma apiSetOptions_redraws_region :
  optionsGet [("online", JBool true)] "bypassRegion" = JUndefined /\
  region Example.ctxPRN = JStr "PRN" /\
  exists ctx' g',
    @apiSetOptions Example.env [("online", JBool true)] 1 Example.ctxPRN defaultOptions
    = Ok (ctx', g') /\
    region ctx' = JStr "VLL" /\
    mqttEndpoint ctx' = JStr "wss://edge-chat.facebook.com/chat?region=VLL&sid=100001".
Proof.
  split; [reflexivity|]. split; [reflexivity|].
  eexists _, _. split; [reflexivity|]. split; reflexivity.
Qed.

Section HandleOptions.
Context `{Env}.

(** C9, amended: every call of the handle's [setOptions] applies the
    process-wide setter and then sets the region of the context to a code
    of the catalog and the endpoint to the URL of that region and the user
    id. Without a (truthy) region override in the options the region is
    the one the random source draws; with an override that differs from
    the current region it is the validated code, or the random draw when
    the override is invalid. *)
Theorem apiSetOptions_recomputes (options : list (string * JsVal))
    (randomIndex : nat) (ctx : APIContext) (g : gmap string JsVal)
    (fallback : Region) :
  getRandomRegion randomIndex = Some fallback ->
  let bypassRegion := optionsGet options "bypassRegion" in
  exists region' : string,
    apiSetOptions options randomIndex ctx g
    = Ok ({| userID := userID ctx; loggedIn := loggedIn ctx;
             region := JStr region';
             mqttEndpoint := JStr ("wss://edge-chat.facebook.com/chat?region="
                                   ++ region' ++ "&sid=" ++ toString (userID ctx));
             ctx_fb_dtsg := ctx_fb_dtsg ctx;
             refreshScheduled := refreshScheduled ctx |},
          setOptions options g) /\
    In region' (map code defaultRegions) /\
    (truthy bypassRegion = false -> region' = code fallback) /\
    (truthy bypassRegion = true -> bypassRegion <> region ctx ->
       match validateRegion bypassRegion with
       | inr regionObj => region' = code regionObj
       | inl _ => region' = code fallback
       end).
Proof.
  intros Hrand bypassRegion.
  assert (Hfb : In (code fallback) (map code defaultRegions)).
  { apply in_map. unfold getRandomRegion in Hrand.
    apply list_elem_of_In. eapply list_elem_of_lookup_2, Hrand. }
  unfold apiSetOptions. fold bypassRegion. unfold randomCode. rewrite Hrand.
  destruct (truthy bypassRegion) eqn:Ht; cbn [andb].
  - destruct (bool_decide (bypassRegion = region ctx)) eqn:Hd; cbn [negb].
    + exists (code fallback). apply bool_decide_eq_true in Hd.
      repeat split; try assumption; try discriminate.
      intros _ Hne. contradiction.
    + destruct (validateRegion bypassRegion) as [e|regionObj] eqn:Hv.
      * exists (code fallback).
        repeat split; try assumption; try discriminate; reflexivity.
      * exists (code regionObj).
        repeat split; try discriminate; try reflexivity.
        apply in_map. eapply validateRegion_in, Hv.
  - exists (code fallback).
    repeat split; try assumption; try discriminate; reflexivity.
Qed.

End HandleOptions.

(** The amended statement at work on the same handle, with an override
    that differs from the current region. *)
Lemma apiSetOptions_recomputes_witness :
  exists region' : string,
    @apiSetOptions Example.env [("bypassRegion", JStr "sin")] 1 Example.ctxPRN defaultOptions
    = Ok ({| userID := JStr "100001"; loggedIn := true;
             region := JStr region';
             mqttEndpoint := JStr ("wss://edge-chat.facebook.com/chat?region="
                                   ++ region' ++ "&sid=100001");
             ctx_fb_dtsg := JStr "TOKEN"; refreshScheduled := true |},
          @setOptions Example.env [("bypassRegion", JStr "sin")] defaultOptions) /\
    region' = "SIN".
Proof.
  destruct (@apiSetOptions_recomputes Example.env [("bypassRegion", JStr "sin")] 1
              Example.ctxPRN defaultOptions
              {| code := "VLL"; name := "Valley Region"; location := "Valley" |}
              eq_refl) as (region' & Hcall & _ & _ & Hset).
  exists region'. split; [exact Hcall|].
  apply Hset; [reflexivity | discriminate].
Defined.

(** ** The login flow *)

Section FlowProperties.
Context `{Env}.

Lemma bind_ok {A B} (m : M A) (f : A -> M B) (w w' : World) (a : A) :
  m w = (Ok a, w') -> bind m f w = f a w'.
Proof. intros Hm. unfold bind. now rewrite Hm. Qed.

Lemma bind_rejected {A B} (m : M A) (f : A -> M B) (w w' : World) (e : exn) :
  m w = (Throw e, w') -> bind m f w = (Throw e, w').
Proof. intros Hm. unfold bind. now rewrite Hm. Qed.

Lemma bind_assoc {A B C} (m : M A) (f : A -> M B) (g : B -> M C) (w : World) :
  bind (bind m f) g w = bind m (fun a => bind (f a) g) w.
Proof. unfold bind. destruct (m w) as [[e|a] w']; reflexivity. Qed.

(** A rejection of the first step reaches the callback as it is: no
    later [then] of the chain handles it. *)
Lemma loginHelper_first_rejected (credentials : Credentials) (w w' : World) (e : exn) :
  firstStep credentials (withJar getJar w) = (Throw e, w') ->
  loginHelper credentials w = (CallbackError e, w').
Proof.
  intros Hfirst. unfold loginHelper, mainPromise.
  rewrite (bind_rejected _ _ _ w' e); [reflexivity|].
  unfold mainChain. now apply bind_rejected.
Qed.

(** C1: when the chain of a login attempt has produced its last response
    and the handle, [loginHelper] ends on the two checks of that
    response: a lock is passed to the callback as the error, whatever the
    suspension check says; a suspension is passed as the error when there
    is no lock; in both cases the callback gets no handle, which it only
    gets when both checks find nothing. *)
Theorem final_check_takes_priority (credentials : Credentials) (w w' : World)
    (res0 : Response) (api : APIContext) :
  mainPromise credentials (withJar getJar w) = (Ok (res0, api), w') ->
  let outcome := fst (loginHelper credentials w) in
  snd (loginHelper credentials w) = w' /\
  (forall l, checkIfLocked res0 = Some l -> outcome = CallbackError (Locked l)) /\
  (forall s, checkIfLocked res0 = None -> checkIfSuspended res0 = Some s ->
     outcome = CallbackError (Suspended s)) /\
  (forall s api', checkIfSuspended res0 = Some s -> outcome <> CallbackApi api') /\
  (checkIfLocked res0 = None -> checkIfSuspended res0 = None ->
     outcome = CallbackApi api).
Proof.
  intros Hmain outcome.
  assert (Hrun : loginHelper credentials w = (finalCheck res0 api, w')).
  { unfold loginHelper. rewrite Hmain. reflexivity. }
  unfold outcome. rewrite Hrun. cbn [fst snd]. unfold finalCheck.
  split; [reflexivity|]. split; [|split; [|split]].
  - intros l ->. reflexivity.
  - intros s -> ->. reflexivity.
  - intros s api' ->. destruct (checkIfLocked res0); discriminate.
  - intros -> ->. reflexivity.
Qed.

(** C4: in a login by email and password, when the page of the platform
    has been fetched and the submission has been answered by a response
    without (or with an empty) [location] header, [loginHelper] calls back
    with the error [Invalid credentials.]. *)
Theorem missing_location_is_invalid_credentials (credentials : Credentials)
    (email password : string) (w w1 w2 : World) (r0 resData : Response) (form : Form) :
  match credAppState credentials with Some (_ :: _) => False | _ => True end ->
  credEmail credentials = Some email ->
  credPassword credentials = Some password ->
  Js.nonEmpty email = true -> Js.nonEmpty password = true ->
  (r <- get rootURL false ;; thenSaveCookies r) (withJar getJar w) = (Ok r0, w1) ->
  submitLogin email password r0 w1 = (Ok (form, resData), w2) ->
  from_option Js.nonEmpty false (headerLocation resData) = false ->
  loginHelper credentials w = (CallbackError (Error "Invalid credentials."), w2).
Proof.
  intros Hpath Hemail Hpass Hene Hpne Hroot Hsubmit Hloc.
  apply loginHelper_first_rejected.
  assert (Hafter : afterSubmit form resData w2 = (Throw (Error "Invalid credentials."), w2)).
  { unfold afterSubmit. destruct (headerLocation resData) as [location|]; [|reflexivity].
    simpl in Hloc. rewrite Hloc. reflexivity. }
  assert (Hcred : firstStep credentials (withJar getJar w)
    = (r <- get rootURL false ;; r' <- thenSaveCookies r ;; makeLogin email password r')
        (withJar getJar w)).
  { unfold firstStep. rewrite Hemail, Hpass, Hene, Hpne.
    destruct (credAppState credentials) as [[|c cs]|]; [reflexivity|contradiction|reflexivity]. }
  rewrite Hcred, <- bind_assoc.
  rewrite (bind_ok _ _ _ _ _ Hroot).
  unfold makeLogin. rewrite (bind_ok _ _ _ _ _ Hsubmit). exact Hafter.
Qed.

(** C10: the input whose [appState] is the empty array is normalised to
    an empty stored session; [loginHelper] then calls back with the error
    [Unsupported credential type] without having sent any request, and so
    does [login], whatever the options. *)
Theorem empty_session_is_unsupported (now : nat -> Z)
    (options : list (string * JsVal)) (w : World) :
  let loginData := LDObject (ASArray []) JUndefined JUndefined in
  let credentials := {| credAppState := Some []; credEmail := None; credPassword := None |} in
  normalizeLoginCredentials now loginData = Ok credentials /\
  loginHelper credentials w
  = (CallbackError (Error "Unsupported credential type"), withJar getJar w) /\
  fst (login now loginData options w) = CallbackError (Error "Unsupported credential type") /\
  requests (snd (login now loginData options w)) = requests w /\
  network (snd (login now loginData options w)) = network w.
Proof.
  intros loginData credentials.
  assert (Hhelper : forall w0 : World,
    loginHelper credentials w0
    = (CallbackError (Error "Unsupported credential type"), withJar getJar w0)).
  { intros w0. apply loginHelper_first_rejected. reflexivity. }
  assert (Hlogin : exists w1 : World,
    login now loginData options w
    = (CallbackError (Error "Unsupported credential type"), withJar getJar w1)
    /\ requests w1 = requests w /\ network w1 = network w).
  { eexists. unfold login.
    change (normalizeLoginCredentials now loginData) with (@inr exn _ credentials).
    cbv iota beta. rewrite Hhelper. repeat split; reflexivity. }
  destruct Hlogin as (w1 & Hlogin & Hreq & Hnet).
  split; [reflexivity|]. split; [apply Hhelper|].
  rewrite Hlogin. cbn [fst snd]. repeat split; assumption.
Qed.

End FlowProperties.

(** C1 at work: a stored session, a home page, and a last page that is
    the notice of a lock. *)
Lemma final_check_takes_priority_witness :
  fst (@loginHelper Example.env Example.session
         (Example.world [Reply Example.homePage; Reply Example.lockedPage]))
  = CallbackError (Locked {| reason := Some "Your account has been locked" |}).
Proof.
  refine (proj1 (proj2 (@final_check_takes_priority Example.env Example.session
    (Example.world [Reply Example.homePage; Reply Example.lockedPage])
    _ Example.lockedPage _ _)) _ _).
  - vm_compute. reflexivity.
  - reflexivity.
Defined.

(** C4 at work: the page of the platform, then an answer to the
    submission that redirects nowhere. *)
Lemma missing_location_is_invalid_credentials_witness :
  fst (@loginHelper Example.env Example.passwordLogin
         (Example.world [Reply Example.homePage; Reply Example.homePage]))
  = CallbackError (Error "Invalid credentials.").
Proof.
  erewrite (@missing_location_is_invalid_credentials Example.env Example.passwordLogin
    "user@example.com" "secret"
    (Example.world [Reply Example.homePage; Reply Example.homePage])
    _ _ Example.homePage Example.homePage _ I eq_refl eq_refl eq_refl eq_refl).
  - reflexivity.
  - vm_compute. reflexivity.
  - vm_compute. reflexivity.
  - reflexivity.
Defined.

(** ** Runs of the model *)

Example split_on_semicolons :
  Js.split ";" "a=1; b=2;" = ["a=1"; " b=2"; EmptyString].
Proof. reflexivity. Qed.

Example split_on_a_longer_separator :
  Js.split "ab" "xabyabab" = ["x"; "y"; EmptyString; EmptyString].
Proof. reflexivity. Qed.

Example trim_both_ends : Js.trim "  a b  " = "a b".
Proof. reflexivity. Qed.

Example exec_meta_refresh :
  Re.group 1 (Re.exec metaRefreshRe
    ("<head><meta http-equiv=" ++ Js.quoted "refresh" ++ " content="
     ++ Js.quoted "0;url=https://m.facebook.com/x" ++ " /></head>"))
  = "https://m.facebook.com/x".
Proof. reflexivity. Qed.

Example exec_greedy_backtracks :
  Re.exec (Re.Seq (Re.Lit "url=") (Re.Seq (Re.Group (Re.plus (Re.notChar Js.dq)))
             (Re.Seq (Re.plus (Re.notChar ">"%char)) (Re.Lit ">"))))
          "url=http://x/>"
  = Some ["url=http://x/>"; "http://x"].
Proof. reflexivity. Qed.

Example stringify_escapes :
  jsonStringify ("a" ++ Js.DQ ++ "b" ++ Js.BSL ++ String "010"%char EmptyString)
  = Js.DQ ++ "a" ++ Js.BSL ++ Js.DQ ++ "b" ++ Js.BSL ++ Js.BSL ++ Js.BSL ++ "n" ++ Js.DQ.
Proof. reflexivity. Qed.

Example string_session_is_normalised :
  map (fun c => (key c, value c))
      (default [] (match normalizeAppState (fun _ => 0%Z) (ASPrim (JStr "c_user=100001; xs=abc;")) with
                   | inr l => Some l
                   | inl _ => None
                   end))
  = [("c_user", "100001"); ("xs", "abc")].
Proof. reflexivity. Qed.

(** A stored session and a home page without checkpoint: the callback
    receives the handle of user 100001. *)
Example stored_session_login :
  fst (@loginHelper Example.env Example.session
         (Example.world [Reply Example.homePage; Reply Example.homePage]))
  = CallbackApi {| userID := JStr "100001"; loggedIn := true;
                   region := JUndefined; mqttEndpoint := JUndefined;
                   ctx_fb_dtsg := JUndefined; refreshScheduled := true |}.
Proof. vm_compute. reflexivity. Qed.

(** The same session when the last page is the notice of a suspension. *)
Example suspended_session_login :
  fst (@loginHelper Example.env Example.session
         (Example.world [Reply Example.homePage;
                         Reply (Example.suspendedPage Example.longReasonText)]))
  = CallbackError (Suspended {| durationInfo := Some "30 days left";
                                longReason := Some Example.longReasonText;
                                shortReason := Some "Account integrity." |}).
Proof. vm_compute. reflexivity. Qed.

(** A network that stops answering rejects the chain. *)
Example silent_network_login :
  fst (@loginHelper Example.env Example.session (Example.world [Reply Example.homePage]))
  = CallbackError (External "no response").
Proof. vm_compute. reflexivity. Qed.

(** The tokens of a page stored beside the entry of another user. *)
Example tokens_stored_beside_others :
  @tokenFile Example.env
    (snd (@updateDTSG Example.env (Some Example.tokenPage)
            [Example.cookie "c_user" "100001"] JUndefined
            (@withTokenFile Example.env
               (FileJson {[ "42" := {| fb_dtsg := "OLD"; jazoest := "1" |} ]})
               (Example.world []))))
  = FileJson (<["100001" := {| fb_dtsg := "TOKEN"; jazoest := "25512" |}]>
                {[ "42" := {| fb_dtsg := "OLD"; jazoest := "1" |} ]}).
Proof. vm_compute. reflexivity. Qed.

(** An own [__proto__] entry of the file is replaced like any other. *)
Example own_proto_entry_is_replaced :
  @tokenFile Example.env
    (snd (@updateDTSG Example.env (Some Example.tokenPage)
            [Example.cookie "c_user" "__proto__"] JUndefined
            (@withTokenFile Example.env
               (FileJson {[ "__proto__" := {| fb_dtsg := "OLD"; jazoest := "1" |} ]})
               (Example.world []))))
  = FileJson {[ "__proto__" := {| fb_dtsg := "TOKEN"; jazoest := "25512" |} ]}.
Proof. vm_compute. reflexivity. Qed.

(* ===================================================================== *)
(** * Further properties of the module *)
(* ===================================================================== *)

(** ** The option setter *)

Section OptionSetter.
Context `{Env}.

Lemma setOption_other (g : gmap string JsVal) (k j : string) (v : JsVal) :
  j <> k ->
  (j = "userAgent" -> k = "randomUserAgent" -> truthy v = false) ->
  setOption g (k, v) !! j = g !! j.
Proof.
  intros Hjk Hua. unfold setOption.
  destruct (existsb (String.eqb k) booleanOptions);
    [now rewrite lookup_insert_ne by congruence|].
  destruct (String.eqb k "selfListenEvent");
    [now rewrite lookup_insert_ne by congruence|].
  destruct (String.eqb k "pageID");
    [now rewrite lookup_insert_ne by congruence|].
  destruct (String.eqb k "userAgent");
    [now rewrite lookup_insert_ne by congruence|].
  destruct (String.eqb k "proxy").
  { destruct v; rewrite ?lookup_insert_ne, ?lookup_delete_ne by congruence; reflexivity. }
  destruct (String.eqb k "randomUserAgent") eqn:Hr.
  { apply eqb_true in Hr. destruct (truthy v) eqn:Ht.
    - rewrite lookup_insert_ne; [now rewrite lookup_insert_ne by congruence|].
      intros <-. specialize (Hua eq_refl Hr). congruence.
    - now rewrite lookup_insert_ne by congruence. }
  destruct (String.eqb k "bypassRegion"); [|reflexivity].
  destruct (truthy v); [destruct (validateRegion v)|];
    rewrite ?lookup_insert_ne, ?lookup_delete_ne by congruence; reflexivity.
Qed.

Lemma setOption_unknown (g : gmap string JsVal) (k : string) (v : JsVal) :
  ~ In k (booleanOptions ++ ["selfListenEvent"; "pageID"; "userAgent"; "proxy";
                             "randomUserAgent"; "bypassRegion"])%list ->
  setOption g (k, v) = g.
Proof.
  intros Hk. unfold setOption.
  destruct (existsb (String.eqb k) booleanOptions) eqn:Hb.
  { exfalso. apply Hk, in_or_app. left.
    apply existsb_exists in Hb as (k' & Hin & Heq). apply eqb_true in Heq. now subst. }
  assert (Hne : forall s, In s ["selfListenEvent"; "pageID"; "userAgent"; "proxy";
                                "randomUserAgent"; "bypassRegion"] ->
                String.eqb k s = false).
  { intros s Hs. destruct (String.eqb k s) eqn:E; [|reflexivity].
    apply eqb_true in E. subst. exfalso. apply Hk, in_or_app. now right. }
  rewrite !Hne by (simpl; tauto). reflexivity.
Qed.

(** X1: [setOptions] changes no key but those the options name, and
    [userAgent] when a truthy [randomUserAgent] is among them; options
    that name only keys unknown to the setter change nothing at all. *)
Theorem setOptions_touches_named_keys (options : list (string * JsVal))
    (g : gmap string JsVal) :
  (forall j,
     (forall v, ~ In (j, v) options) ->
     (j = "userAgent" -> forall v, In ("randomUserAgent", v) options -> truthy v = false) ->
     setOptions options g !! j = g !! j) /\
  ((forall k v, In (k, v) options ->
      ~ In k (booleanOptions ++ ["selfListenEvent"; "pageID"; "userAgent"; "proxy";
                                 "randomUserAgent"; "bypassRegion"])%list) ->
   setOptions options g = g).
Proof.
  unfold setOptions. revert g. induction options as [|[k v] options IH]; intros g.
  - split; reflexivity.
  - destruct (IH (setOption g (k, v))) as [IHframe IHunknown]. split.
    + intros j Hj Hua. cbn [fold_left]. rewrite IHframe.
      * apply setOption_other.
        -- intros ->. apply (Hj v). now left.
        -- intros Hju ->. apply Hua; [exact Hju | now left].
      * intros v' Hin. apply (Hj v'). now right.
      * intros Hju v' Hin. apply Hua; [exact Hju | now right].
    + intros Hunk. cbn [fold_left]. rewrite IHunknown.
      * apply setOption_unknown. apply (Hunk k v). now left.
      * intros k' v' Hin. apply (Hunk k' v'). now right.
Qed.

(** The property that [state.globalOptions.bypassRegion] is absent or a
    code of the catalog. *)
Lemma setOption_bypassRegion (g : gmap string JsVal) (kv : string * JsVal) :
  (g !! "bypassRegion" = None \/
   exists r, In r defaultRegions /\ g !! "bypassRegion" = Some (JStr (code r))) ->
  setOption g kv !! "bypassRegion" = None \/
  exists r, In r defaultRegions /\ setOption g kv !! "bypassRegion" = Some (JStr (code r)).
Proof.
  destruct kv as [k v]. intros Hg.
  destruct (String.eqb k "bypassRegion") eqn:Hk.
  - apply eqb_true in Hk. subst k. unfold setOption. simpl.
    destruct (truthy v).
    + destruct (validateRegion v) as [e|r] eqn:Hv.
      * left. apply lookup_delete_eq.
      * right. exists r. split; [eapply validateRegion_in, Hv|].
        apply lookup_insert_eq.
    + left. apply lookup_delete_eq.
  - rewrite setOption_other; [exact Hg| |discriminate].
    intros <-. rewrite String.eqb_refl in Hk. discriminate.
Qed.

(** X2: whatever options a caller passes to [login], the region override
    that [setOptions] leaves in [state.globalOptions] is absent or the
    code of a region of the catalog, as the catalog spells it. *)
Theorem setOptions_bypassRegion_valid (options : list (string * JsVal)) :
  setOptions options defaultOptions !! "bypassRegion" = None \/
  exists r, In r defaultRegions /\
    setOptions options defaultOptions !! "bypassRegion" = Some (JStr (code r)).
Proof.
  assert (Hinv : forall g,
    (g !! "bypassRegion" = None \/
     exists r, In r defaultRegions /\ g !! "bypassRegion" = Some (JStr (code r))) ->
    setOptions options g !! "bypassRegion" = None \/
    exists r, In r defaultRegions /\
      setOptions options g !! "bypassRegion" = Some (JStr (code r))).
  { unfold setOptions. induction options as [|kv options IH]; intros g Hg; [exact Hg|].
    cbn [fold_left]. apply IH, setOption_bypassRegion, Hg. }
  apply Hinv. left. reflexivity.
Qed.

Lemma setOption_boolean (g : gmap string JsVal) (kv : string * JsVal) (k : string) :
  In k ("randomUserAgent" :: booleanOptions) ->
  (exists b, g !! k = Some (JBool b)) ->
  exists b, setOption g kv !! k = Some (JBool b).
Proof.
  destruct kv as [k' v]. intros Hk Hg.
  destruct (String.eqb k k') eqn:Hkk.
  - apply eqb_true in Hkk. subst k'. exists (truthy v).
    unfold setOption. simpl in Hk.
    repeat (destruct Hk as [<- | Hk]; [simpl; try destruct (truthy v);
      rewrite ?lookup_insert_eq; try reflexivity;
      rewrite lookup_insert_ne by discriminate; apply lookup_insert_eq|]).
    contradiction.
  - rewrite setOption_other; [exact Hg| |].
    + intros <-. rewrite String.eqb_refl in Hkk. discriminate.
    + intros ->. simpl in Hk.
      repeat (destruct Hk as [Hk | Hk]; [discriminate Hk|]). contradiction.
Qed.

(** X3: whatever options a caller passes to [login], each of the twelve
    switches of [state.globalOptions] holds a boolean afterwards. *)
Theorem setOptions_switches_are_boolean (options : list (string * JsVal)) (k : string) :
  In k ("randomUserAgent" :: booleanOptions) ->
  exists b, setOptions options defaultOptions !! k = Some (JBool b).
Proof.
  intros Hk.
  assert (Hinv : forall g, (exists b, g !! k = Some (JBool b)) ->
                 exists b, setOptions options g !! k = Some (JBool b)).
  { unfold setOptions. induction options as [|kv options IH]; intros g Hg; [exact Hg|].
    cbn [fold_left]. apply IH, setOption_boolean; assumption. }
  apply Hinv. simpl in Hk.
  repeat (destruct Hk as [<- | Hk]; [eexists; reflexivity|]). contradiction.
Qed.

End OptionSetter.

(** X1 at work: a call that sets [online] and a key unknown to the setter
    leaves [autoMarkRead] as it was. *)
Lemma setOptions_touches_named_keys_witness :
  @setOptions Example.env [("online", JStr "yes"); ("colour", JStr "red")] defaultOptions
    !! "autoMarkRead" = Some (JBool true).
Proof.
  rewrite (proj1 (@setOptions_touches_named_keys Example.env
             [("online", JStr "yes"); ("colour", JStr "red")] defaultOptions)).
  - reflexivity.
  - intros v [E | [E | []]]; discriminate E.
  - discriminate.
Defined.

(** X3 at work: a string passed for [listenTyping]. *)
Lemma setOptions_switches_are_boolean_witness :
  exists b, @setOptions Example.env [("listenTyping", JStr "no")] defaultOptions
              !! "listenTyping" = Some (JBool b).
Proof.
  apply (@setOptions_switches_are_boolean Example.env). simpl. tauto.
Defined.

(** ** What the login flow leaves alone *)

Section FrameLemmas.
Context `{Env}.
Context {B : Type} (f : World -> B).
Hypothesis Hjar : forall j w, f (withJar j w) = f w.
Hypothesis Hnet : forall n q w, f (withNetwork n q w) = f w.
Hypothesis Hbeh : forall b w, f (withBehaviorDetected b w) = f w.
Hypothesis Hfile : forall t w, f (withTokenFile t w) = f w.
Hypothesis Hin : forall l w, f (withStdin l w) = f w.

Lemma keeps_ret {A} (a : A) : keeps f (ret a).
Proof. intros w r w' [= <- <-]. reflexivity. Qed.

Lemma keeps_reject {A} (e : exn) : keeps f (@reject _ A e).
Proof. intros w r w' [= <- <-]. reflexivity. Qed.

Lemma keeps_lift {A} (x : res A) : keeps f (lift x).
Proof. intros w r w' [= <- <-]. reflexivity. Qed.

Lemma keeps_bind {A C} (m : M A) (k : A -> M C) :
  keeps f m -> (forall a, keeps f (k a)) -> keeps f (bind m k).
Proof.
  intros Hm Hk w r w'. unfold bind.
  destruct (m w) as [[e|a] w1] eqn:E.
  - intros [= <- <-]. eapply Hm, E.
  - intros Hka. rewrite (Hk a _ _ _ Hka). eapply Hm, E.
Qed.

Lemma keeps_send (q : Request) : keeps f (send q).
Proof.
  intros w r w'. unfold send.
  destruct (network w) as [|[r0|m] rest]; intros [= <- <-]; apply Hnet.
Qed.

Lemma keeps_get (url : string) (noRef : bool) : keeps f (get url noRef).
Proof. apply keeps_send. Qed.

Lemma keeps_post (url : string) (form : Form) : keeps f (post url form).
Proof. apply keeps_send. Qed.

Lemma keeps_save (r0 : Response) : keeps f (thenSaveCookies r0).
Proof. intros w r w' [= <- <-]. apply Hjar. Qed.

Lemma keeps_optionSet (k : string) : keeps f (optionSet k).
Proof. intros w r w' [= <- <-]. reflexivity. Qed.

Lemma keeps_prompt : keeps f promptFor2FACode.
Proof.
  intros w r w'. unfold promptFor2FACode.
  destruct (stdin w); intros [= <- <-]; [reflexivity | apply Hin].
Qed.

Lemma keeps_updateDTSG (res0 : option Response) (appstate : list Cookie) (ID : JsVal) :
  keeps f (updateDTSG res0 appstate ID).
Proof.
  intros w r w'. unfold updateDTSG, updateDTSG_try.
  repeat case_match; intros [= <- <-]; simplify_eq; try reflexivity; apply Hfile.
Qed.

Ltac keeps_leaf :=
  first [ apply keeps_ret | apply keeps_reject | apply keeps_lift
        | apply keeps_get | apply keeps_post | apply keeps_save
        | apply keeps_optionSet ].

Ltac keeps_walk leaf :=
  repeat first
    [ leaf
    | keeps_leaf
    | apply keeps_bind; [|intros ?]
    | match goal with
      | |- keeps _ (if ?c then _ else _) => destruct c
      | |- keeps _ (match ?x with _ => _ end) => destruct x
      end ].

Lemma keeps_bypass (resp : Response) (appstate : list Cookie) (ID : JsVal) :
  keeps f (bypassAutoBehavior resp appstate ID).
Proof.
  intros w r w'. unfold bypassAutoBehavior.
  destruct (hrefIncludes resp checkpointPath && hrefIncludes resp "601051028565049");
    [|intros [= <- <-]; reflexivity].
  destruct (getFromBody _ _ _); [intros [= <- <-]; reflexivity|].
  destruct (getFromBody _ _ _); [intros [= <- <-]; reflexivity|].
  destruct (getFromBody _ _ _); [intros [= <- <-]; reflexivity|].
  intros Hrun. rewrite <- (Hbeh true w).
  match type of Hrun with
  | ?m _ = _ => assert (K : keeps f m) by keeps_walk fail; exact (K _ _ _ Hrun)
  end.
Qed.

Lemma keeps_redirect (res0 : Response) (fastSwitch : bool) :
  keeps f (redirect res0 fastSwitch).
Proof. unfold redirect. keeps_walk fail. Qed.

Lemma keeps_checkAndFixErr (res0 : Response) (fastSwitch : bool) :
  keeps f (checkAndFixErr res0 fastSwitch).
Proof. unfold checkAndFixErr. keeps_walk fail. Qed.

Lemma keeps_setJar {A} (g : World -> res Jar) (a : A) :
  keeps f (fun w => match g w with
                    | inr j => (Ok a, withJar j w)
                    | inl e => (Throw e, w)
                    end).
Proof. intros w r w'. destruct (g w); intros [= <- <-]; [reflexivity | apply Hjar]. Qed.

Lemma keeps_setJsCookies (vals : list string) : keeps f (setJsCookies vals).
Proof.
  induction vals as [|val rest IH]; cbn [setJsCookies]; [apply keeps_ret|].
  apply keeps_bind; [apply keeps_lift|intros inner].
  apply keeps_bind; [apply keeps_lift|intros str].
  apply keeps_bind; [|intros _; exact IH].
  apply (keeps_setJar (fun w => setCookie (jar w) str "https://www.facebook.com") tt).
Qed.

Lemma keeps_clock : keeps f (fun w => (Ok (clockMs w), w)).
Proof. intros w r w' [= <- <-]. reflexivity. Qed.

Lemma keeps_submitLogin (email password : string) (res0 : Response) :
  keeps f (submitLogin email password res0).
Proof.
  unfold submitLogin.
  keeps_walk ltac:(first [apply keeps_setJsCookies | apply keeps_clock]).
Qed.

Lemma keeps_submit2FACode (code2fa : string) (form : Form) :
  keeps f (submit2FACode code2fa form).
Proof. unfold submit2FACode. keeps_walk fail. Qed.

Lemma keeps_handle2FA (location : string) (form : Form) :
  keeps f (handle2FA location form).
Proof.
  unfold handle2FA.
  keeps_walk ltac:(first [apply keeps_prompt | apply keeps_submit2FACode]).
Qed.

Lemma keeps_afterSubmit (form : Form) (resData : Response) :
  keeps f (afterSubmit form resData).
Proof. unfold afterSubmit. keeps_walk ltac:(apply keeps_handle2FA). Qed.

Lemma keeps_makeLogin (email password : string) (res0 : Response) :
  keeps f (makeLogin email password res0).
Proof.
  unfold makeLogin.
  keeps_walk ltac:(first [apply keeps_submitLogin | apply keeps_afterSubmit]).
Qed.

Lemma keeps_firstStep (credentials : Credentials) : keeps f (firstStep credentials).
Proof.
  unfold firstStep.
  destruct (credAppState credentials) as [[|c cs]|];
    keeps_walk ltac:(first
      [ apply keeps_makeLogin
      | apply (keeps_setJar (fun w => injectCookies (c :: cs) (jar w)) tt) ]).
Qed.

(** The first step of a stored session needs no terminal. *)
Lemma keeps_firstStep_session (credentials : Credentials) (c : Cookie) (cs : list Cookie) :
  credAppState credentials = Some (c :: cs) -> keeps f (firstStep credentials).
Proof.
  intros Hc. unfold firstStep. rewrite Hc.
  keeps_walk ltac:(apply (keeps_setJar (fun w => injectCookies (c :: cs) (jar w)) tt)).
Qed.

Lemma keeps_buildAPI (b : option string) :
  keeps f (fun w => (buildAPI b (jar w) (globalOptions w), w)).
Proof. intros w r w' [= <- <-]. reflexivity. Qed.

Lemma keeps_pageChain (pageID : JsVal) : keeps f (pageChain pageID).
Proof. unfold pageChain. keeps_walk fail. Qed.

Lemma keeps_chain_tail :
  keeps f
    (res6 <- get "https://www.facebook.com/home.php" false ;;
     auto2 <- optionSet "OnAutoLoginProcess" ;;
     res7 <- redirect res6 auto2 ;;
     auto3 <- optionSet "OnAutoLoginProcess" ;;
     res8 <- checkAndFixErr res7 auto3 ;;
     api <- (fun w => (buildAPI (body res8) (jar w) (globalOptions w), w)) ;;
     ret (res8, api)).
Proof.
  keeps_walk ltac:(first [ apply keeps_redirect | apply keeps_checkAndFixErr
                         | apply keeps_buildAPI ]).
Qed.

Lemma keeps_mainChain_with (credentials : Credentials) :
  keeps f (firstStep credentials) -> keeps f (mainChain credentials).
Proof.
  intros Hfirst. unfold mainChain.
  apply keeps_bind; [exact Hfirst|intros res0].
  apply keeps_bind; [apply keeps_redirect|intros res1].
  apply keeps_bind; [apply keeps_checkAndFixErr|intros res2].
  apply keeps_bind; [apply keeps_optionSet|intros auto1].
  apply keeps_bind; [keeps_walk fail|intros res3].
  apply keeps_bind; [apply keeps_bypass|intros res4].
  apply keeps_bind; [apply keeps_updateDTSG|intros _].
  apply keeps_chain_tail.
Qed.

Lemma keeps_loginHelper_with (credentials : Credentials) (w : World) :
  keeps f (mainChain credentials) ->
  f (snd (loginHelper credentials w)) = f w.
Proof.
  intros Hchain. unfold loginHelper.
  assert (Hmain : keeps f (mainPromise credentials)).
  { intros w0 r w'. unfold mainPromise.
    apply keeps_bind; [exact Hchain|intros ra].
    keeps_walk ltac:(apply keeps_pageChain).
    intros w1 r1 w1' [= <- <-]. reflexivity. }
  destruct (mainPromise credentials (withJar getJar w)) as [[e|[res0 api]] w'] eqn:E;
    cbn [snd]; rewrite (Hmain _ _ _ E); apply Hjar.
Qed.

End FrameLemmas.

Section Frame.
Context `{Env}.

(** X4: a call of [login] leaves [state.globalOptions] equal to the
    defaults with the caller's options applied, whatever they held before
    and however the attempt ends: no step of the flow writes an option. *)
Theorem login_installs_options (now : nat -> Z) (loginData : LoginData)
    (options : list (string * JsVal)) (w : World) :
  globalOptions (snd (login now loginData options w))
  = setOptions options defaultOptions.
Proof.
  unfold login. destruct (normalizeLoginCredentials now loginData) as [e|credentials];
    [reflexivity|].
  rewrite (keeps_loginHelper_with globalOptions); try reflexivity.
  apply keeps_mainChain_with; try (intros; reflexivity).
  apply keeps_firstStep; intros; reflexivity.
Qed.

(** X5: a login from a stored session never reads the terminal: the
    lines waiting there are the same after [loginHelper], however the
    attempt ends. *)
Theorem session_login_never_prompts (credentials : Credentials) (c : Cookie)
    (cs : list Cookie) (w : World) :
  credAppState credentials = Some (c :: cs) ->
  stdin (snd (loginHelper credentials w)) = stdin w.
Proof.
  intros Hc.
  rewrite (keeps_loginHelper_with stdin); try reflexivity.
  apply keeps_mainChain_with; try (intros; reflexivity).
  eapply keeps_firstStep_session; [intros; reflexivity .. | exact Hc].
Qed.

End Frame.

(** X5 at work on the stored session of the examples. *)
Lemma session_login_never_prompts_witness :
  stdin (snd (@loginHelper Example.env Example.session
                (@withStdin Example.env ["123456"]
                   (Example.world [Reply Example.homePage; Reply Example.lockedPage]))))
  = ["123456"].
Proof.
  exact (@session_login_never_prompts Example.env Example.session _ _
           (@withStdin Example.env ["123456"]
              (Example.world [Reply Example.homePage; Reply Example.lockedPage]))
           eq_refl).
Defined.

Section TokenFileFrame.
Context `{Env}.

Lemma writes_keep_left {A C} (m : M A) (k : A -> M C) :
  keeps tokenFile m -> (forall a, writesAtMostOne (k a)) -> writesAtMostOne (bind m k).
Proof.
  intros Hm Hk w r w'. unfold bind.
  destruct (m w) as [[e|a] w1] eqn:E.
  - intros [= <- <-]. left. eapply Hm, E.
  - intros Hka. rewrite <- (Hm _ _ _ E). eapply Hk, Hka.
Qed.

Lemma writes_keep_right {A C} (m : M A) (k : A -> M C) :
  writesAtMostOne m -> (forall a, keeps tokenFile (k a)) -> writesAtMostOne (bind m k).
Proof.
  intros Hm Hk w r w'. unfold bind.
  destruct (m w) as [[e|a] w1] eqn:E.
  - intros [= <- <-]. eapply Hm, E.
  - intros Hka. rewrite (Hk a _ _ _ Hka). eapply Hm, E.
Qed.

Lemma writes_updateDTSG (res0 : option Response) (appstate : list Cookie) (ID : JsVal) :
  writesAtMostOne (updateDTSG res0 appstate ID).
Proof.
  intros w r w'. unfold updateDTSG, updateDTSG_try, wroteAtMostOne.
  destruct (res0 ≫= body) as [b|]; [|intros [= <- <-]; now left].
  destruct (negb (Js.nonEmpty b)); [intros [= <- <-]; now left|].
  destruct (getFrom b dtsgStart dtsgEnd) as [e|tok]; [intros [= <- <-]; now left|].
  destruct (getFrom b jazoestStart jazoestEnd) as [e|jaz]; [intros [= <- <-]; now left|].
  destruct (Js.nonEmpty tok && Js.nonEmpty jaz); [|intros [= <- <-]; now left].
  destruct (tokenFile w) as [|d|] eqn:Hf;
    try (destruct (diskWritable w); intros [= <- <-]; [right|now left];
         (split; [discriminate|]); cbn [tokenFile withTokenFile dataOf];
         match goal with
         | |- context [putTokens ?U ?t ?d0] =>
             destruct (putTokens_cases U t d0) as [-> | (_ & Hnone & ->)];
               [left; eexists _, _; reflexivity | right; split; [exact Hnone | reflexivity]]
         end).
  intros [= <- <-]. now left.
Qed.

(** X6: one run of [loginHelper] leaves the token file as it was, or, if
    the file could be read (or did not exist), as the map it held with one
    entry put, or, if that map had no [__proto__] entry, as that map
    written back without change (into a new file when there was none); a
    file that cannot be parsed is never overwritten. *)
Theorem login_writes_at_most_one_entry (credentials : Credentials) (w : World) :
  wroteAtMostOne (tokenFile w) (tokenFile (snd (loginHelper credentials w))) /\
  (tokenFile w = FileCorrupt ->
   tokenFile (snd (loginHelper credentials w)) = FileCorrupt).
Proof.
  assert (Hchain : writesAtMostOne (mainChain credentials)).
  { unfold mainChain.
    apply writes_keep_left;
      [apply keeps_firstStep; intros; reflexivity|intros res0].
    apply writes_keep_left;
      [apply keeps_redirect; intros; reflexivity|intros res1].
    apply writes_keep_left;
      [apply keeps_checkAndFixErr; intros; reflexivity|intros res2].
    apply writes_keep_left; [apply keeps_optionSet|intros auto1].
    apply writes_keep_left; [|intros res3].
    { destruct auto1; [apply keeps_ret|].
      destruct (negb _); [apply keeps_get; intros; reflexivity | apply keeps_ret]. }
    apply writes_keep_left;
      [apply keeps_bypass; intros; reflexivity|intros res4].
    apply writes_keep_right; [apply writes_updateDTSG|intros _].
    apply keeps_chain_tail; intros; reflexivity. }
  assert (Hmain : writesAtMostOne (mainPromise credentials)).
  { intros w0 r w'. unfold mainPromise.
    apply writes_keep_right; [exact Hchain|intros ra].
    destruct (truthy _); [|apply keeps_ret].
    apply keeps_bind; [intros w1 r1 w1' [= <- <-]; reflexivity|intros pid].
    apply keeps_bind; [apply keeps_pageChain; intros; reflexivity|intros r0].
    apply keeps_ret. }
  assert (Hrun : wroteAtMostOne (tokenFile w) (tokenFile (snd (loginHelper credentials w)))).
  { unfold loginHelper.
    destruct (mainPromise credentials (withJar getJar w)) as [[e|[res0 api]] w'] eqn:E;
      cbn [snd]; exact (Hmain _ _ _ E). }
  split; [exact Hrun|].
  intros Hc. destruct Hrun as [-> | [Hne _]]; [exact Hc | contradiction].
Qed.

End TokenFileFrame.

(** ** Saving the tokens, the bypass and the lock *)

Section TokensAndChecks.
Context `{Env}.

(** X7: [updateDTSG] never returns [null]. When it returns, it returns
    the response it was given, whose body is not empty; when anything in
    its [try] block fails it throws a [ReferenceError] from its [catch]
    block and leaves the world as it was; it fails in particular for a
    missing response and for a missing or empty body. *)
Theorem updateDTSG_returns_or_throws (res0 : option Response)
    (appstate : list Cookie) (ID : JsVal) (w : World) :
  (forall r w', updateDTSG res0 appstate ID w = (Ok r, w') ->
     r = res0 /\ exists b, res0 ≫= body = Some b /\ b <> EmptyString) /\
  (forall e w', updateDTSG res0 appstate ID w = (Throw e, w') ->
     e = External "ReferenceError: UID is not defined" /\ w' = w) /\
  (res0 ≫= body = None \/ res0 ≫= body = Some EmptyString ->
   updateDTSG res0 appstate ID w
   = (Throw (External "ReferenceError: UID is not defined"), w)).
Proof.
  unfold updateDTSG, updateDTSG_try, Ok, Throw.
  destruct (res0 ≫= body) as [[|c b']|] eqn:Hb.
  - split; [|split].
    + intros r w' Hrun. discriminate Hrun.
    + intros e w' [= <- <-]. split; reflexivity.
    + intros _. reflexivity.
  - cbn [Js.nonEmpty negb]. split; [|split].
    + intros r w'. repeat case_match; simplify_eq; intros Hrun; simplify_eq;
        (split; [reflexivity|]); eexists; (split; [reflexivity | discriminate]).
    + intros e w'. repeat case_match; simplify_eq; intros Hrun; simplify_eq;
        split; reflexivity.
    + intros [E | E]; discriminate E.
  - split; [|split].
    + intros r w' Hrun. discriminate Hrun.
    + intros e w' [= <- <-]. split; reflexivity.
    + intros _. reflexivity.
Qed.

(** X8: on a page of the automation checkpoint whose three tokens can
    be extracted, [bypassAutoBehavior] raises [state.behaviorDetected],
    sends exactly one request, the POST of the acknowledgement with the
    user id and the tokens, saves the cookies of the answer and returns
    it; when a token cannot be extracted it returns [undefined] and does
    none of this. *)
Theorem bypassAutoBehavior_fires (resp : Response) (appstate : list Cookie)
    (ID : JsVal) (w : World) :
  hrefIncludes resp checkpointPath = true ->
  hrefIncludes resp "601051028565049" = true ->
  (forall tok jaz lsd r rest,
     getFromBody (body resp) dtsgStart dtsgEnd = Ok tok ->
     getFromBody (body resp) jazoestStart jazoestEnd = Ok jaz ->
     getFromBody (body resp) lsdStart (Js.DQ ++ "}") = Ok lsd ->
     network w = Reply r :: rest ->
     exists form : Form,
       bypassAutoBehavior resp appstate ID w
       = (Ok (Some r),
          withJar (saveCookies (jar w) r)
            (withNetwork rest (Post "https://www.facebook.com/api/graphql/" form :: requests w)
               (withBehaviorDetected true w))) /\
       form !! "av" = Some (resolveUID (jar w) appstate ID) /\
       form !! "fb_dtsg" = Some (JStr tok) /\
       form !! "jazoest" = Some (JStr jaz) /\
       form !! "lsd" = Some (JStr lsd) /\
       form !! "doc_id" = Some (JStr "6339492849481770")) /\
  ((exists e, getFromBody (body resp) dtsgStart dtsgEnd = Throw e) \/
   (exists e, getFromBody (body resp) jazoestStart jazoestEnd = Throw e) \/
   (exists e, getFromBody (body resp) lsdStart (Js.DQ ++ "}") = Throw e) ->
   bypassAutoBehavior resp appstate ID w = (Ok None, w)).
Proof.
  intros Hpath Hid. unfold bypassAutoBehavior. rewrite Hpath, Hid. cbn [andb].
  split.
  - intros tok jaz lsd r rest -> -> -> Hnet.
    eexists. split; [|repeat split].
    + unfold Ok, bind, post, send, thenSaveCookies, ret. cbn [network withBehaviorDetected].
      rewrite Hnet. reflexivity.
    + reflexivity.
    + reflexivity.
    + reflexivity.
    + reflexivity.
    + reflexivity.
  - unfold Throw.
    intros [[e ->] | [[e He] | [e He]]]; [reflexivity| |].
    + destruct (getFromBody (body resp) dtsgStart dtsgEnd); [reflexivity|].
      rewrite He. reflexivity.
    + destruct (getFromBody (body resp) dtsgStart dtsgEnd); [reflexivity|].
      destruct (getFromBody (body resp) jazoestStart jazoestEnd); [reflexivity|].
      rewrite He. reflexivity.
Qed.

End TokensAndChecks.

(** X8 at work on a page of the automation checkpoint. *)
Lemma bypassAutoBehavior_fires_witness :
  exists form : Form,
    @bypassAutoBehavior Example.env Example2.automationPage
      [Example.cookie "c_user" "100001"] JUndefined
      (Example.world [Reply Example.homePage])
    = (Ok (Some Example.homePage),
       @withJar Example.env (@saveCookies Example.env
                               (@jar Example.env (Example.world [Reply Example.homePage]))
                               Example.homePage)
         (@withNetwork Example.env []
            [Post "https://www.facebook.com/api/graphql/" form]
            (@withBehaviorDetected Example.env true
               (Example.world [Reply Example.homePage])))) /\
    form !! "av" = Some (JStr "100001") /\
    form !! "fb_dtsg" = Some (JStr "TOKEN") /\
    form !! "jazoest" = Some (JStr "25512") /\
    form !! "lsd" = Some (JStr "LSD1") /\
    form !! "doc_id" = Some (JStr "6339492849481770").
Proof.
  exact (proj1 (@bypassAutoBehavior_fires Example.env Example2.automationPage
                  [Example.cookie "c_user" "100001"] JUndefined
                  (Example.world [Reply Example.homePage]) eq_refl eq_refl)
           "TOKEN" "25512" "LSD1" Example.homePage [] eq_refl eq_refl eq_refl eq_refl).
Defined.

Lemma exec_absent (lit : string) (R : Re.regex) (b : string) :
  Js.includes lit b = false -> Re.exec (Re.Seq (Re.Lit lit) R) b = None.
Proof.
  induction b as [|c b IH]; cbn [Js.includes Re.exec Re.matchAt].
  - destruct (Js.startsWith lit EmptyString); [discriminate | reflexivity].
  - destruct (Js.startsWith lit (String c b)); [discriminate | exact IH].
Qed.

(** X9: on a response whose URL carries the checkpoint path and the
    identifier of the lock, [checkIfLocked] reports the lock whatever the
    body says; the reason is the title that follows the first marker of
    the notice when that title is plain, non-empty text, and is missing
    when the body has no marker; a response without body is not reported
    as locked at all. *)
Theorem checkIfLocked_reports (resp : Response) :
  hrefIncludes resp checkpointPath = true ->
  hrefIncludes resp "828281030927956" = true ->
  let marker :=
    Js.quoted "is_unvetted_flow" ++ ":true," ++ Js.quoted "title" ++ ":" ++ Js.DQ in
  (body resp = None -> checkIfLocked resp = None) /\
  (forall b, body resp = Some b ->
     (exists r, checkIfLocked resp = Some r) /\
     (forall pre title rest,
        Js.firstAt marker b = Some (pre, title ++ Js.DQ ++ rest) ->
        Re.plain title = true -> title <> EmptyString ->
        checkIfLocked resp = Some {| reason := Some title |}) /\
     (Js.includes marker b = false ->
      checkIfLocked resp = Some {| reason := None |})).
Proof.
  intros Hpath Hid marker. unfold checkIfLocked. rewrite Hpath, Hid. cbn [andb].
  split; [intros ->; reflexivity|].
  intros b ->. split; [eexists; reflexivity|]. split.
  - intros pre title rest Hf Hplain Hne.
    destruct (exec_one_group _ _ _ _ _ Hf Hplain) as (whole & Hexec).
    fold lockDescRe in Hexec. unfold lockDescRe in *. fold marker. rewrite Hexec.
    unfold truthyGroup, Re.group. cbn [nth].
    destruct title; [congruence | reflexivity].
  - intros Hno. unfold lockDescRe. fold marker. rewrite (exec_absent _ _ _ Hno).
    reflexivity.
Qed.

(** X9 at work on the notice of a lock. *)
Lemma checkIfLocked_reports_witness :
  checkIfLocked Example.lockedPage
  = Some {| reason := Some "Your account has been locked" |}.
Proof.
  refine (proj1 (proj2 (proj2 (checkIfLocked_reports Example.lockedPage eq_refl eq_refl)
                          _ eq_refl))
            "{" "Your account has been locked" "}" eq_refl eq_refl _).
  discriminate.
Defined.

(** ** The stored session read back from the handle *)

Lemma findIndex_at {A} (p : A -> bool) (pre : list A) (x : A) (r : list A) :
  findIndex p (pre ++ x :: r) = Some (List.length pre) <->
  p x = true /\ forall y, In y pre -> p y = false.
Proof.
  induction pre as [|a pre IH]; cbn [findIndex List.length app].
  - destruct (p x) eqn:Hx.
    + split; [intros _; split; [reflexivity | intros y []] | reflexivity].
    + split; [|intros [E _]; discriminate E].
      destruct (findIndex p r); discriminate.
  - destruct (p a) eqn:Ha.
    + split; [discriminate|]. intros [_ Hall].
      rewrite (Hall a) in Ha by now left. discriminate.
    + assert (Hs : forall (o : option nat) n, S <$> o = Some (S n) <-> o = Some n)
        by (intros [i|] n; simpl; split; congruence).
      rewrite Hs, IH. split; intros [Hx Hall]; (split; [exact Hx|]).
      * intros y [<- | Hy]; [exact Ha | now apply Hall].
      * intros y Hy. apply Hall. now right.
Qed.

Lemma filterIndexed_sublist {A} (p : A -> nat -> bool) (l : list A) :
  forall i, sublist (filterIndexed p i l) l.
Proof.
  induction l as [|x l IH]; intros i; cbn [filterIndexed]; [constructor|].
  destruct (p x i); [apply sublist_skip | apply sublist_cons]; apply IH.
Qed.

(** The entries kept from [suf], when [pre ++ suf] is the whole list:
    their keys are distinct and new with respect to [pre], each is the
    first entry of the whole list with its key, and no key of [suf] that
    is new with respect to [pre] is lost. *)
Lemma uniqueByKey_from (whole : list Cookie) :
  forall suf pre, whole = (pre ++ suf)%list ->
  let kept :=
    filterIndexed
      (fun item index =>
         bool_decide (findIndex (fun t => String.eqb (key t) (key item)) whole
                      = Some index))
      (List.length pre) suf in
  NoDup (map key kept) /\
  (forall y, In y kept -> ~ In (key y) (map key pre)) /\
  (forall y, In y kept ->
     List.find (fun t => String.eqb (key t) (key y)) whole = Some y) /\
  (forall x, In x suf -> ~ In (key x) (map key pre) ->
     exists y, In y kept /\ key y = key x).
Proof.
  induction suf as [|x suf IH]; intros pre Hwhole; cbn [filterIndexed].
  - repeat split; [constructor | intros y [] | intros y [] | intros x []].
  - assert (Hwhole' : whole = ((pre ++ [x]) ++ suf)%list)
      by (rewrite <- app_assoc; exact Hwhole).
    specialize (IH (pre ++ [x])%list Hwhole').
    rewrite List.length_app in IH. cbn [List.length] in IH.
    rewrite Nat.add_1_r in IH. cbv zeta in IH.
    destruct IH as (IHnd & IHnew & IHfirst & IHcover).
    set (kept' := filterIndexed _ (S (List.length pre)) suf) in *.
    assert (Hnew' : forall y, In y kept' ->
              key y <> key x /\ ~ In (key y) (map key pre)).
    { intros y Hy. specialize (IHnew y Hy). rewrite map_app, in_app_iff in IHnew.
      split; [intros E; apply IHnew; right; left; now rewrite E|tauto]. }
    destruct (bool_decide _) eqn:Hd.
    + apply bool_decide_eq_true in Hd. rewrite Hwhole in Hd.
      apply findIndex_at in Hd as [_ Hpre].
      assert (Hxnew : ~ In (key x) (map key pre)).
      { intros Hin. apply in_map_iff in Hin as (y & Hk & Hy).
        specialize (Hpre y Hy). rewrite Hk, String.eqb_refl in Hpre. discriminate. }
      repeat split.
      * cbn [map]. constructor; [|exact IHnd].
        rewrite list_elem_of_In. intros Hin. apply in_map_iff in Hin as (y & Hk & Hy).
        destruct (Hnew' y Hy) as [Hne _]. now apply Hne.
      * intros y [<- | Hy]; [exact Hxnew | exact (proj2 (Hnew' y Hy))].
      * intros y [<- | Hy]; [|now apply IHfirst].
        rewrite Hwhole. clear -Hpre.
        induction pre as [|a pre IHp]; cbn [app List.find].
        -- now rewrite String.eqb_refl.
        -- rewrite (Hpre a) by now left. apply IHp. intros y Hy. apply Hpre. now right.
      * intros x' [<- | Hx'] Hnewx.
        -- exists x. split; [now left | reflexivity].
        -- destruct (String.eqb (key x') (key x)) eqn:E.
           ++ apply eqb_true in E. exists x. split; [now left | now rewrite E].
           ++ destruct (IHcover x' Hx') as (y & Hy & Hk).
              { rewrite map_app, in_app_iff. intros [Hin | [Hin | []]]; [tauto|].
                rewrite Hin, String.eqb_refl in E. discriminate. }
              exists y. split; [now right | exact Hk].
    + apply bool_decide_eq_false in Hd.
      assert (Hxold : In (key x) (map key pre)).
      { destruct (in_dec string_dec (key x) (map key pre)) as [Hin|Hnot]; [exact Hin|].
        exfalso. apply Hd. rewrite Hwhole. apply findIndex_at.
        split; [apply String.eqb_refl|].
        intros y Hy. destruct (String.eqb (key y) (key x)) eqn:E; [|reflexivity].
        apply eqb_true in E. exfalso. apply Hnot. rewrite <- E. now apply in_map. }
      repeat split.
      * exact IHnd.
      * intros y Hy. exact (proj2 (Hnew' y Hy)).
      * exact IHfirst.
      * intros x' [<- | Hx'] Hnewx; [contradiction|].
        apply IHcover; [exact Hx'|].
        rewrite map_app, in_app_iff. intros [Hin | [Hin | []]]; [tauto|].
        apply Hnewx. now rewrite <- Hin.
Qed.

Lemma uniqueByKey_spec (appState : list Cookie) :
  NoDup (map key (uniqueByKey appState)) /\
  sublist (uniqueByKey appState) appState /\
  (forall y, In y (uniqueByKey appState) ->
     List.find (fun t => String.eqb (key t) (key y)) appState = Some y) /\
  (forall x, In x appState -> exists y, In y (uniqueByKey appState) /\ key y = key x).
Proof.
  destruct (uniqueByKey_from appState appState [] eq_refl) as (Hnd & _ & Hfirst & Hcover).
  split; [exact Hnd|]. split; [apply filterIndexed_sublist|]. split; [exact Hfirst|].
  intros x Hx. apply Hcover; [exact Hx | intros []].
Qed.

Lemma filter_sublist {A} (q : A -> bool) (l : list A) : sublist (List.filter q l) l.
Proof.
  induction l as [|x l IH]; cbn [List.filter]; [constructor|].
  destruct (q x); [apply sublist_skip | apply sublist_cons]; exact IH.
Qed.

Lemma filter_keys_NoDup (q : Cookie -> bool) (l : list Cookie) :
  NoDup (map key l) -> NoDup (map key (List.filter q l)).
Proof.
  induction l as [|x l IH]; cbn [List.filter map]; [auto|].
  intros Hnd. apply NoDup_cons in Hnd as [Hx Hl].
  destruct (q x); [|auto]. cbn [map]. apply NoDup_cons. split; [|auto].
  rewrite list_elem_of_In in *. intros Hin. apply Hx.
  apply in_map_iff in Hin as (y & Hk & Hy). apply filter_In in Hy as [Hy _].
  rewrite <- Hk. now apply in_map.
Qed.

Section HandleAppStateProperties.
Context `{Env}.

(** X10: the array that the handle's [getAppState] returns has no two
    cookies with the same key; it is a selection, in order, of the
    normalised cookies of the jar; the cookie it keeps for a key is the
    first of the jar with that key; it has no [c_user] cookie when the jar
    has an [i_user] cookie; and it loses no other key. *)
Theorem apiGetAppState_deduplicates (now : nat -> Z) (j : Jar) (result : list Cookie) :
  apiGetAppState now j = Ok result ->
  exists appState,
    normalizeAppState now (ASArray (getAppState j)) = Ok appState /\
    NoDup (map key result) /\
    sublist result appState /\
    (forall y, In y result ->
       List.find (fun t => String.eqb (key t) (key y)) appState = Some y) /\
    ((exists c, In c appState /\ key c = "i_user") ->
     forall y, In y result -> key y <> "c_user") /\
    (forall x, In x appState ->
       (key x = "c_user" -> forall c, In c appState -> key c <> "i_user") ->
       exists y, In y result /\ key y = key x).
Proof.
  unfold apiGetAppState. intros Hrun.
  destruct (normalizeAppState now (ASArray (getAppState j))) as [e|appState] eqn:Hn;
    [discriminate|].
  exists appState. split; [reflexivity|].
  destruct (uniqueByKey_spec appState) as (Hnd & Hsub & Hfirst & Hcover).
  assert (Hfall : match uniqueByKey appState with
                  | [] => appState
                  | _ => uniqueByKey appState
                  end = uniqueByKey appState).
  { destruct (uniqueByKey appState) eqn:Hu; [|reflexivity].
    destruct appState as [|x rest]; [reflexivity|].
    destruct (Hcover x (or_introl eq_refl)) as (y & [] & _). }
  cbn [bindRes] in Hrun. rewrite Hfall in Hrun.
  set (secondary := List.find (fun val => String.eqb (key val) "i_user")
                      (uniqueByKey appState)) in Hrun.
  injection Hrun as <-.
  split; [apply filter_keys_NoDup, Hnd|].
  split; [etransitivity; [apply filter_sublist | exact Hsub]|].
  split; [intros y Hy; apply filter_In in Hy as [Hy _]; now apply Hfirst|].
  split.
  - intros (c & Hc & Hk) y Hy. apply filter_In in Hy as [_ Hq].
    destruct (Hcover c Hc) as (c' & Hc' & Hk').
    destruct secondary as [s|] eqn:Hs.
    + intros E. rewrite E in Hq. discriminate Hq.
    + exfalso. unfold secondary in Hs.
      apply (find_none _ _ Hs) in Hc'. rewrite Hk', Hk in Hc'. discriminate Hc'.
  - intros x Hx Hprim. destruct (Hcover x Hx) as (y & Hy & Hk).
    exists y. split; [|exact Hk]. apply filter_In. split; [exact Hy|].
    destruct secondary as [s|] eqn:Hs.
    + unfold secondary in Hs. apply find_some in Hs as [Hs Hsk].
      apply eqb_true in Hsk.
      destruct (String.eqb (key y) "c_user") eqn:E; [|reflexivity].
      apply eqb_true in E. exfalso.
      apply (Hprim ltac:(congruence) s); [|exact Hsk].
      rewrite <- list_elem_of_In. apply (sublist_subseteq _ _ Hsub).
      now rewrite list_elem_of_In.
    + destruct (String.eqb (key y) "i_user") eqn:E; [|reflexivity].
      unfold secondary in Hs. apply (find_none _ _ Hs) in Hy. congruence.
Qed.

End HandleAppStateProperties.

(** X10 at work: a jar that saw [xs] twice and holds both profiles. *)
Lemma apiGetAppState_deduplicates_witness :
  @apiGetAppState Example.env (fun _ => 0%Z)
    [Example.rawCookie "c_user" "1"; Example.rawCookie "xs" "old";
     Example.rawCookie "i_user" "2"; Example.rawCookie "xs" "new"]
  = Ok [{| key := "xs"; value := "old"; domain := JStr ".facebook.com";
           path := JStr "/"; expires := JNum 31536000000 |};
        {| key := "i_user"; value := "2"; domain := JStr ".facebook.com";
           path := JStr "/"; expires := JNum 31536000000 |}]
  /\ NoDup ["xs"; "i_user"].
Proof.
  split; [reflexivity|].
  destruct (@apiGetAppState_deduplicates Example.env (fun _ => 0%Z)
              [Example.rawCookie "c_user" "1"; Example.rawCookie "xs" "old";
               Example.rawCookie "i_user" "2"; Example.rawCookie "xs" "new"]
              _ eq_refl) as (appState & _ & Hnd & _).
  exact Hnd.
Defined.

(** ** Submission of the credentials and the second factor *)

Section Submission.
Context `{Env}.

(** X11: when the answer to the submission redirects to the checkpoint
    and the page of the checkpoint asks for a code, the flow reads one
    line from the terminal, posts it as [approvals_code] with the
    [Continue] action, then posts the form again without the code and
    without [no_fido], choosing [save_device]. If the second answer still
    shows the checkpoint the flow fails with [Failed to verify 2FA code.]
    after these three requests; otherwise it fetches the root page and
    resolves to it. *)
Theorem two_factor_flow (form : Form) (resData : Response) (w : World)
    (location html code2fa : string) (more : list string)
    (page r1 r2 : Response) (rest : list NetReply) :
  headerLocation resData = Some location ->
  Js.includes checkpointPath location = true ->
  network w = Reply page :: Reply r1 :: Reply r2 :: rest ->
  body page = Some html ->
  Js.includes "checkpoint/?next" html = true ->
  stdin w = code2fa :: more ->
  exists form1 form2 : Form,
    form1 !! "approvals_code" = Some (JStr code2fa) /\
    form1 !! "submit[Continue]" = Some (JStr "Continue") /\
    form2 !! "approvals_code" = None /\
    form2 !! "no_fido" = None /\
    form2 !! "name_action_selected" = Some (JStr "save_device") /\
    (stillAtCheckpoint r2 = true ->
     exists w',
       afterSubmit form resData w = (Throw (Error "Failed to verify 2FA code."), w') /\
       requests w' = ([Post nextURL form2; Post nextURL form1; Get location false]
                      ++ requests w)%list /\
       stdin w' = more /\ network w' = rest) /\
    (stillAtCheckpoint r2 = false ->
     forall r3 rest', rest = Reply r3 :: rest' ->
     exists w',
       afterSubmit form resData w = (Ok r3, w') /\
       requests w' = ([Get rootURL false; Post nextURL form2; Post nextURL form1;
                       Get location false] ++ requests w)%list /\
       stdin w' = more /\ network w' = rest').
Proof.
  intros Hloc Hcp Hnet Hbody Hask Hin.
  assert (Hne : Js.nonEmpty location = true).
  { destruct location; [discriminate Hcp | reflexivity]. }
  eexists _, _. split; [|split; [|split; [|split; [|split; [|split]]]]].
  6:{ intros Hstill. eexists. split.
      - unfold afterSubmit. rewrite Hloc, Hne, Hcp. cbn [negb].
        unfold handle2FA, bind, get, send, thenSaveCookies, Ok, Throw. rewrite Hnet.
        cbn [body withJar withNetwork]. rewrite Hbody, Hask.
        unfold promptFor2FACode. cbn [stdin withJar withNetwork]. rewrite Hin.
        unfold submit2FACode, bind, post, send, thenSaveCookies, reject, Ok, Throw.
        cbn [network withStdin withJar withNetwork].
        unfold stillAtCheckpoint in Hstill. rewrite Hstill. reflexivity.
      - repeat split; reflexivity. }
  6:{ intros Hstill r3 rest' ->. eexists. split.
      - unfold afterSubmit. rewrite Hloc, Hne, Hcp. cbn [negb].
        unfold handle2FA, bind, get, send, thenSaveCookies, Ok, Throw. rewrite Hnet.
        cbn [body withJar withNetwork]. rewrite Hbody, Hask.
        unfold promptFor2FACode. cbn [stdin withJar withNetwork]. rewrite Hin.
        unfold submit2FACode, bind, post, get, send, thenSaveCookies, reject, Ok, Throw.
        cbn [network withStdin withJar withNetwork].
        unfold stillAtCheckpoint in Hstill. rewrite Hstill. reflexivity.
      - repeat split; reflexivity. }
  - rewrite lookup_insert_ne by discriminate. apply lookup_insert_eq.
  - apply lookup_insert_eq.
  - rewrite lookup_insert_ne by discriminate. apply lookup_delete_eq.
  - rewrite lookup_insert_ne by discriminate.
    rewrite lookup_delete_ne by discriminate. apply lookup_delete_eq.
  - apply lookup_insert_eq.
Qed.

(** X12: when the page of the checkpoint does not ask for a code, the
    flow resolves to that page after this single request and reads
    nothing from the terminal. *)
Theorem checkpoint_without_prompt (form : Form) (resData : Response) (w : World)
    (location html : string) (page : Response) (rest : list NetReply) :
  headerLocation resData = Some location ->
  Js.includes checkpointPath location = true ->
  network w = Reply page :: rest ->
  body page = Some html ->
  Js.includes "checkpoint/?next" html = false ->
  exists w',
    afterSubmit form resData w = (Ok page, w') /\
    requests w' = Get location false :: requests w /\
    stdin w' = stdin w /\ network w' = rest.
Proof.
  intros Hloc Hcp Hnet Hbody Hask.
  assert (Hne : Js.nonEmpty location = true).
  { destruct location; [discriminate Hcp | reflexivity]. }
  eexists. split.
  - unfold afterSubmit. rewrite Hloc, Hne, Hcp. cbn [negb].
    unfold handle2FA, bind, get, send, thenSaveCookies, Ok, Throw. rewrite Hnet.
    cbn [body withJar withNetwork]. rewrite Hbody, Hask. reflexivity.
  - repeat split; reflexivity.
Qed.

End Submission.

(** X11 at work: the code 123456 is accepted. *)
Lemma two_factor_flow_witness :
  exists w',
    @afterSubmit Example.env ∅ Example2.toCheckpoint
      (@withStdin Example.env ["123456"]
         (Example.world [Reply Example2.codePage; Reply Example2.cleared;
                         Reply Example2.cleared; Reply Example.homePage]))
    = (Ok Example.homePage, w') /\
    @stdin Example.env w' = [] /\ @network Example.env w' = [].
Proof.
  destruct (@two_factor_flow Example.env ∅ Example2.toCheckpoint
    (@withStdin Example.env ["123456"]
       (Example.world [Reply Example2.codePage; Reply Example2.cleared;
                       Reply Example2.cleared; Reply Example.homePage]))
    _ _ "123456" [] Example2.codePage Example2.cleared Example2.cleared
    [Reply Example.homePage] eq_refl eq_refl eq_refl eq_refl eq_refl eq_refl)
    as (f1 & f2 & _ & _ & _ & _ & _ & _ & Hok).
  destruct (Hok eq_refl Example.homePage [] eq_refl) as (w' & Hrun & _ & Hs & Hn).
  exists w'. repeat split; assumption.
Defined.

(** X12 at work: a checkpoint page that asks for nothing. *)
Lemma checkpoint_without_prompt_witness :
  exists w',
    @afterSubmit Example.env ∅ Example2.toCheckpoint
      (@withStdin Example.env ["123456"] (Example.world [Reply Example.homePage]))
    = (Ok Example.homePage, w') /\
    @stdin Example.env w' = ["123456"].
Proof.
  destruct (@checkpoint_without_prompt Example.env ∅ Example2.toCheckpoint
    (@withStdin Example.env ["123456"] (Example.world [Reply Example.homePage]))
    _ _ Example.homePage [] eq_refl eq_refl eq_refl eq_refl eq_refl)
    as (w' & Hrun & _ & Hs & _).
  exists w'. split; assumption.
Defined.

Section Submit.
Context `{Env}.

(** X13: when [makeLogin] gets an answer to its submission, the request
    it sent last is the POST of the form to the login address; the form
    holds the email and the password it was given, whatever inputs of
    those names the page had, with the fixed locale, time zone and
    persistence fields; and every input of the page that bears none of
    the eight names the function sets is posted as it was scraped. *)
Theorem submitLogin_posts_credentials (email password : string) (res0 : Response)
    (w w2 : World) (form : Form) (resData : Response) :
  Js.nonEmpty email = true -> Js.nonEmpty password = true ->
  submitLogin email password res0 w = (Ok (form, resData), w2) ->
  (exists earlier, requests w2 = Post loginURL form :: earlier) /\
  form !! "email" = Some (JStr email) /\
  form !! "pass" = Some (JStr password) /\
  form !! "default_persistent" = Some (JStr "1") /\
  form !! "locale" = Some (JStr "en_US") /\
  form !! "timezone" = Some (JStr "0") /\
  (forall k html, body res0 = Some html ->
     ~ In k ["lsd"; "lgndim"; "email"; "pass"; "default_persistent"; "locale";
             "timezone"; "lgnjs"] ->
     form !! k = scrapeForm "#login_form input" html !! k).
Proof.
  intros He Hp. unfold submitLogin. rewrite He, Hp.
  destruct (body res0) as [html|]; [|discriminate].
  unfold bind, lift, post, send, thenSaveCookies, ret, Ok.
  destruct (getFrom html lsdStart (Js.DQ ++ "]")) as [e|lsd]; [discriminate|].
  destruct (setJsCookies _ w) as [[e|[]] wc]; [discriminate|].
  destruct (network wc) as [|[r|m] rest]; try discriminate.
  intros [= <- <- <-].
  split; [eexists; reflexivity|].
  repeat split;
    try (rewrite ?lookup_insert_ne by discriminate; apply lookup_insert_eq).
  intros k html' [= <-] Hk.
  rewrite !lookup_insert_ne; [reflexivity|..]; intros <-; apply Hk; simpl; tauto.
Qed.

End Submit.

(** X13 at work: the page of the platform, then an answer to the
    submission. *)
Lemma submitLogin_posts_credentials_witness :
  exists form resData w2,
    @submitLogin Example.env "user@example.com" "secret" Example.homePage
      (Example.world [Reply Example2.toCheckpoint])
    = (Ok (form, resData), w2) /\
    form !! "email" = Some (JStr "user@example.com") /\
    form !! "pass" = Some (JStr "secret").
Proof.
  eexists _, _, _. split; [vm_compute; reflexivity|].
  pose proof (@submitLogin_posts_credentials Example.env "user@example.com" "secret"
                Example.homePage (Example.world [Reply Example2.toCheckpoint])
                _ _ _ eq_refl eq_refl eq_refl) as (_ & Hemail & Hpass & _).
  split; [exact Hemail | exact Hpass].
Defined.

(** ** The other copy of the module *)

Lemma find_agree {A} (p q : A -> bool) (l : list A) :
  (forall x, In x l -> p x = q x) -> List.find p l = List.find q l.
Proof.
  induction l as [|x l IH]; intros Hpq; cbn [List.find]; [reflexivity|].
  rewrite (Hpq x) by now left. destruct (q x); [reflexivity|].
  apply IH. intros y Hy. apply Hpq. now right.
Qed.

Lemma find_code_none (l : list Region) :
  (forall r, In r l -> code r <> EmptyString) ->
  List.find (fun r => String.eqb (code r) EmptyString) l = None.
Proof.
  induction l as [|x l IH]; intros Hl; cbn [List.find]; [reflexivity|].
  destruct (String.eqb (code x) EmptyString) eqn:E.
  - apply eqb_true in E. exfalso. now apply (Hl x (or_introl eq_refl)).
  - apply IH. intros r Hr. apply Hl. now right.
Qed.

Lemma other_validateRegion_eq (v : JsVal) :
  Other.validateRegion v
  = match validateRegion v with
    | inr r => Some r
    | inl _ => None
    end.
Proof.
  unfold Other.validateRegion, validateRegion, Ok, Throw.
  destruct v as [| |b|n|s]; try reflexivity.
  destruct (Js.nonEmpty s); cbn [negb orb]; [|reflexivity].
  assert (Hfind :
    (List.find (fun r0 => String.eqb (code r0) (Js.toUpperCase (Js.trim s))) defaultRegions)
    = (List.find (fun r0 => String.eqb (Js.toUpperCase (code r0)) (Js.toUpperCase (Js.trim s)))
         defaultRegions)).
  { apply find_agree. intros x Hx. now rewrite (codes_are_upper x Hx). }
  rewrite Hfind.
  destruct (Js.nonEmpty (Js.trim s)) eqn:Ht; cbn [negb].
  - destruct (List.find _ defaultRegions); reflexivity.
  - apply nonEmpty_false in Ht. rewrite Ht in *. rewrite <- Hfind.
    change (Js.toUpperCase EmptyString) with EmptyString.
    rewrite find_code_none; [reflexivity|].
    unfold defaultRegions; simpl.
    intros r0 Hr; repeat destruct Hr as [<- | Hr]; try discriminate; contradiction.
Qed.

Lemma other_validateRegion_ok (v : JsVal) (r : Region) :
  Other.validateRegion v = Some r -> validateRegion v = Ok r.
Proof.
  rewrite other_validateRegion_eq. unfold Ok.
  destruct (validateRegion v); [discriminate | congruence].
Qed.

(** X14: the two copies of [validateRegion] accept the same values and
    return the same region for them: where one returns a region the other
    does, and where one throws the other returns [null]. *)
Theorem validateRegion_copies_agree (v : JsVal) (r : Region) :
  Other.validateRegion v = Some r <-> validateRegion v = Ok r.
Proof.
  split; [apply other_validateRegion_ok|].
  intros Hv. rewrite other_validateRegion_eq, Hv. reflexivity.
Qed.

Section OtherCopy.
Context `{Env}.

(** X15: in the other copy, a handle that [buildAPI] builds always has a
    region of the catalog and the endpoint of that region and of its user
    id: the region is the override of [state.globalOptions] when that one
    validates, and else the region the random source draws. *)
Theorem other_buildAPI_region (html : option string) (j : Jar)
    (g : gmap string JsVal) (randomIndex : nat) (fallback : Region) (ctx : APIContext) :
  getRandomRegion randomIndex = Some fallback ->
  Other.buildAPI html j g randomIndex = Ok ctx ->
  exists c,
    region ctx = JStr c /\
    In c (map code defaultRegions) /\
    mqttEndpoint ctx
    = JStr ("wss://edge-chat.facebook.com/chat?region=" ++ c ++ "&sid="
            ++ toString (userID ctx)) /\
    loggedIn ctx = true /\
    (forall r, Other.validateRegion (getOpt g "bypassRegion") = Some r -> c = code r) /\
    (Other.validateRegion (getOpt g "bypassRegion") = None -> c = code fallback).
Proof.
  intros Hrand. unfold Other.buildAPI.
  destruct (buildAPI html j g) as [e|ctx0]; [discriminate|]. cbn [bindRes].
  unfold Other.selectRegion, randomCode. rewrite Hrand.
  assert (Hsame : (if truthy (getOpt g "bypassRegion")
                   then Other.validateRegion (getOpt g "bypassRegion")
                   else None)
                  = Other.validateRegion (getOpt g "bypassRegion")).
  { destruct (getOpt g "bypassRegion") as [| |b|n|[|c s]];
      try reflexivity; cbn [Other.validateRegion];
      match goal with |- context [truthy ?v] => destruct (truthy v) end;
      reflexivity. }
  rewrite Hsame.
  destruct (Other.validateRegion (getOpt g "bypassRegion")) as [r|] eqn:Hv;
    cbn [bindRes]; intros [= <-]; cbn [region mqttEndpoint loggedIn userID].
  - exists (code r). repeat split; try discriminate.
    + apply in_map. apply other_validateRegion_ok in Hv.
      eapply validateRegion_in, Hv.
    + intros r' [= <-]. reflexivity.
  - exists (code fallback). repeat split; try discriminate.
    apply in_map. unfold getRandomRegion in Hrand.
    apply list_elem_of_In. eapply list_elem_of_lookup_2, Hrand.
Qed.

End OtherCopy.

(** X15 at work: a jar with a user, an override in lower case. *)
Lemma other_buildAPI_region_witness :
  exists ctx,
    @Other.buildAPI Example.env (Some "<html></html>")
      [Example.rawCookie "c_user" "100001"]
      (<["bypassRegion" := JStr "hkg"]> defaultOptions) 0 = Ok ctx /\
    region ctx = JStr "HKG" /\
    mqttEndpoint ctx = JStr "wss://edge-chat.facebook.com/chat?region=HKG&sid=100001".
Proof.
  eexists. split; [vm_compute; reflexivity|].
  assert (Hv : Other.validateRegion
                 (getOpt (<["bypassRegion" := JStr "hkg"]> defaultOptions) "bypassRegion")
               = Some {| code := "HKG"; name := "Hong Kong"; location := "Hong Kong" |})
    by (vm_compute; reflexivity).
  match goal with |- region ?ctx = _ /\ _ =>
    assert (Hb : @Other.buildAPI Example.env (Some "<html></html>")
                   [Example.rawCookie "c_user" "100001"]
                   (<["bypassRegion" := JStr "hkg"]> defaultOptions) 0 = Ok ctx)
      by (vm_compute; reflexivity);
    destruct (@other_buildAPI_region Example.env (Some "<html></html>")
                [Example.rawCookie "c_user" "100001"]
                (<["bypassRegion" := JStr "hkg"]> defaultOptions) 0
                {| code := "PRN"; name := "Pacific Northwest Region";
                   location := "Pacific Northwest" |} ctx eq_refl Hb)
      as (c & Hr & _ & He & _ & Hset & _)
  end.
  rewrite He, Hr, (Hset _ Hv). split; reflexivity.
Defined.

(** ** How many requests a login sends *)

Section RequestCount.
Context `{Env}.

Lemma sends_keep {A} (n : nat) (m : M A) : keeps requests m -> sendsAtMost n m.
Proof.
  intros Hm w r w' Hrun. exists []. rewrite (Hm _ _ _ Hrun). split; [reflexivity|].
  cbn [List.length]. lia.
Qed.

Lemma sends_send (n : nat) (q : Request) : (1 <= n)%nat -> sendsAtMost n (send q).
Proof.
  intros Hn w r w'. unfold send.
  destruct (network w) as [|[r0|m] rest]; intros [= <- <-]; exists [q];
    (split; [reflexivity | exact Hn]).
Qed.

Lemma sends_bind {A C} (a b n : nat) (m : M A) (k : A -> M C) :
  (a + b <= n)%nat -> sendsAtMost a m -> (forall x, sendsAtMost b (k x)) ->
  sendsAtMost n (bind m k).
Proof.
  intros Hn Hm Hk w r w'. unfold bind.
  destruct (m w) as [[e|x] w1] eqn:E.
  - intros [= <- <-]. destruct (Hm _ _ _ E) as (new & Hreq & Hlen).
    exists new. split; [exact Hreq | lia].
  - intros Hrun. destruct (Hm _ _ _ E) as (new1 & Hreq1 & Hlen1).
    destruct (Hk x _ _ _ Hrun) as (new2 & Hreq2 & Hlen2).
    exists (new2 ++ new1)%list. rewrite Hreq2, Hreq1, app_assoc.
    split; [reflexivity | rewrite List.length_app; lia].
Qed.

Ltac quiet :=
  apply sends_keep;
  first [ apply keeps_ret | apply keeps_reject | apply keeps_lift
        | apply keeps_optionSet | apply keeps_clock
        | apply keeps_save; intros; reflexivity
        | apply keeps_prompt; intros; reflexivity
        | apply keeps_updateDTSG; intros; reflexivity
        | apply keeps_setJsCookies; intros; reflexivity
        | apply keeps_buildAPI ].

Ltac spend a b := apply (sends_bind a b); [lia| |intros ?].

Lemma sends_redirect (res0 : Response) (fastSwitch : bool) :
  sendsAtMost 1 (redirect res0 fastSwitch).
Proof.
  unfold redirect. destruct fastSwitch; [quiet|].
  destruct (truthyGroup _ _); [apply sends_send; lia | quiet].
Qed.

Lemma sends_checkAndFixErr (res0 : Response) (fastSwitch : bool) :
  sendsAtMost 1 (checkAndFixErr res0 fastSwitch).
Proof.
  unfold checkAndFixErr. destruct fastSwitch; [quiet|].
  destruct (Re.test _ _); [|quiet].
  destruct (Js.split _ _) as [|x [|dtCheck l]]; try quiet.
  destruct (negb (Js.nonEmpty dtCheck)); [quiet|].
  destruct (negb (Js.nonEmpty _)); [quiet|].
  spend 1%nat 0%nat; [apply sends_send; lia | quiet].
Qed.

Lemma sends_bypass (resp : Response) (appstate : list Cookie) (ID : JsVal) :
  sendsAtMost 1 (bypassAutoBehavior resp appstate ID).
Proof.
  intros w r w'. unfold bypassAutoBehavior.
  destruct (hrefIncludes resp checkpointPath && hrefIncludes resp "601051028565049");
    [|intros [= <- <-]; exists []; split; [reflexivity | cbn; lia]].
  destruct (getFromBody _ _ _);
    [intros [= <- <-]; exists []; split; [reflexivity | cbn; lia]|].
  destruct (getFromBody _ _ _);
    [intros [= <- <-]; exists []; split; [reflexivity | cbn; lia]|].
  destruct (getFromBody _ _ _);
    [intros [= <- <-]; exists []; split; [reflexivity | cbn; lia]|].
  intros Hrun.
  change (requests w) with (requests (withBehaviorDetected true w)).
  match type of Hrun with
  | ?m _ = _ => assert (K : sendsAtMost 1 m); [|exact (K _ _ _ Hrun)]
  end.
  spend 1%nat 0%nat; [apply sends_send; lia|].
  spend 0%nat 0%nat; quiet.
Qed.

Lemma sends_submit2FACode (code2fa : string) (form : Form) :
  sendsAtMost 3 (submit2FACode code2fa form).
Proof.
  unfold submit2FACode.
  spend 1%nat 2%nat; [apply sends_send; lia|].
  spend 0%nat 2%nat; [quiet|].
  spend 1%nat 1%nat; [apply sends_send; lia|].
  spend 0%nat 1%nat; [quiet|].
  destruct (_ && _); [quiet|].
  spend 1%nat 0%nat; [apply sends_send; lia | quiet].
Qed.

Lemma sends_handle2FA (location : string) (form : Form) :
  sendsAtMost 4 (handle2FA location form).
Proof.
  unfold handle2FA.
  spend 1%nat 3%nat; [apply sends_send; lia|].
  spend 0%nat 3%nat; [quiet|].
  destruct (body _); [|quiet].
  destruct (Js.includes _ _); [|quiet].
  spend 0%nat 3%nat; [quiet | apply sends_submit2FACode].
Qed.

Lemma sends_afterSubmit (form : Form) (resData : Response) :
  sendsAtMost 4 (afterSubmit form resData).
Proof.
  unfold afterSubmit.
  destruct (headerLocation resData) as [location|]; [|quiet].
  destruct (negb _); [quiet|].
  destruct (Js.includes _ _); [apply sends_handle2FA|].
  spend 1%nat 0%nat; [apply sends_send; lia | quiet].
Qed.

Lemma sends_submitLogin (email password : string) (res0 : Response) :
  sendsAtMost 1 (submitLogin email password res0).
Proof.
  unfold submitLogin. destruct (body res0); [|quiet].
  spend 0%nat 1%nat; [quiet|].
  spend 0%nat 1%nat; [quiet|].
  spend 0%nat 1%nat; [quiet|].
  spend 1%nat 0%nat; [apply sends_send; lia|].
  spend 0%nat 0%nat; quiet.
Qed.

Lemma sends_makeLogin (email password : string) (res0 : Response) :
  sendsAtMost 5 (makeLogin email password res0).
Proof.
  unfold makeLogin.
  spend 1%nat 4%nat; [apply sends_submitLogin | apply sends_afterSubmit].
Qed.

Lemma sends_firstStep (credentials : Credentials) :
  sendsAtMost 6 (firstStep credentials) /\
  (forall c cs, credAppState credentials = Some (c :: cs) ->
     sendsAtMost 1 (firstStep credentials)).
Proof.
  assert (Hsession : forall c cs n, (1 <= n)%nat ->
    sendsAtMost n
      (_ <- (fun w => match injectCookies (c :: cs) (jar w) with
                      | inr j => (Ok tt, withJar j w)
                      | inl e => (Throw e, w)
                      end) ;;
       r <- get rootURL true ;;
       thenSaveCookies r)).
  { intros c cs n Hn.
    apply (sends_bind 0 1); [lia| |intros _].
    - apply sends_keep.
      apply (keeps_setJar requests (fun _ _ => eq_refl)
               (fun w => injectCookies (c :: cs) (jar w)) tt).
    - spend 1%nat 0%nat; [apply sends_send; lia | quiet]. }
  assert (Hpass : sendsAtMost 6
    match credEmail credentials, credPassword credentials with
    | Some email, Some password =>
        if Js.nonEmpty email && Js.nonEmpty password then
          r <- get rootURL false ;;
          r' <- thenSaveCookies r ;;
          makeLogin email password r'
        else reject (Error "Unsupported credential type")
    | _, _ => reject (Error "Unsupported credential type")
    end).
  { destruct (credEmail credentials) as [email|]; [|quiet].
    destruct (credPassword credentials) as [password|]; [|quiet].
    destruct (_ && _); [|quiet].
    spend 1%nat 5%nat; [apply sends_send; lia|].
    spend 0%nat 5%nat; [quiet | apply sends_makeLogin]. }
  unfold firstStep. split.
  - destruct (credAppState credentials) as [[|c cs]|]; try exact Hpass.
    apply Hsession. lia.
  - intros c cs ->. apply Hsession. lia.
Qed.

Lemma sends_mainChain (credentials : Credentials) (n : nat) :
  sendsAtMost n (firstStep credentials) ->
  sendsAtMost (n + 7) (mainChain credentials).
Proof.
  intros Hfirst. unfold mainChain.
  apply (sends_bind n 7); [lia|exact Hfirst|intros res0].
  spend 1%nat 6%nat; [apply sends_redirect|].
  spend 1%nat 5%nat; [apply sends_checkAndFixErr|].
  spend 0%nat 5%nat; [quiet|].
  spend 1%nat 4%nat.
  { destruct x1; [quiet|]. destruct (negb _); [apply sends_send; lia | quiet]. }
  spend 1%nat 3%nat; [apply sends_bypass|].
  spend 0%nat 3%nat; [quiet|].
  spend 1%nat 2%nat; [apply sends_send; lia|].
  spend 0%nat 2%nat; [quiet|].
  spend 1%nat 1%nat; [apply sends_redirect|].
  spend 0%nat 1%nat; [quiet|].
  spend 1%nat 0%nat; [apply sends_checkAndFixErr|].
  spend 0%nat 0%nat; quiet.
Qed.

Lemma sends_pageChain (pageID : JsVal) : sendsAtMost 2 (pageChain pageID).
Proof.
  unfold pageChain.
  spend 1%nat 1%nat; [apply sends_send; lia|].
  spend 0%nat 1%nat; [quiet | apply sends_send; lia].
Qed.

Lemma sends_loginHelper (credentials : Credentials) (n : nat) (w : World) :
  sendsAtMost n (firstStep credentials) ->
  exists new,
    requests (snd (loginHelper credentials w)) = (new ++ requests w)%list /\
    (List.length new <= n + 9)%nat /\
    (truthy (getOpt (globalOptions w) "pageID") = false ->
     (List.length new <= n + 7)%nat).
Proof.
  intros Hfirst. unfold loginHelper.
  pose proof (sends_mainChain credentials n Hfirst) as Hchain.
  destruct (mainPromise credentials (withJar getJar w)) as [r w'] eqn:E.
  unfold mainPromise in E. cbn [globalOptions withJar] in E.
  assert (Hsnd : snd (let (s, w'0) := (r, w') in
                      match s with
                      | inl error => (CallbackError error, w'0)
                      | inr (res0, api) => (finalCheck res0 api, w'0)
                      end) = w').
  { destruct r as [e|[res0 api]]; reflexivity. }
  rewrite Hsnd. change (requests w) with (requests (withJar getJar w)).
  destruct (truthy (getOpt (globalOptions w) "pageID")) eqn:Hpage.
  - assert (K : sendsAtMost (n + 9)
        (ra <- mainChain credentials ;;
         pid <- (fun w' => (Ok (getOpt (globalOptions w') "pageID"), w')) ;;
         r <- pageChain pid ;;
         ret (r, snd ra))).
    { apply (sends_bind (n + 7) 2); [lia|exact Hchain|intros ra].
      spend 0%nat 2%nat.
      { apply sends_keep. intros w0 r0 w0' [= <- <-]. reflexivity. }
      spend 2%nat 0%nat; [apply sends_pageChain | quiet]. }
    destruct (K _ _ _ E) as (new & Hreq & Hlen).
    exists new. split; [exact Hreq|]. split; [exact Hlen | discriminate].
  - assert (K : sendsAtMost (n + 7) (ra <- mainChain credentials ;; ret ra)).
    { apply (sends_bind (n + 7) 0); [lia|exact Hchain|intros ra]. quiet. }
    destruct (K _ _ _ E) as (new & Hreq & Hlen).
    exists new. split; [exact Hreq|]. split; [lia | intros _; exact Hlen].
Qed.

(** X16: one run of [loginHelper] removes nothing from the log of
    requests and adds at most fifteen requests to it, at most ten when it
    starts from a stored session, and two less when no page id is
    configured: no redirection is followed more than once. *)
Theorem login_request_bound (credentials : Credentials) (w : World) :
  exists new,
    requests (snd (loginHelper credentials w)) = (new ++ requests w)%list /\
    (List.length new <= 15)%nat /\
    (truthy (getOpt (globalOptions w) "pageID") = false -> (List.length new <= 13)%nat) /\
    (forall c cs, credAppState credentials = Some (c :: cs) ->
       (List.length new <= 10)%nat /\
       (truthy (getOpt (globalOptions w) "pageID") = false -> (List.length new <= 8)%nat)).
Proof.
  destruct (sends_firstStep credentials) as [Hany Hsession].
  destruct (sends_loginHelper credentials 6 w Hany) as (new & Hreq & Hlen & Hlen').
  exists new. split; [exact Hreq|]. split; [lia|]. split; [intros Hp; specialize (Hlen' Hp); lia|].
  intros c cs Hc.
  destruct (sends_loginHelper credentials 1 w (Hsession c cs Hc)) as (new' & Hreq' & Hl & Hl').
  assert (new' = new) as ->.
  { rewrite Hreq in Hreq'. now apply app_inv_tail in Hreq'. }
  split; [lia | intros Hp; specialize (Hl' Hp); lia].
Qed.

End RequestCount.

(** ** Credentials that lead nowhere *)

Section Credentials.
Context `{Env}.

(** X17: an email of white space only, with a password and no stored
    session, passes [normalizeLoginCredentials], which trims it to the
    empty string; [loginHelper] then finds no usable credentials, and
    [login] calls back with [Unsupported credential type] without having
    sent any request. *)
Theorem blank_email_is_unsupported (now : nat -> Z) (appState : AppStateIn)
    (email password : string) (options : list (string * JsVal)) (w : World) :
  asTruthy appState = false ->
  Js.nonEmpty email = true -> Js.trim email = EmptyString ->
  Js.nonEmpty password = true ->
  let loginData := LDObject appState (JStr email) (JStr password) in
  normalizeLoginCredentials now loginData
  = Ok {| credAppState := None; credEmail := Some EmptyString;
          credPassword := Some password |} /\
  fst (login now loginData options w) = CallbackError (Error "Unsupported credential type") /\
  requests (snd (login now loginData options w)) = requests w /\
  network (snd (login now loginData options w)) = network w.
Proof.
  intros Hstate Hemail Htrim Hpass loginData.
  assert (Hnorm : normalizeLoginCredentials now loginData
                  = Ok {| credAppState := None; credEmail := Some EmptyString;
                          credPassword := Some password |}).
  { unfold loginData, normalizeLoginCredentials. rewrite Hstate.
    cbn [truthy]. rewrite Hemail, Hpass, Htrim. reflexivity. }
  split; [exact Hnorm|].
  unfold login. rewrite Hnorm. unfold Ok.
  match goal with
  | |- context [loginHelper ?c ?w1] =>
      rewrite (loginHelper_first_rejected c w1 (withJar getJar w1)
                 (Error "Unsupported credential type") eq_refl)
  end.
  repeat split; reflexivity.
Qed.

End Credentials.

(** X17 at work: two blanks for an email. *)
Lemma blank_email_is_unsupported_witness :
  fst (@login Example.env (fun _ => 0%Z)
         (LDObject (ASPrim JUndefined) (JStr "  ") (JStr "secret")) []
         (Example.world [Reply Example.homePage]))
  = CallbackError (Error "Unsupported credential type").
Proof.
  exact (proj1 (proj2 (@blank_email_is_unsupported Example.env (fun _ => 0%Z)
                         (ASPrim JUndefined) "  " "secret" []
                         (Example.world [Reply Example.homePage])
                         eq_refl eq_refl eq_refl eq_refl))).
Defined.

(** ** From the cookie string back to a stored session *)

Lemma split_char_none (c : ascii) (a : string) :
  Js.includes (String c EmptyString) a = false ->
  Js.split (String c EmptyString) a = [a].
Proof.
  unfold Js.split. induction a as [|x a IH]; intros Ha; [reflexivity|].
  cbn [Js.includes Js.startsWith] in Ha.
  cbn [Js.splitFrom Js.startsWith].
  destruct (Ascii.eqb c x); [discriminate|].
  now rewrite (IH Ha).
Qed.

Lemma split_char_app (c : ascii) (a b : string) :
  Js.includes (String c EmptyString) a = false ->
  Js.split (String c EmptyString) (a ++ String c b)
  = a :: Js.split (String c EmptyString) b.
Proof.
  unfold Js.split. induction a as [|x a IH]; intros Ha.
  - cbn [String.append Js.splitFrom Js.startsWith]. rewrite Ascii.eqb_refl.
    destruct b; reflexivity.
  - cbn [Js.includes Js.startsWith] in Ha.
    cbn [String.append Js.splitFrom Js.startsWith].
    destruct (Ascii.eqb c x); [discriminate|].
    now rewrite (IH Ha).
Qed.

Lemma split_char_cons (c x : ascii) (t : string) :
  Ascii.eqb c x = false ->
  Js.split (String c EmptyString) (String x t)
  = match Js.split (String c EmptyString) t with
    | p :: ps => String x p :: ps
    | [] => [String x EmptyString]
    end.
Proof.
  intros Hc. unfold Js.split. cbn [Js.splitFrom Js.startsWith]. now rewrite Hc.
Qed.

Lemma includes_char_app (c : ascii) (a b : string) :
  Js.includes (String c EmptyString) a = false ->
  Js.includes (String c EmptyString) b = false ->
  Js.includes (String c EmptyString) (a ++ b) = false.
Proof.
  intros Ha Hb. induction a as [|x a IH]; [exact Hb|].
  cbn [Js.includes Js.startsWith] in Ha.
  cbn [String.append Js.includes Js.startsWith].
  destruct (Ascii.eqb c x); [discriminate|]. exact (IH Ha).
Qed.

(** The pieces between semicolons of texts joined by a semicolon and a
    space: the texts, all but the first after a space. *)
Lemma split_join (l : list string) :
  Forall (fun x => Js.includes ";" x = false) l ->
  Js.split ";" (Js.join "; " l)
  = match l with
    | [] => [EmptyString]
    | x :: xs => x :: map (String " "%char) xs
    end.
Proof.
  induction 1 as [|x l Hx Hl IH]; [reflexivity|].
  destruct l as [|y l]; [now apply split_char_none|].
  change (Js.join "; " (x :: y :: l))
    with (x ++ String ";"%char (String " "%char (Js.join "; " (y :: l)))).
  rewrite (split_char_app ";"%char _ _ Hx).
  rewrite (split_char_cons ";"%char " "%char) by reflexivity.
  rewrite IH. reflexivity.
Qed.

Lemma trimStart_headOk (s : string) : headOk (Js.trimStart s) = true.
Proof.
  induction s as [|c s IH]; [reflexivity|].
  cbn [Js.trimStart]. destruct (Js.isSpace c) eqn:Hc; [exact IH|].
  cbn [headOk]. now rewrite Hc.
Qed.

Lemma trimStart_fixed (s : string) : headOk s = true -> Js.trimStart s = s.
Proof.
  destruct s as [|c s]; [reflexivity|]. cbn [headOk Js.trimStart].
  now destruct (Js.isSpace c).
Qed.

Lemma trimEnd_headOk (s : string) : headOk s = true -> headOk (Js.trimEnd s) = true.
Proof.
  destruct s as [|c s]; [reflexivity|]. cbn [headOk Js.trimEnd]. intros Hc.
  destruct (Js.trimEnd s); [|exact Hc].
  destruct (Js.isSpace c) eqn:E; [discriminate Hc|].
  cbn [headOk]. now rewrite E.
Qed.

Lemma trimEnd_idem (s : string) : Js.trimEnd (Js.trimEnd s) = Js.trimEnd s.
Proof.
  induction s as [|c s IH]; [reflexivity|].
  cbn [Js.trimEnd]. destruct (Js.trimEnd s) as [|d t] eqn:Ht.
  - destruct (Js.isSpace c) eqn:Hc; [reflexivity|].
    cbn [Js.trimEnd]. now rewrite Hc.
  - change (Js.trimEnd (String c (String d t)))
      with (match Js.trimEnd (String d t) with
            | EmptyString => if Js.isSpace c then EmptyString else String c EmptyString
            | String a u => String c (String a u)
            end).
    now rewrite IH.
Qed.

Lemma trim_idem (s : string) : Js.trim (Js.trim s) = Js.trim s.
Proof.
  unfold Js.trim.
  rewrite (trimStart_fixed (Js.trimEnd (Js.trimStart s)))
    by apply trimEnd_headOk, trimStart_headOk.
  apply trimEnd_idem.
Qed.

Lemma trimStart_spaces (s : string) :
  Js.allChars Js.isSpace (Js.trimStart s) = Js.allChars Js.isSpace s.
Proof.
  induction s as [|c s IH]; [reflexivity|].
  cbn [Js.trimStart Js.allChars]. destruct (Js.isSpace c) eqn:Hc; [exact IH|].
  cbn [Js.allChars]. now rewrite Hc.
Qed.

Lemma trimEnd_nonEmpty (s : string) :
  Js.allChars Js.isSpace s = false -> Js.nonEmpty (Js.trimEnd s) = true.
Proof.
  induction s as [|c s IH]; [discriminate|].
  cbn [Js.allChars Js.trimEnd]. intros Hs.
  destruct (Js.trimEnd s) as [|d t]; [|reflexivity].
  destruct (Js.isSpace c); [|reflexivity].
  cbn [andb] in Hs. discriminate (IH Hs).
Qed.

Lemma spaces_app (a : string) (c : ascii) (b : string) :
  Js.isSpace c = false -> Js.allChars Js.isSpace (a ++ String c b) = false.
Proof.
  intros Hc. induction a as [|x a IH]; cbn [String.append Js.allChars].
  - now rewrite Hc.
  - rewrite IH. apply andb_false_r.
Qed.

Lemma trim_nonEmpty (a : string) (c : ascii) (b : string) :
  Js.isSpace c = false -> Js.nonEmpty (Js.trim (a ++ String c b)) = true.
Proof.
  intros Hc. unfold Js.trim. apply trimEnd_nonEmpty.
  rewrite trimStart_spaces. now apply spaces_app.
Qed.

Lemma important_key_plain (k : string) :
  isImportant k = true ->
  Js.nonEmpty k = true /\ Js.includes ";" k = false /\ Js.includes "=" k = false.
Proof.
  intros Hk. apply isImportant_In in Hk. unfold importantKeys in Hk.
  cbn [In] in Hk.
  repeat (destruct Hk as [<- | Hk]; [repeat split; reflexivity|]).
  contradiction.
Qed.


Lemma trim_after_space (s : string) : Js.trim (String " "%char s) = Js.trim s.
Proof. reflexivity. Qed.

Lemma includes_render (c : Cookie) :
  Js.includes ";" (key c) = false -> Js.includes ";" (value c) = false ->
  Js.includes ";" (render c) = false.
Proof.
  intros Hk Hv. unfold render.
  apply (includes_char_app ";"%char); [exact Hk|exact Hv].
Qed.

Section RoundTrip.
Context `{Env}.

Lemma cookieOfPair_render (now : nat -> Z) (i : nat) (pre : string) (c : Cookie) :
  pre = EmptyString \/ pre = " " ->
  readable c ->
  cookieOfPair now i (pre ++ render c) = Ok (reparsed now i c).
Proof.
  intros Hpre ((Hk1 & Hk2 & Hk3 & Hk4) & (Hv1 & Hv2 & Hv3 & Hv4)).
  unfold cookieOfPair, render.
  change (key c ++ "=" ++ value c) with (key c ++ String "="%char (value c)).
  rewrite <- append_assoc.
  assert (Hpk : Js.includes "=" (pre ++ key c) = false).
  { destruct Hpre as [-> | ->]; [exact Hk3|].
    apply (includes_char_app "="%char); [reflexivity | exact Hk3]. }
  rewrite (split_char_app "="%char _ _ Hpk), (split_char_none "="%char _ Hv3).
  assert (Hne : Js.nonEmpty (pre ++ key c) = true).
  { destruct Hpre as [-> | ->]; [exact Hk1 | reflexivity]. }
  rewrite Hne, Hv1. cbn [negb orb]. unfold reparsed.
  assert (Htrim : Js.trim (pre ++ key c) = key c).
  { destruct Hpre as [-> | ->]; [exact Hk4|].
    change (" " ++ key c) with (String " "%char (key c)).
    now rewrite trim_after_space. }
  now rewrite Htrim, Hv4.
Qed.

Lemma mapRes_rendered (now : nat -> Z) (l : list Cookie) :
  Forall readable l ->
  forall i,
    mapRes (cookieOfPair now) i (map (String " "%char) (map render l))
    = Ok (imap (fun n => reparsed now (i + n)) l).
Proof.
  induction 1 as [|c l Hc Hl IH]; intros i; [reflexivity|].
  cbn [map mapRes imap].
  change (String " "%char (render c)) with (" " ++ render c).
  rewrite (cookieOfPair_render now i " " c (or_intror eq_refl) Hc).
  cbn [bindRes Ok]. rewrite IH. cbn [bindRes Ok].
  rewrite Nat.add_0_r.
  rewrite (imap_ext (fun n => reparsed now (S i + n))
             ((fun n => reparsed now (i + n)) ∘ S) l); [reflexivity|].
  intros n x _. cbn. now rewrite Nat.add_succ_r.
Qed.

Lemma nonblank_rendered (pre : string) (c : Cookie) :
  Js.nonEmpty (Js.trim (pre ++ render c)) = true.
Proof.
  unfold render.
  change (key c ++ "=" ++ value c) with (key c ++ String "="%char (value c)).
  rewrite <- append_assoc. now apply trim_nonEmpty.
Qed.

Lemma filter_all {A} (p : A -> bool) (l : list A) :
  Forall (fun x => p x = true) l -> List.filter p l = l.
Proof.
  induction 1 as [|x l Hx Hl IH]; [reflexivity|].
  cbn [List.filter]. now rewrite Hx, IH.
Qed.

Lemma cookieOfObject_trimmed (now : nat -> Z) (i : nat) (c : RawCookie) (c' : Cookie) :
  cookieOfObject now i c = Ok c' ->
  Js.trim (key c') = key c' /\ Js.trim (value c') = value c'.
Proof.
  intros Hc. apply cookieOfObject_ok in Hc as (Hk & Hv & _).
  unfold trimVal in Hk, Hv.
  destruct (orElse (rkey c) (rname c)); try discriminate.
  destruct (rvalue c); try discriminate.
  injection Hk as <-. injection Hv as <-. split; apply trim_idem.
Qed.

(** X18: the string that [getCookie] returns can be handed back to
    [login] as a stored session. When no key of the jar holds an equals
    sign, and the value of every cookie on the allow-list is not empty and
    holds neither an equals sign nor a semicolon, [normalizeAppState] reads
    the string back as the cookies of the allow-list, in the order of the
    jar and with their keys and values, each for [.facebook.com], the path
    [/] and an expiry of one year from the reading. *)
Theorem getCookie_round_trip (now now' : nat -> Z) (j : Jar) (appState : list Cookie) :
  normalizeAppState now (ASArray (getAppState j)) = Ok appState ->
  (forall c, In c appState -> Js.includes "=" (key c) = false) ->
  (forall c, In c appState -> isImportant (key c) = true ->
     Js.nonEmpty (value c) = true /\ Js.includes "=" (value c) = false /\
     Js.includes ";" (value c) = false) ->
  exists s,
    getCookie now j = Ok s /\
    normalizeAppState now' (ASPrim (JStr s))
    = Ok (imap (reparsed now')
            (List.filter (fun c => isImportant (key c)) appState)).
Proof.
  intros Hnorm Hkeys Hvalues.
  set (kept := List.filter (fun c => isImportant (key c)) appState).
  exists (Js.join "; " (map render kept)).
  assert (Hfilter : List.filter (fun cookie => isImportant (nameOf cookie))
                      (map render appState) = map render kept).
  { rewrite filter_map_comm. f_equal. apply List.filter_ext_in.
    intros c Hc. unfold render.
    change (key c ++ "=" ++ value c) with (key c ++ String "="%char (value c)).
    now rewrite (nameOf_key _ _ (Hkeys c Hc)). }
  split.
  { unfold getCookie. rewrite Hnorm. cbn [bindRes Ok].
    destruct appState; [reflexivity|]. now rewrite Hfilter. }
  assert (Htrimmed : Forall (fun c => Js.trim (key c) = key c /\
                                      Js.trim (value c) = value c) appState).
  { eapply mapRes_Forall; [|exact Hnorm]. intros i x y. apply cookieOfObject_trimmed. }
  assert (Hread : Forall readable kept).
  { apply List.Forall_forall. intros c Hc. apply List.filter_In in Hc as [Hin Himp].
    rewrite List.Forall_forall in Htrimmed.
    destruct (Htrimmed c Hin) as [Hk Hv].
    destruct (important_key_plain _ Himp) as (Hk1 & Hk2 & Hk3).
    destruct (Hvalues c Hin Himp) as (Hv1 & Hv2 & Hv3).
    repeat split; assumption. }
  clearbody kept. clear Hfilter.
  destruct Hread as [|c kept Hc Hkept]; [reflexivity|].
  assert (Hs : Js.nonEmpty (Js.join "; " (map render (c :: kept))) = true).
  { destruct Hc as ((Hk1 & _) & _). cbn [map].
    assert (Hr : Js.nonEmpty (render c) = true).
    { unfold render. destruct (key c); [discriminate Hk1 | reflexivity]. }
    destruct (render c) as [|a r]; [discriminate Hr|].
    destruct (map render kept); reflexivity. }
  cbn [normalizeAppState truthy]. rewrite Hs. cbn [negb].
  rewrite split_join.
  2:{ apply Forall_map. apply List.Forall_forall. intros x Hx.
      assert (Hall : Forall readable (c :: kept)) by (constructor; assumption).
      rewrite List.Forall_forall in Hall.
      destruct (Hall x Hx) as ((_ & Hk2 & _) & (_ & Hv2 & _)).
      now apply includes_render. }
  cbn [map]. rewrite filter_all.
  2:{ constructor; [apply (nonblank_rendered EmptyString)|].
      apply Forall_map, Forall_map, List.Forall_forall. intros x _.
      apply (nonblank_rendered " "). }
  cbn [mapRes].
  pose proof (cookieOfPair_render now' 0 EmptyString c (or_introl eq_refl) Hc) as Hfirst.
  change (EmptyString ++ render c) with (render c) in Hfirst. rewrite Hfirst.
  cbn [bindRes Ok]. rewrite (mapRes_rendered now' kept Hkept 1). reflexivity.
Qed.

End RoundTrip.

(** X18 at work: a jar of three cookies, one of them not on the list. *)
Lemma getCookie_round_trip_witness :
  exists s,
    @getCookie Example.env (fun _ => 0%Z)
      [Example.rawCookie "c_user" "1"; Example.rawCookie "foo" "2";
       Example.rawCookie "xs" "3 "] = Ok s /\
    normalizeAppState (fun _ => 5%Z) (ASPrim (JStr s))
    = Ok [reparsed (fun _ => 5%Z) 0 (Example.cookie "c_user" "1");
          reparsed (fun _ => 5%Z) 1 (Example.cookie "xs" "3")].
Proof.
  destruct (@getCookie_round_trip Example.env (fun _ => 0%Z) (fun _ => 5%Z)
              [Example.rawCookie "c_user" "1"; Example.rawCookie "foo" "2";
               Example.rawCookie "xs" "3 "]
              [{| key := "c_user"; value := "1"; domain := JStr ".facebook.com";
                  path := JStr "/"; expires := JNum 31536000000 |};
               {| key := "foo"; value := "2"; domain := JStr ".facebook.com";
                  path := JStr "/"; expires := JNum 31536000000 |};
               {| key := "xs"; value := "3"; domain := JStr ".facebook.com";
                  path := JStr "/"; expires := JNum 31536000000 |}]
              eq_refl)
    as (s & Hs & Hback).
  - intros c Hc. cbn [In] in Hc.
    repeat (destruct Hc as [<- | Hc]; [reflexivity|]). contradiction.
  - intros c Hc. cbn [In] in Hc.
    repeat (destruct Hc as [<- | Hc]; [intros _; repeat split; reflexivity|]).
    contradiction.
  - exists s. split; [exact Hs|]. rewrite Hback. reflexivity.
Defined.

(** ** [getInfo]: how often the profile is fetched *)





(** ** [getAccess]: the token that is found *)

Lemma star_greedy_all {A} (cls : ascii -> bool) (s : string) (k : string -> option A) :
  (forall x, k x <> None) ->
  exists w post,
    s = w ++ post /\ Js.allChars cls w = true /\ GetAccess.stops cls post = true /\
    Re.star true cls s k = k post.
Proof.
  intros Hk. induction s as [|c s IH].
  - exists EmptyString, EmptyString. repeat split.
  - cbn [Re.star]. destruct (cls c) eqn:Hc.
    + destruct IH as (w & post & -> & Hw & Hpost & Hstar).
      exists (String c w), post. rewrite Hstar.
      repeat split; [cbn [Js.allChars]; now rewrite Hc, Hw | exact Hpost|].
      destruct (k post) eqn:E; [reflexivity | destruct (Hk _ E)].
    + exists EmptyString, (String c s).
      repeat split. cbn [GetAccess.stops]. now rewrite Hc.
Qed.

Lemma startsWith_split (p s : string) :
  Js.startsWith p s = true -> s = p ++ Js.drop (String.length p) s.
Proof.
  revert s. induction p as [|a p IH]; intros s; [reflexivity|].
  destruct s as [|b s]; [discriminate|].
  cbn [Js.startsWith String.length Js.drop String.append].
  destruct (Ascii.eqb a b) eqn:E; [|discriminate].
  apply Ascii.eqb_eq in E as ->. intros Hs. now rewrite <- (IH s Hs).
Qed.

Lemma matchAt_token (s : string) (m : list string) :
  Re.matchAt GetAccess.tokenRe s []
    (fun rest caps => Some (Js.take (String.length s - String.length rest) s :: caps))
  = Some m ->
  exists w post,
    s = "EAAG" ++ w ++ post /\ w <> EmptyString /\
    Js.allChars GetAccess.word w = true /\ GetAccess.stops GetAccess.word post = true /\
    m = ["EAAG" ++ w; "EAAG" ++ w].
Proof.
  unfold GetAccess.tokenRe, Re.plus. cbn [Re.matchAt].
  destruct (Js.startsWith "EAAG" s) eqn:Hs; [|discriminate].
  assert (Hshape : s = "EAAG" ++ Js.drop 4 s).
  { exact (startsWith_split "EAAG" s Hs). }
  change (String.length "EAAG") with 4%nat.
  destruct (Js.drop 4 s) as [|c s'] eqn:Hd; [discriminate|].
  destruct (GetAccess.word c) eqn:Hc; [|discriminate].
  destruct (star_greedy_all GetAccess.word s'
              (fun rest => Some [Js.take (String.length s - String.length rest) s;
                                 Js.take (String.length s - String.length rest) s]))
    as (w & post & Hs' & Hw & Hpost & Hstar); [discriminate|].
  cbn [app]. rewrite Hstar. intros [= <-].
  exists (String c w), post.
  assert (Hwhole : s = ("EAAG" ++ String c w) ++ post).
  { rewrite Hshape, Hs'. reflexivity. }
  split; [rewrite Hshape, Hs'; reflexivity|].
  split; [discriminate|].
  split; [cbn [Js.allChars]; now rewrite Hc, Hw|].
  split; [exact Hpost|].
  rewrite Hwhole, take_app. reflexivity.
Qed.

Lemma exec_token (html : string) (m : list string) :
  Re.exec GetAccess.tokenRe html = Some m ->
  exists pre w post,
    html = pre ++ "EAAG" ++ w ++ post /\ w <> EmptyString /\
    Js.allChars GetAccess.word w = true /\ GetAccess.stops GetAccess.word post = true /\
    m = ["EAAG" ++ w; "EAAG" ++ w].
Proof.
  induction html as [|c html IH]; cbn [Re.exec].
  - destruct (Re.matchAt _ _ _ _) eqn:E; [|discriminate].
    intros [= <-]. apply matchAt_token in E as (w & post & Hs & Hrest).
    exists EmptyString, w, post. split; [exact Hs | exact Hrest].
  - destruct (Re.matchAt _ _ _ _) eqn:E.
    + intros [= <-]. apply matchAt_token in E as (w & post & Hs & Hrest).
      exists EmptyString, w, post. split; [exact Hs | exact Hrest].
    + intros Hm. destruct (IH Hm) as (pre & w & post & -> & Hrest).
      exists (String c pre), w, post. split; [reflexivity | exact Hrest].
Qed.

Lemma star_greedy_run {A} (cls : ascii -> bool) (w post : string)
    (k : string -> option A) :
  (forall x, k x <> None) ->
  Js.allChars cls w = true -> GetAccess.stops cls post = true ->
  Re.star true cls (w ++ post) k = k post.
Proof.
  intros Hk Hw Hpost. induction w as [|c w IH].
  - destruct post as [|c post]; cbn [String.append Re.star]; [reflexivity|].
    cbn [GetAccess.stops] in Hpost. destruct (cls c); [discriminate | reflexivity].
  - cbn [Js.allChars] in Hw. apply andb_prop in Hw as [Hc Hw].
    cbn [String.append Re.star]. rewrite Hc, (IH Hw).
    destruct (k post) eqn:E; [reflexivity | destruct (Hk _ E)].
Qed.

Lemma exec_token_first (html pre w post : string) :
  Js.firstAt "EAAG" html = Some (pre, w ++ post) ->
  w <> EmptyString -> Js.allChars GetAccess.word w = true ->
  GetAccess.stops GetAccess.word post = true ->
  Re.exec GetAccess.tokenRe html = Some ["EAAG" ++ w; "EAAG" ++ w].
Proof.
  intros Hfirst Hne Hw Hpost. revert pre Hfirst.
  assert (Hhere : forall s, Js.startsWith "EAAG" s = true ->
            Js.drop 4 s = w ++ post ->
            Re.matchAt GetAccess.tokenRe s []
              (fun rest caps =>
                 Some (Js.take (String.length s - String.length rest) s :: caps))
            = Some ["EAAG" ++ w; "EAAG" ++ w]).
  { intros s Hs Hd. unfold GetAccess.tokenRe, Re.plus. cbn [Re.matchAt].
    rewrite Hs. change (String.length "EAAG") with 4%nat. rewrite Hd.
    pose proof (startsWith_split "EAAG" s Hs) as Hshape.
    change (String.length "EAAG") with 4%nat in Hshape. rewrite Hd in Hshape.
    destruct w as [|c w]; [contradiction|].
    cbn [Js.allChars] in Hw. apply andb_prop in Hw as [Hc Hw].
    cbn [String.append]. rewrite Hc.
    rewrite star_greedy_run; [|discriminate|exact Hw|exact Hpost].
    cbn [app].
    assert (Hwhole : s = ("EAAG" ++ String c w) ++ post) by exact Hshape.
    rewrite Hwhole, take_app. reflexivity. }
  assert (Hmiss : forall s, Js.startsWith "EAAG" s = false ->
            Re.matchAt GetAccess.tokenRe s []
              (fun rest caps =>
                 Some (Js.take (String.length s - String.length rest) s :: caps))
            = None).
  { intros s Hs. unfold GetAccess.tokenRe. cbn [Re.matchAt]. now rewrite Hs. }
  induction html as [|c html IH]; intros pre Hfirst.
  - cbn [Js.firstAt] in Hfirst. discriminate Hfirst.
  - cbn [Js.firstAt] in Hfirst. cbn [Re.exec].
    destruct (Js.startsWith "EAAG" (String c html)) eqn:Hs.
    + injection Hfirst as _ Hd. change (String.length "EAAG") with 4%nat in Hd.
      now rewrite (Hhere _ Hs Hd).
    + rewrite (Hmiss _ Hs).
      destruct (Js.firstAt "EAAG" html) as [[before after]|] eqn:Hf; [|discriminate].
      injection Hfirst as _ Hafter. rewrite Hafter in IH. exact (IH before eq_refl).
Qed.

(** X20: [getAccess] sends nothing for a missing cookie and one request
    with the cookie otherwise. The token it passes on is a text of the
    page that begins with [EAAG] and goes on with one or more word
    characters, as far as they go; it is what [ctx.access_token] holds
    afterwards, while a failure leaves that property as it was, and,
    without callback, resolves to [undefined] instead of rejecting. When
    the first [EAAG] of the page is followed by a word character, the
    token that starts there is the one found. *)
Theorem getAccess_token (cookie : JsVal) (hasCallback : bool)
    (reply : GetInfo.AxiosReply) (access_token : JsVal) :
  let settled := fst (fst (GetAccess.getAccess cookie hasCallback reply access_token)) in
  let after := snd (fst (GetAccess.getAccess cookie hasCallback reply access_token)) in
  let sent := snd (GetAccess.getAccess cookie hasCallback reply access_token) in
  (truthy cookie = false ->
   sent = [] /\ after = access_token /\
   settled = if hasCallback
             then GetAccess.CalledBack (Throw (Error "Cookie is required"))
             else GetAccess.Returned None) /\
  (truthy cookie = true ->
   sent = [{| GetAccess.url := "https://business.facebook.com/business_locations";
              GetAccess.cookieHeader := cookie |}]) /\
  (forall token,
     settled = GetAccess.CalledBack (Ok token) \/
     settled = GetAccess.Returned (Some token) ->
     after = JStr token /\
     exists response html pre w post,
       reply = GetInfo.Resolves response /\ GetInfo.data response = Some html /\
       html = pre ++ "EAAG" ++ w ++ post /\ w <> EmptyString /\
       Js.allChars GetAccess.word w = true /\
       GetAccess.stops GetAccess.word post = true /\
       token = "EAAG" ++ w) /\
  ((exists e, settled = GetAccess.CalledBack (Throw e)) \/
   settled = GetAccess.Returned None ->
   after = access_token) /\
  (forall response html pre w post,
     truthy cookie = true ->
     reply = GetInfo.Resolves response -> GetInfo.data response = Some html ->
     Js.firstAt "EAAG" html = Some (pre, w ++ post) ->
     w <> EmptyString -> Js.allChars GetAccess.word w = true ->
     GetAccess.stops GetAccess.word post = true ->
     after = JStr ("EAAG" ++ w) /\
     settled = if hasCallback
               then GetAccess.CalledBack (Ok ("EAAG" ++ w))
               else GetAccess.Returned (Some ("EAAG" ++ w))).
Proof.
  intros settled after sent.
  unfold settled, after, sent, GetAccess.getAccess. clear settled after sent.
  split; [|split; [|split; [|split]]].
  - intros Hc. unfold GetAccess.findToken. rewrite Hc. cbn. repeat split.
  - intros Hc. unfold GetAccess.findToken. rewrite Hc. cbn [negb].
    destruct reply as [response|message]; [|reflexivity].
    destruct (GetInfo.data response) as [html|]; [|reflexivity].
    destruct (Re.exec GetAccess.tokenRe html); reflexivity.
  - intros token Hsettled.
    destruct (GetAccess.findToken cookie reply) as [[e|found] sent0] eqn:Hfind.
    { cbn [fst snd] in Hsettled. destruct hasCallback, Hsettled; discriminate. }
    cbn [fst snd] in *.
    assert (found = token) as ->.
    { destruct hasCallback, Hsettled as [Hs | Hs]; try discriminate Hs;
        now injection Hs. }
    split; [reflexivity|].
    unfold GetAccess.findToken in Hfind.
    destruct (negb (truthy cookie)); [discriminate|].
    destruct reply as [response|message]; [|discriminate].
    destruct (GetInfo.data response) as [html|] eqn:Hdata; [|discriminate].
    destruct (Re.exec GetAccess.tokenRe html) as [tokenMatch|] eqn:Hexec; [|discriminate].
    injection Hfind as <- _.
    apply exec_token in Hexec as (pre & w & post & Hhtml & Hne & Hw & Hpost & ->).
    exists response, html, pre, w, post. repeat split; assumption.
  - intros Hsettled.
    destruct (GetAccess.findToken cookie reply) as [[e|found] sent0]; [reflexivity|].
    cbn [fst snd] in Hsettled.
    destruct hasCallback, Hsettled as [[e He] | Hs]; discriminate.
  - intros response html pre w post Hc -> Hdata Hfirst Hne Hw Hpost.
    unfold GetAccess.findToken. rewrite Hc, Hdata. cbn [negb].
    rewrite (exec_token_first html pre w post Hfirst Hne Hw Hpost).
    cbn. split; reflexivity.
Qed.

(** X20 at work: a page that announces a token. *)
Lemma getAccess_token_witness :
  GetAccess.getAccess (JStr "c_user=1; xs=3") false
    (GetInfo.Resolves
       {| GetInfo.status := 200; GetInfo.resStatusCode := Some 200%Z;
          GetInfo.data := Some "accessToken=EAAGabc_9-x; EAAGz" |})
    JUndefined
  = (GetAccess.Returned (Some "EAAGabc_9"), JStr "EAAGabc_9",
     [{| GetAccess.url := "https://business.facebook.com/business_locations";
         GetAccess.cookieHeader := JStr "c_user=1; xs=3" |}]).
Proof.
  pose proof (getAccess_token (JStr "c_user=1; xs=3") false
    (GetInfo.Resolves
       {| GetInfo.status := 200; GetInfo.resStatusCode := Some 200%Z;
          GetInfo.data := Some "accessToken=EAAGabc_9-x; EAAGz" |})
    JUndefined) as (_ & Hsent & _ & _ & Hfound).
  specialize (Hsent eq_refl).
  destruct (Hfound _ _ "accessToken=" "abc_9" "-x; EAAGz" eq_refl eq_refl eq_refl
              eq_refl ltac:(discriminate) eq_refl eq_refl) as [Hafter Hsettled].
  destruct (GetAccess.getAccess _ _ _ _) as [[settled after] sent].
  cbn [fst snd] in *. now subst.
Defined.

(** ** What a handle stands for *)

Section HandleBuilt.
Context `{Env}.

Lemma bind_ok_inv {A B} (m : M A) (k : A -> M B) (w w' : World) (b : B) :
  bind m k w = (Ok b, w') ->
  exists a w1, m w = (Ok a, w1) /\ k a w1 = (Ok b, w').
Proof.
  unfold bind. destruct (m w) as [[e|a] w1]; [discriminate|].
  intros Hk. exists a, w1. split; [reflexivity | exact Hk].
Qed.

Lemma mainChain_built (credentials : Credentials) (w w' : World)
    (res0 : Response) (api : APIContext) :
  mainChain credentials w = (Ok (res0, api), w') ->
  buildAPI (body res0) (jar w') (globalOptions w') = Ok api.
Proof.
  unfold mainChain. cbv zeta. intros Hrun.
  do 12 (apply bind_ok_inv in Hrun as (? & ? & _ & Hrun)).
  apply bind_ok_inv in Hrun as (a & w1 & Hbuild & Hret).
  injection Hbuild as Hbuild <-. injection Hret as <- <- <-. exact Hbuild.
Qed.

(** X21: when [loginHelper] passes a handle to the callback, the jar it
    leaves behind holds a [c_user] or an [i_user] cookie for the platform;
    the user id of the handle is the value of the first [i_user] cookie
    when that value is not empty, and else the value of the first
    [c_user] cookie; the handle is marked as logged in, and its region
    and endpoint are still undefined. *)
Theorem handle_needs_user_cookie (credentials : Credentials) (w : World)
    (api : APIContext) :
  fst (loginHelper credentials w) = CallbackApi api ->
  let cookies :=
    getCookies (jar (snd (loginHelper credentials w))) "https://www.facebook.com" in
  (exists c, In c cookies /\ (rkey c = JStr "c_user" \/ rkey c = JStr "i_user")) /\
  userID api
  = orElse (valueToString (List.find (fun c => bool_decide (rkey c = JStr "i_user")) cookies))
           (valueToString (List.find (fun c => bool_decide (rkey c = JStr "c_user")) cookies)) /\
  loggedIn api = true /\ region api = JUndefined /\ mqttEndpoint api = JUndefined.
Proof.
  unfold loginHelper.
  destruct (mainPromise credentials (withJar getJar w)) as [[e|[res0 api0]] w'] eqn:E;
    cbn [fst snd]; [discriminate|].
  intros Hfinal.
  assert (api0 = api) as ->.
  { unfold finalCheck in Hfinal.
    destruct (checkIfLocked res0); [discriminate|].
    destruct (checkIfSuspended res0); [discriminate|]. now injection Hfinal. }
  clear Hfinal.
  assert (Hbuilt : exists res8, buildAPI (body res8) (jar w') (globalOptions w') = Ok api).
  { unfold mainPromise in E.
    apply bind_ok_inv in E as ([res8 api8] & w1 & Hchain & Hrest).
    apply mainChain_built in Hchain. exists res8.
    destruct (truthy _).
    - apply bind_ok_inv in Hrest as (pid & w2 & [= <- <-] & Hrest).
      apply bind_ok_inv in Hrest as (r & w3 & Hpage & [= <- <- <-]).
      cbn [snd].
      rewrite (keeps_pageChain jar (fun _ _ _ => eq_refl) _ _ _ _ Hpage).
      rewrite (keeps_pageChain globalOptions (fun _ _ _ => eq_refl) _ _ _ _ Hpage).
      exact Hchain.
    - injection Hrest as <- <- <-. exact Hchain. }
  destruct Hbuilt as (res8 & Hbuilt). unfold buildAPI in Hbuilt.
  destruct (body res8) as [html|]; [|discriminate].
  cbv zeta in Hbuilt. cbv zeta.
  set (cookies := getCookies (jar w') "https://www.facebook.com") in *.
  assert (Huser : exists c, In c cookies /\ (rkey c = JStr "c_user" \/ rkey c = JStr "i_user")).
  { destruct (List.find (fun c => bool_decide (rkey c = JStr "c_user")) cookies) as [c|] eqn:Hc.
    - apply List.find_some in Hc as [Hin Hk]. apply bool_decide_eq_true in Hk.
      exists c. split; [exact Hin | left; exact Hk].
    - destruct (List.find (fun c => bool_decide (rkey c = JStr "i_user")) cookies)
        as [c|] eqn:Hi; [|discriminate].
      apply List.find_some in Hi as [Hin Hk]. apply bool_decide_eq_true in Hk.
      exists c. split; [exact Hin | right; exact Hk]. }
  split; [exact Huser|].
  destruct (List.find (fun c => bool_decide (rkey c = JStr "c_user")) cookies),
           (List.find (fun c => bool_decide (rkey c = JStr "i_user")) cookies);
    try discriminate;
    (destruct (Js.includes "/checkpoint/block/?next" html); [discriminate|]);
    injection Hbuilt as <-; repeat split.
Qed.

End HandleBuilt.

(** X21 at work on the stored session of the examples. *)
Lemma handle_needs_user_cookie_witness :
  exists api,
    fst (@loginHelper Example.env Example.session
           (Example.world [Reply Example.homePage; Reply Example.homePage]))
    = CallbackApi api /\
    userID api = JStr "100001" /\ region api = JUndefined.
Proof.
  eexists. split; [vm_compute; reflexivity|].
  match goal with |- userID ?api = _ /\ _ =>
    assert (Hrun : fst (@loginHelper Example.env Example.session
                          (Example.world [Reply Example.homePage; Reply Example.homePage]))
                   = CallbackApi api) by (vm_compute; reflexivity);
    destruct (@handle_needs_user_cookie Example.env Example.session
                (Example.world [Reply Example.homePage; Reply Example.homePage])
                api Hrun) as (_ & Hid & _ & Hregion & _)
  end.
  split; [reflexivity | exact Hregion].
Defined.

(** ** The option setter of the other copy *)

Section OtherSetter.
Context `{Env}.






End OtherSetter.

